(** * Firefly karmada manager: bootstrap and lifecycle core

    A shallow embedding of
    - [cmd/firefly-karmada-manager/app] (the controller manager command,
      [Run], [CreateControllerContext], [StartControllers],
      [GetAvailableResources], [ResyncPeriod]), and
    - [pkg/controller/clusterpedia/clusterpedia_internelstorage.go]
      ([EnsureInternalStorage]).

    Go functions become Rocq functions with the same names.  A Go [error]
    is an inductive value with one constructor per [fmt.Errorf] site, a
    nil-able interface, pointer or map is an [option], a [map] is a
    [gmap], a [float64] is a binary64 number of [SpecFloat], and the
    effects of the code (log lines, sleeps, calls into informer
    factories, channel operations) are events written next to the state
    that is passed along. *)

From Stdlib Require Import ZArith Ascii String.
From Stdlib.Floats Require Import SpecFloat.
From stdpp Require Import base tactics option list strings gmap fin_maps
  sorting.

Local Open Scope string_scope.
Local Open Scope Z_scope.

(** ** Errors *)

(** The errors the code constructs or passes on.  [fmt.Errorf] calls keep
    their arguments instead of a formatted text. *)
Inductive error : Type :=
  | ErrNoArguments (commandPath : string) (args : list string)
      (* "%q does not take any arguments, got %q" *)
  | ErrUnknownStorageType
      (* "unknown storage type" *)
  | ErrNoSupportedResources
      (* "unable to get any supported resources from server" *)
  | ErrUnexpectedGroupVersion (gv : string)
      (* schema.ParseGroupVersion: "unexpected GroupVersion string: %v" *)
  | ErrWaitForAPIServer (cause : error)
      (* "failed to wait for apiserver being healthy: %v" *)
  | ErrExternal (msg : string).
      (* an error produced outside this package *)

(** ** The command's argument validator *)

(** The [Args] field of the cobra command built by
    [NewControllerManagerCommand]: the loop over [args] returns at the
    first argument of positive length; the error carries the command
    path and the whole argument list. *)
Fixpoint Args_range (commandPath : string) (args rest : list string)
  : option error :=
  match rest with
  | [] => None
  | arg :: rest' =>
      if (0 <? String.length arg)%nat
      then Some (ErrNoArguments commandPath args)
      else Args_range commandPath args rest'
  end.

Definition Args (commandPath : string) (args : list string) : option error :=
  Args_range commandPath args args.

(** [cmd.CommandPath()] of the root command is its [Use] field. *)
Definition CommandPath : string := "firefly-karmada-manager".

(** ** Clusterpedia internal storage *)

Section Clusterpedia.
Context {LocalPostgres LocalMySQL : Type}.

(** The part of [installv1alpha1.Clusterpedia] that
    [EnsureInternalStorage] reads: [Spec.Storage] with its optional
    [Postgres] and [MySQL] sections, each with an optional [Local]
    section.  The payload of a [Local] section is not inspected. *)
Record Postgres := { PostgresLocal : option LocalPostgres }.
Record MySQL := { MySQLLocal : option LocalMySQL }.
Record ClusterpediaStorage := {
  StoragePostgres : option Postgres;
  StorageMySQL : option MySQL
}.
Record ClusterpediaSpec := { SpecStorage : ClusterpediaStorage }.
Record Clusterpedia := { ObjName : string; Spec : ClusterpediaSpec }.

(** The state the controller acts on, and the two methods of
    [ClusterpediaController] the switch hands over to.  They live in
    other files of the package; the dispatcher returns whatever they
    return. *)
Context {Cluster : Type}.
Variable EnsurePostgres : Clusterpedia -> Cluster -> option error * Cluster.
Variable EnsureMySQL : Clusterpedia -> Cluster -> option error * Cluster.

(** [storage.Postgres != nil && storage.Postgres.Local != nil] *)
Definition postgres_local (storage : ClusterpediaStorage) : bool :=
  match StoragePostgres storage with
  | Some pg => match PostgresLocal pg with Some _ => true | None => false end
  | None => false
  end.

(** [storage.MySQL != nil && storage.MySQL.Local != nil] *)
Definition mysql_local (storage : ClusterpediaStorage) : bool :=
  match StorageMySQL storage with
  | Some my => match MySQLLocal my with Some _ => true | None => false end
  | None => false
  end.

Definition EnsureInternalStorage (clusterpedia : Clusterpedia) (w : Cluster)
  : option error * Cluster :=
  let storage := SpecStorage (Spec clusterpedia) in
  if postgres_local storage then EnsurePostgres clusterpedia w
  else if mysql_local storage then EnsureMySQL clusterpedia w
  else (Some ErrUnknownStorageType, w).

End Clusterpedia.

Arguments Postgres : clear implicits.
Arguments MySQL : clear implicits.
Arguments ClusterpediaStorage : clear implicits.
Arguments ClusterpediaSpec : clear implicits.
Arguments Clusterpedia : clear implicits.

(** ** Durations and float64 arithmetic *)

(** [time.Duration] is an [int64] count of nanoseconds. *)
Definition Duration : Type := Z.

Definition Second : Duration := 1000000000.

Definition float64 : Type := spec_float.

Definition f64_add : float64 -> float64 -> float64 := SFadd 53 1024.
Definition f64_mul : float64 -> float64 -> float64 := SFmul 53 1024.
Definition f64_ltb : float64 -> float64 -> bool := SFltb.
Definition f64_leb : float64 -> float64 -> bool := SFleb.

(** The constants [1] and [1.0]. *)
Definition f64_one : float64 := S754_finite false 4503599627370496 (-52).
Definition f64_zero : float64 := S754_zero false.

(** [float64(n)] for an [int64]: the nearest binary64 number, ties to
    even. *)
Definition float64_of_int64 (n : Z) : float64 :=
  binary_normalize 53 1024 n 0 false.

(** [int64(x)] for a [float64], as [time.Duration(x)] does it: the
    fraction is dropped (rounding toward zero).  Outside the range of
    [int64], and for NaN, Go leaves the result to the implementation;
    the value here is the one amd64 gives. *)
Definition int64_min : Z := - 2 ^ 63.
Definition int64_max : Z := 2 ^ 63 - 1.

Definition truncate (x : float64) : option Z :=
  match x with
  | S754_zero _ => Some 0
  | S754_finite s m e =>
      Some (cond_Zopp s (if 0 <=? e then Z.pos m * 2 ^ e
                         else Z.pos m / 2 ^ (- e)))
  | _ => None
  end.

Definition int64_of_float64 (x : float64) : Z :=
  match truncate x with
  | Some n => if (int64_min <=? n) && (n <=? int64_max) then n else int64_min
  | None => int64_min
  end.

(** What [rand.Float64] promises of its result: a binary64 number in
    the half-open interval from 0 to 1. *)
Definition unit_interval (r : float64) : bool :=
  valid_binary 53 1024 r && f64_leb f64_zero r && f64_ltb r f64_one.

(** The body of the closure [ResyncPeriod] returns, at the value [r]
    that [rand.Float64()] gave it. *)
Definition ResyncPeriod_at (MinResyncPeriod : Duration) (r : float64) : Duration :=
  let factor := f64_add r f64_one in
  int64_of_float64 (f64_mul (float64_of_int64 MinResyncPeriod) factor).

(** Addition of two [int64] wraps around. *)
Definition int64_add (a b : Z) : Z := (a + b + 2 ^ 63) mod 2 ^ 64 - 2 ^ 63.

(** [wait.Jitter(duration, maxFactor)] of apimachinery, at the value [r]
    of its call to [rand.Float64()]. *)
Definition Jitter_at (duration : Duration) (maxFactor : float64) (r : float64)
  : Duration :=
  let maxFactor :=
    if f64_leb maxFactor f64_zero then f64_one else maxFactor in
  int64_add duration
    (int64_of_float64 (f64_mul (f64_mul r maxFactor) (float64_of_int64 duration))).

(** [ControllerStartJitter] is the Jitter used when starting controller
    managers. *)
Definition ControllerStartJitter : float64 := f64_one.


(** ** Discovery *)

(** [metav1.APIResource] and [metav1.APIResourceList], cut down to the
    fields [GetAvailableResources] reads. *)
Record APIResource := { APIResourceName : string }.
Record APIResourceList := {
  ListGroupVersion : string;
  APIResources : list APIResource
}.

(** [schema.GroupVersion] and [schema.GroupVersionResource]. *)
Record GroupVersion := { gvGroup : string; gvVersion : string }.
Record GroupVersionResource := {
  Group : string;
  Version : string;
  Resource : string
}.

Global Instance GroupVersionResource_eq_dec : EqDecision GroupVersionResource.
Proof. solve_decision. Defined.

Global Instance GroupVersionResource_countable : Countable GroupVersionResource.
Proof.
  refine (inj_countable'
            (fun x => (Group x, Version x, Resource x))
            (fun t => {| Group := t.1.1; Version := t.1.2; Resource := t.2 |}) _).
  by intros [].
Defined.

Definition WithResource (gv : GroupVersion) (resource : string)
  : GroupVersionResource :=
  {| Group := gvGroup gv; Version := gvVersion gv; Resource := resource |}.

(** [strings.Count(gv, "/")] *)
Fixpoint count_slash (s : string) : nat :=
  match s with
  | EmptyString => 0%nat
  | String c s' =>
      if Ascii.eqb c "/"%char then S (count_slash s') else count_slash s'
  end.

(** [gv[:i]] and [gv[i+1:]] for [i := strings.Index(gv, "/")]; without
    a slash the first part is the whole string. *)
Fixpoint cut_slash (s : string) : string * string :=
  match s with
  | EmptyString => (EmptyString, EmptyString)
  | String c s' =>
      if Ascii.eqb c "/"%char then (EmptyString, s')
      else let '(l, r) := cut_slash s' in (String c l, r)
  end.

(** [schema.ParseGroupVersion] of apimachinery: the empty string and
    ["/"] give the empty group version, a string without a slash is a
    version of the core group, one slash separates group and version,
    and more slashes are an error. *)
Definition ParseGroupVersion (gv : string) : GroupVersion + error :=
  if (String.length gv =? 0)%nat || String.eqb gv "/"
  then inl {| gvGroup := ""; gvVersion := "" |}
  else match count_slash gv with
       | O => inl {| gvGroup := ""; gvVersion := gv |}
       | S O => let '(g, v) := cut_slash gv in
                inl {| gvGroup := g; gvVersion := v |}
       | _ => inr (ErrUnexpectedGroupVersion gv)
       end.

(** The inner loop of [GetAvailableResources]:
    [allResources[version.WithResource(apiResource.Name)] = true]. *)
Fixpoint mark_resources (version : GroupVersion) (resources : list APIResource)
    (allResources : gmap GroupVersionResource bool)
  : gmap GroupVersionResource bool :=
  match resources with
  | [] => allResources
  | apiResource :: rest =>
      mark_resources version rest
        (<[WithResource version (APIResourceName apiResource) := true]> allResources)
  end.

(** The outer loop: a group version that does not parse ends the call
    with the parser's error. *)
Fixpoint collect_resources (resourceMap : list APIResourceList)
    (allResources : gmap GroupVersionResource bool)
  : gmap GroupVersionResource bool + error :=
  match resourceMap with
  | [] => inl allResources
  | apiResourceList :: rest =>
      match ParseGroupVersion (ListGroupVersion apiResourceList) with
      | inr err => inr err
      | inl version =>
          collect_resources rest
            (mark_resources version (APIResources apiResourceList) allResources)
      end
  end.

(** What [client.ServerGroupsAndResources()] gave back: the resource
    lists and the error (the groups are not used). *)
Definition DiscoveryResponse : Type := list APIResourceList * option error.

(** [GetAvailableResources], from the response of the discovery client
    on.  The second component tells whether [utilruntime.HandleError]
    was called for a discovery error. *)
Definition GetAvailableResources (response : DiscoveryResponse)
  : (gmap GroupVersionResource bool + error) * option error :=
  let '(resourceMap, err) := response in
  let logged := err in
  if (length resourceMap =? 0)%nat
  then (inr ErrNoSupportedResources, logged)
  else (collect_resources resourceMap ∅, logged).

(** ** Configuration *)

(** The fields of [config.CompletedConfig] and of the component
    configuration that the package reads. *)
Record LeaderElectionConfiguration := {
  LeaderElect : bool;
  ResourceLock : string;
  ResourceName : string;
  ResourceNamespace : string
}.

Record ControllerLeaderConfiguration := {
  LeaderControllerName : string;
  LeaderComponent : string
}.

Record LeaderMigrationConfiguration := {
  MigrationLeaderName : string;
  MigrationResourceLock : string;
  ControllerLeaders : list ControllerLeaderConfiguration
}.

Record GenericControllerManagerConfiguration := {
  MinResyncPeriod : Duration;
  ControllerStartInterval : Duration;
  Controllers : list string;
  LeaderElection : LeaderElectionConfiguration;
  LeaderMigrationEnabled : bool;
  LeaderMigration : LeaderMigrationConfiguration
}.

Record FireflyKarmadaManagerConfiguration := {
  Generic : GenericControllerManagerConfiguration
}.

(** A [restclient.Config]; all that matters here is whether clients can
    be built from it. *)
Record Kubeconfig := { ConfigUsable : bool }.

Record CompletedConfig := {
  cfgComponentConfig : FireflyKarmadaManagerConfiguration;
  cfgEstimatorNamespace : string;
  cfgKarmadaName : string;
  cfgSecureServing : bool;  (* [c.SecureServing != nil] *)
  cfgKarmadaKubeconfig : Kubeconfig;
  cfgFireflyKubeconfig : Kubeconfig
}.

(** The zero value of the component configuration. *)
Definition zero_ComponentConfig : FireflyKarmadaManagerConfiguration :=
  {| Generic :=
       {| MinResyncPeriod := 0;
          ControllerStartInterval := 0;
          Controllers := [];
          LeaderElection :=
            {| LeaderElect := false; ResourceLock := ""; ResourceName := "";
               ResourceNamespace := "" |};
          LeaderMigrationEnabled := false;
          LeaderMigration :=
            {| MigrationLeaderName := ""; MigrationResourceLock := "";
               ControllerLeaders := [] |} |} |}.

(** [genericcontrollermanager.IsControllerEnabled]: an explicit entry
    for the name decides, in list order; without one the name is on only
    under a ["*"] entry and when it is not disabled by default. *)
Fixpoint IsControllerEnabled_range (name : string)
    (disabledByDefaultControllers : gset string) (controllers : list string)
    (hasStar : bool) : bool :=
  match controllers with
  | [] =>
      if negb hasStar then false
      else negb (bool_decide (name ∈ disabledByDefaultControllers))
  | ctrl :: rest =>
      if String.eqb ctrl name then true
      else if String.eqb ctrl ("-" ++ name) then false
      else IsControllerEnabled_range name disabledByDefaultControllers rest
             (hasStar || String.eqb ctrl "*")
  end.

(** [ControllersDisabledByDefault] is the set of controllers which is
    disabled by default. *)
Definition ControllersDisabledByDefault : gset string := ∅.

(** ** Clients and informer factories *)

Inductive ClusterId := KarmadaCluster | HostCluster.

Inductive ClientShape :=
  | KubeClient | DynamicClient | KarmadaFireflyClient | KarmadaClient
  | MetadataClient | FireflyClient | DiscoveryClient.

Record Client := {
  ClientCluster : ClusterId;
  Shape : ClientShape;
  UserAgent : string
}.

(** Modelled from the spec: the client builders of [pkg/clientbuilder],
    which is not part of the sources at hand.  A builder "fails fatally
    (process-terminating) if the underlying connection configuration is
    invalid"; there is one builder per cluster. *)
Record ClientBuilder := {
  BuilderCluster : ClusterId;
  BuilderConfig : Kubeconfig
}.

(** A shared informer factory is known by the call that made it. *)
Inductive InformerFactory :=
  | NewSharedInformerFactory (client : Client) (defaultResync : Duration)
  | NewFilteredSharedInformerFactory (client : Client)
      (defaultResync : Duration) (namespace : string)
  | NewInformerFactory (typedInformerFactory metadataInformerFactory : InformerFactory).

(** The informer factory fields of [ControllerContext]. *)
Inductive FactoryField :=
  | KarmadaDynamic | KarmadaKube | Karmada | KarmadaFirefly
  | FireflyDynamic | FireflyKube | Firefly | ObjectOrMetadata.

Global Instance FactoryField_eq_dec : EqDecision FactoryField.
Proof. solve_decision. Defined.

(** [restmapper.DeferredDiscoveryRESTMapper] over a cached discovery
    client. *)
Record RESTMapper := { MapperClient : Client }.

(** ** Controllers and health checks *)

(** An [http.Handler] and a [healthz.UnnamedHealthChecker] are passed on
    untouched; a number tells one from another. *)
Definition Handler : Type := nat.
Definition UnnamedHealthChecker : Type := nat.

(** A non-nil [controller.Interface].  [Debuggable] is [None] when the
    controller does not implement [controller.Debuggable], and
    [Some None] when its [DebuggingHandler()] is nil; [HealthCheckable]
    likewise. *)
Record Controller := {
  ControllerName : string;
  Debuggable : option (option Handler);
  HealthCheckable : option (option UnnamedHealthChecker)
}.

Inductive HealthChecker :=
  | LeaderHealthzAdaptor (timeout : Duration)
  | NamedPingChecker (name : string)
  | NamedHealthChecker (name : string) (check : UnnamedHealthChecker).

(** What an [InitFunc] returns: the controller (may be nil), whether it
    was started, and the error. *)
Definition InitResult : Type := option Controller * bool * option error.

Definition result_controller (r : InitResult) : option Controller := r.1.1.
Definition result_started (r : InitResult) : bool := r.1.2.
Definition result_err (r : InitResult) : option error := r.2.

(** ** Processes: state, events, outcomes *)

Inductive LogLine :=
  | LogDisabled (controllerName : string)       (* "%q is disabled" *)
  | LogStarting (controllerName : string)       (* "Starting %q" *)
  | LogErrorStarting (controllerName : string)  (* "Error starting %q" *)
  | LogSkipping (controllerName : string)       (* "Skipping %q" *)
  | LogStarted (controllerName : string).       (* "Started %q" *)

(** What the process does that can be seen from outside.  [EvLog] is a
    line handed to [klog.Warningf], [klog.Errorf] or [klog.Infof], which
    is always written; [EvVerboseLog] is a line handed to
    [klog.V(level).Infof], which is written only when the verbosity in
    effect is at least [level]. *)
Inductive Event :=
  | EvLog (line : LogLine)
  | EvVerboseLog (level : Z) (line : LogLine)
  | EvHandleError (err : error)
  | EvDiscovery (client : Client) (response : DiscoveryResponse)
  | EvSleep (d : Duration)
  | EvInitCalled (controllerName : string)
  | EvInitReturned (controllerName : string) (result : InitResult)
  | EvUnlistedHandle (path : string) (h : Handler)
  | EvUnlistedHandlePrefix (path : string) (h : Handler)
  | EvAddHealthChecker (checks : list HealthChecker)
  | EvResetLoopStarted (mapper : RESTMapper) (period : Duration)
  | EvFactoryStart (field : FactoryField) (factory : InformerFactory)
  | EvClose (ch : nat)
  | EvAwaitDone.

Inductive FatalMessage :=
  | FatalClient (userAgent : string)
  | FatalBuildingContext (err : error)    (* "error building controller context: %v" *)
  | FatalStartingControllers (err : error). (* "error starting controllers: %v" *)

Inductive PanicMessage :=
  | CloseOfClosedChannel
  | CloseOfNilChannel
  | NilDereference.

(** A call returns, or ends the process through [klog.Fatalf], or
    panics. *)
Inductive Outcome (A : Type) :=
  | Returned (a : A)
  | Fatal (msg : FatalMessage)
  | Panicked (msg : PanicMessage).

Arguments Returned {A} a.
Arguments Fatal {A} msg.
Arguments Panicked {A} msg.

(** What lies outside the process: the random source of [math/rand],
    the API servers behind [WaitForAPIServer] and the discovery clients,
    and the order in which the run time hands out the entries of a map
    to a [range] loop (every entry once, in an order of its choosing). *)
Class Platform (World : Type) := {
  rand_Float64 : World -> float64 * World;
  WaitForAPIServer : Client -> Duration -> World -> option error * World;
  ServerGroupsAndResources : Client -> World -> DiscoveryResponse * World;
  MapRange : forall {V : Type}, gmap string V -> list (string * V);
  MapRange_perm : forall {V : Type} (m : gmap string V),
    MapRange m ≡ₚ map_to_list m
}.

Section App.
Context {World : Type} `{!Platform World}.

(** The process state: the world outside, the channels made so far and
    the closed ones among them, and the checks of the health handler
    ([controllerhealthz.MutableHealthzHandler]). *)
Record Proc := {
  world : World;
  nextChan : nat;
  closedChans : gset nat;
  healthzChecks : list HealthChecker
}.

(** A computation reads and writes the process state, emits events,
    and has an outcome. *)
Definition M (A : Type) : Type := Proc -> Outcome A * Proc * list Event.

Definition ret {A} (a : A) : M A := fun p => (Returned a, p, []).

Definition bind {A B} (m : M A) (k : A -> M B) : M B :=
  fun p =>
    match m p with
    | (Returned a, p1, evs1) =>
        let '(o, p2, evs2) := k a p1 in (o, p2, (evs1 ++ evs2)%list)
    | (Fatal msg, p1, evs1) => (Fatal msg, p1, evs1)
    | (Panicked msg, p1, evs1) => (Panicked msg, p1, evs1)
    end.

Notation "'let*' x := m 'in' k" := (bind m (fun x => k))
  (at level 10, x pattern, m at level 100, k at level 200).

Definition emit (e : Event) : M unit := fun p => (Returned tt, p, [e]).

Definition fatal {A} (msg : FatalMessage) : M A := fun p => (Fatal msg, p, []).

Definition panic {A} (msg : PanicMessage) : M A := fun p => (Panicked msg, p, []).

(** A call into the world outside. *)
Definition call {A} (f : World -> A * World) : M A :=
  fun p =>
    let '(a, w) := f (world p) in
    (Returned a,
     {| world := w; nextChan := nextChan p; closedChans := closedChans p;
        healthzChecks := healthzChecks p |},
     []).

(** [make(chan struct{})] *)
Definition make_chan : M nat :=
  fun p =>
    (Returned (nextChan p),
     {| world := world p; nextChan := S (nextChan p);
        closedChans := closedChans p; healthzChecks := healthzChecks p |},
     []).

(** [close(ch)]: closing a nil channel or a closed channel panics. *)
Definition close_chan (ch : option nat) : M unit :=
  match ch with
  | None => panic CloseOfNilChannel
  | Some c =>
      fun p =>
        if bool_decide (c ∈ closedChans p)
        then (Panicked CloseOfClosedChannel, p, [])
        else (Returned tt,
              {| world := world p; nextChan := nextChan p;
                 closedChans := {[c]} ∪ closedChans p;
                 healthzChecks := healthzChecks p |},
              [EvClose c])
  end.

(** [healthzHandler.AddHealthChecker(checks...)] *)
Definition AddHealthChecker (checks : list HealthChecker) : M unit :=
  fun p =>
    (Returned tt,
     {| world := world p; nextChan := nextChan p;
        closedChans := closedChans p;
        healthzChecks := (healthzChecks p ++ checks)%list |},
     [EvAddHealthChecker checks]).

(** ** The controller context *)

Record ControllerContext := {
  KarmadaClientBuilder : option ClientBuilder;
  FireflyClientBuilder : option ClientBuilder;
  KarmadaDynamicInformerFactory : option InformerFactory;
  KarmadaKubeInformerFactory : option InformerFactory;
  KarmadaFireflyInformerFactory : option InformerFactory;
  KarmadaInformerFactory : option InformerFactory;
  FireflyDynamicInformerFactory : option InformerFactory;
  FireflyKubeInformerFactory : option InformerFactory;
  FireflyInformerFactory : option InformerFactory;
  EstimatorNamespace : string;
  KarmadaName : string;
  ObjectOrMetadataInformerFactory : option InformerFactory;
  ComponentConfig : FireflyKarmadaManagerConfiguration;
  RESTMapper_ : option RESTMapper;
  AvailableResources : option (gmap GroupVersionResource bool);
  HostClusterAvailableResources : option (gmap GroupVersionResource bool);
  InformersStarted : option nat;
  ResyncPeriod_ : option (M Duration)
}.

(** [ControllerContext{}] *)
Definition zero_ControllerContext : ControllerContext :=
  {| KarmadaClientBuilder := None;
     FireflyClientBuilder := None;
     KarmadaDynamicInformerFactory := None;
     KarmadaKubeInformerFactory := None;
     KarmadaFireflyInformerFactory := None;
     KarmadaInformerFactory := None;
     FireflyDynamicInformerFactory := None;
     FireflyKubeInformerFactory := None;
     FireflyInformerFactory := None;
     EstimatorNamespace := "";
     KarmadaName := "";
     ObjectOrMetadataInformerFactory := None;
     ComponentConfig := zero_ComponentConfig;
     RESTMapper_ := None;
     AvailableResources := None;
     HostClusterAvailableResources := None;
     InformersStarted := None;
     ResyncPeriod_ := None |}.

(** [IsControllerEnabled] checks if the context's controllers enabled
    or not. *)
Definition IsControllerEnabled (c : ControllerContext) (name : string) : bool :=
  IsControllerEnabled_range name ControllersDisabledByDefault
    (Controllers (Generic (ComponentConfig c))) false.

(** [InitFunc] is used to launch a particular controller.  The Go
    context it also receives only carries cancellation. *)
Definition InitFunc : Type := ControllerContext -> World -> InitResult * World.

(** [ControllerInitializersFunc] is used to create a collection of
    initializers. *)
Definition ControllerInitializersFunc : Type := unit -> gmap string InitFunc.

(** ** Resync periods *)

(** [ResyncPeriod] returns a function which generates a duration each
    time it is invoked. *)
Definition ResyncPeriod (c : CompletedConfig) : M Duration :=
  let* r := call rand_Float64 in
  ret (ResyncPeriod_at (MinResyncPeriod (Generic (cfgComponentConfig c))) r).

(** ** Building the context *)

(** The ways [CreateControllerContext] gets a client from a builder:
    the builder's [ClientOrDie], [DynamicClientOrDie],
    [KarmadaFireflyClientOrDie] and [DiscoveryClientOrDie], and
    [ConfigOrDie] followed by a clientset's [NewForConfigOrDie].  All of
    them are taken as one step that gives the client when a client can
    be built from the builder's kubeconfig and ends the process
    otherwise; that [NewForConfigOrDie] ends it with a panic and not
    through [klog.Fatal] is not told apart. *)
Definition ClientOrDie (b : ClientBuilder) (shape : ClientShape)
    (userAgent : string) : M Client :=
  if ConfigUsable (BuilderConfig b)
  then ret {| ClientCluster := BuilderCluster b; Shape := shape;
              UserAgent := userAgent |}
  else fatal (FatalClient userAgent).

(** [GetKarmadaAvailableResources] and
    [GetHostClusterAvailableResources]: a discovery client of the
    builder, then [GetAvailableResources].  The call of
    [client.ServerGroupsAndResources()] and what it gave back are
    recorded as an event. *)
Definition GetClusterAvailableResources (clientBuilder : ClientBuilder)
  : M (gmap GroupVersionResource bool + error) :=
  let* client := ClientOrDie clientBuilder KubeClient "controller-discovery" in
  let* response := call (ServerGroupsAndResources client) in
  let* _ := emit (EvDiscovery client response) in
  let '(result, logged) := GetAvailableResources response in
  let* _ := match logged with
            | Some err => emit (EvHandleError err)
            | None => ret tt
            end in
  ret result.

Definition GetKarmadaAvailableResources := GetClusterAvailableResources.
Definition GetHostClusterAvailableResources := GetClusterAvailableResources.

Definition CreateControllerContext (s : CompletedConfig)
    (karmadaClientBuilder fireflyKubeClientBuilder : ClientBuilder)
  : M (ControllerContext * option error) :=
  let* karmadaKubeClient :=
    ClientOrDie karmadaClientBuilder KubeClient "karmada-kube-shared-informers" in
  let* d1 := ResyncPeriod s in
  let karmadaKubeSharedInformers := NewSharedInformerFactory karmadaKubeClient d1 in
  let* karmadaDynamicClient :=
    ClientOrDie karmadaClientBuilder DynamicClient "karmada-dynamic-shared-informers" in
  let* d2 := ResyncPeriod s in
  let karmadaDynamicSharedInformers :=
    NewSharedInformerFactory karmadaDynamicClient d2 in
  let* karmadaFireflyClient :=
    ClientOrDie karmadaClientBuilder KarmadaFireflyClient
      "karmada-firefly-shared-informers" in
  let* d3 := ResyncPeriod s in
  let karmadaFireflySharedInformers :=
    NewSharedInformerFactory karmadaFireflyClient d3 in
  let* karmadaClient :=
    ClientOrDie karmadaClientBuilder KarmadaClient "karmada-shared-informers" in
  let* d4 := ResyncPeriod s in
  let karmadaSharedInformers := NewSharedInformerFactory karmadaClient d4 in
  let* metadataClient :=
    ClientOrDie karmadaClientBuilder MetadataClient "firefly-metadata-informers" in
  let* d5 := ResyncPeriod s in
  let metadataInformers := NewSharedInformerFactory metadataClient d5 in
  let* err := call (WaitForAPIServer karmadaKubeClient (10 * Second)) in
  match err with
  | Some err => ret (zero_ControllerContext, Some (ErrWaitForAPIServer err))
  | None =>
  let* fireflyKubeClient :=
    ClientOrDie fireflyKubeClientBuilder KubeClient "firefly-kube-shared-informers" in
  let* d6 := ResyncPeriod s in
  let fireflyKubeSharedInformers := NewSharedInformerFactory fireflyKubeClient d6 in
  let* fireflyDynamicClient :=
    ClientOrDie fireflyKubeClientBuilder DynamicClient
      "firefly-dynamic-shared-informers" in
  let* d7 := ResyncPeriod s in
  let fireflyDynamicSharedInformers :=
    NewSharedInformerFactory fireflyDynamicClient d7 in
  let* fireflyClient :=
    ClientOrDie fireflyKubeClientBuilder FireflyClient "firefly-shared-informers" in
  let* d8 := ResyncPeriod s in
  let fireflySharedInformers :=
    NewFilteredSharedInformerFactory fireflyClient d8 (cfgEstimatorNamespace s) in
  let* err := call (WaitForAPIServer fireflyKubeClient (10 * Second)) in
  match err with
  | Some err => ret (zero_ControllerContext, Some (ErrWaitForAPIServer err))
  | None =>
  let* discoveryClient :=
    ClientOrDie karmadaClientBuilder DiscoveryClient "firelfy-controller-discovery" in
  let restMapper := {| MapperClient := discoveryClient |} in
  let* _ := emit (EvResetLoopStarted restMapper (30 * Second)) in
  let* availableResources := GetKarmadaAvailableResources karmadaClientBuilder in
  match availableResources with
  | inr err => ret (zero_ControllerContext, Some err)
  | inl availableResources =>
  let* hostClusterAvailableResources :=
    GetHostClusterAvailableResources fireflyKubeClientBuilder in
  match hostClusterAvailableResources with
  | inr err => ret (zero_ControllerContext, Some err)
  | inl hostClusterAvailableResources =>
  let* informersStarted := make_chan in
  let ctx :=
    {| KarmadaClientBuilder := Some karmadaClientBuilder;
       FireflyClientBuilder := Some fireflyKubeClientBuilder;
       KarmadaDynamicInformerFactory := Some karmadaDynamicSharedInformers;
       KarmadaKubeInformerFactory := Some karmadaKubeSharedInformers;
       KarmadaFireflyInformerFactory := Some karmadaFireflySharedInformers;
       KarmadaInformerFactory := Some karmadaSharedInformers;
       FireflyDynamicInformerFactory := Some fireflyDynamicSharedInformers;
       FireflyKubeInformerFactory := Some fireflyKubeSharedInformers;
       FireflyInformerFactory := Some fireflySharedInformers;
       ObjectOrMetadataInformerFactory :=
         Some (NewInformerFactory karmadaKubeSharedInformers metadataInformers);
       ComponentConfig := cfgComponentConfig s;
       EstimatorNamespace := cfgEstimatorNamespace s;
       KarmadaName := cfgKarmadaName s;
       RESTMapper_ := Some restMapper;
       AvailableResources := Some availableResources;
       HostClusterAvailableResources := Some hostClusterAvailableResources;
       InformersStarted := Some informersStarted;
       ResyncPeriod_ := Some (ResyncPeriod s) |} in
  ret (ctx, None)
  end end end end.

(** ** Starting the controllers *)

(** The debug handler of a controller that has one is mounted on the
    unsecured mux, when there is a mux. *)
Definition mount_debug (controllerName : string) (ctrl : Controller)
    (unsecuredMux : bool) : M unit :=
  match Debuggable ctrl with
  | Some debuggable =>
      if unsecuredMux then
        match debuggable with
        | Some debugHandler =>
            let basePath := "/debug/controllers/" ++ controllerName in
            let* _ := emit (EvUnlistedHandle basePath debugHandler) in
            emit (EvUnlistedHandlePrefix (basePath ++ "/") debugHandler)
        | None => ret tt
        end
      else ret tt
  | None => ret tt
  end.

(** The health check of a started controller: the named ping check,
    replaced by the controller's own checker when the controller is not
    nil, is [controller.HealthCheckable], and its checker is not nil. *)
Definition controller_check (controllerName : string) (ctrl : option Controller)
  : HealthChecker :=
  let check := NamedPingChecker controllerName in
  match ctrl with
  | Some ctrl =>
      match HealthCheckable ctrl with
      | Some healthCheckable =>
          match healthCheckable with
          | Some realCheck => NamedHealthChecker controllerName realCheck
          | None => check
          end
      | None => check
      end
  | None => check
  end.

(** The loop of [StartControllers] over the entries of the map, in the
    order [controllers] lists them, with the checks gathered so far. *)
Fixpoint StartControllers_range (controllerCtx : ControllerContext)
    (unsecuredMux : bool) (controllers : list (string * InitFunc))
    (controllerChecks : list HealthChecker)
  : M (list HealthChecker + error) :=
  match controllers with
  | [] => ret (inl controllerChecks)
  | (controllerName, initFn) :: rest =>
      if negb (IsControllerEnabled controllerCtx controllerName) then
        let* _ := emit (EvLog (LogDisabled controllerName)) in
        StartControllers_range controllerCtx unsecuredMux rest controllerChecks
      else
        let* r := call rand_Float64 in
        let* _ :=
          emit (EvSleep
                  (Jitter_at
                     (ControllerStartInterval (Generic (ComponentConfig controllerCtx)))
                     ControllerStartJitter r)) in
        let* _ := emit (EvVerboseLog 1 (LogStarting controllerName)) in
        let* _ := emit (EvInitCalled controllerName) in
        let* result := call (initFn controllerCtx) in
        let* _ := emit (EvInitReturned controllerName result) in
        let '(ctrl, started, err) := result in
        match err with
        | Some err =>
            let* _ := emit (EvLog (LogErrorStarting controllerName)) in
            ret (inr err)
        | None =>
            if negb started then
              let* _ := emit (EvLog (LogSkipping controllerName)) in
              StartControllers_range controllerCtx unsecuredMux rest controllerChecks
            else
              let check := controller_check controllerName ctrl in
              let* _ := match ctrl with
                        | Some ctrl => mount_debug controllerName ctrl unsecuredMux
                        | None => ret tt
                        end in
              let controllerChecks := (controllerChecks ++ [check])%list in
              let* _ := emit (EvLog (LogStarted controllerName)) in
              StartControllers_range controllerCtx unsecuredMux rest controllerChecks
        end
  end.

(** [StartControllers] starts a set of controllers with a specified
    [ControllerContext]. *)
Definition StartControllers (controllerCtx : ControllerContext)
    (controllers : gmap string InitFunc) (unsecuredMux : bool)
  : M (option error) :=
  let* r := StartControllers_range controllerCtx unsecuredMux
              (MapRange controllers) [] in
  match r with
  | inr err => ret (Some err)
  | inl controllerChecks =>
      let* _ := AddHealthChecker controllerChecks in
      ret None
  end.

(** ** One leadership epoch *)

(** [factory.Start(stopCh)] on a field of the context. *)
Definition FactoryStart (field : FactoryField) (factory : option InformerFactory)
  : M unit :=
  match factory with
  | Some factory => emit (EvFactoryStart field factory)
  | None => panic NilDereference
  end.

(** The closure [run] of [Run], up to and including the point where it
    waits for [ctx.Done()]. *)
Definition run (c : CompletedConfig)
    (karmadaClientBuilder fireflyKubeClientBuilder : ClientBuilder)
    (unsecuredMux : bool) (initializersFunc : ControllerInitializersFunc)
  : M unit :=
  let* r := CreateControllerContext c karmadaClientBuilder fireflyKubeClientBuilder in
  let '(controllerContext, err) := r in
  match err with
  | Some err => fatal (FatalBuildingContext err)
  | None =>
      let controllerInitializers := initializersFunc () in
      let* err := StartControllers controllerContext controllerInitializers
                    unsecuredMux in
      match err with
      | Some err => fatal (FatalStartingControllers err)
      | None =>
          let* _ := FactoryStart KarmadaDynamic
                      (KarmadaDynamicInformerFactory controllerContext) in
          let* _ := FactoryStart KarmadaKube
                      (KarmadaKubeInformerFactory controllerContext) in
          let* _ := FactoryStart Karmada
                      (KarmadaInformerFactory controllerContext) in
          let* _ := FactoryStart KarmadaFirefly
                      (KarmadaFireflyInformerFactory controllerContext) in
          let* _ := FactoryStart FireflyDynamic
                      (FireflyDynamicInformerFactory controllerContext) in
          let* _ := FactoryStart FireflyKube
                      (FireflyKubeInformerFactory controllerContext) in
          let* _ := FactoryStart Firefly
                      (FireflyInformerFactory controllerContext) in
          let* _ := FactoryStart ObjectOrMetadata
                      (ObjectOrMetadataInformerFactory controllerContext) in
          let* _ := close_chan (InformersStarted controllerContext) in
          emit EvAwaitDone
      end
  end.

(** [createClientBuilders] creates karmadaClientBuilder and
    fireflyKubeClientBuilder from the given configuration. *)
Definition createClientBuilders (c : CompletedConfig)
  : ClientBuilder * ClientBuilder :=
  ({| BuilderCluster := KarmadaCluster; BuilderConfig := cfgKarmadaKubeconfig c |},
   {| BuilderCluster := HostCluster; BuilderConfig := cfgFireflyKubeconfig c |}).

End App.

Arguments Proc : clear implicits.
Arguments ControllerContext World : clear implicits.
Arguments InitFunc World : clear implicits.
Arguments ControllerInitializersFunc World : clear implicits.
Arguments M World A : clear implicits.

(** ** Leader migration *)

Inductive FilterResult :=
  | ControllerUnowned
  | ControllerMigrated
  | ControllerNonMigrated.

Global Instance FilterResult_eq_dec : EqDecision FilterResult.
Proof. solve_decision. Defined.

(** [leadermigration.Enabled]: leader migration needs leader election. *)
Definition leadermigration_Enabled (g : GenericControllerManagerConfiguration)
  : bool :=
  LeaderElect (LeaderElection g) && LeaderMigrationEnabled g.

(** The table [leadermigration.NewLeaderMigrator] builds from the
    configured controller leaders: a controller is to run here when its
    leader is this component or ["*"]. *)
Definition migratedControllers (config : LeaderMigrationConfiguration)
    (component : string) : gmap string bool :=
  foldl
    (fun m leader =>
       <[LeaderControllerName leader :=
           String.eqb (LeaderComponent leader) component
           || String.eqb (LeaderComponent leader) "*"]> m)
    ∅ (ControllerLeaders config).

(** The [FilterFunc] of the leader migrator. *)
Definition FilterFunc (config : LeaderMigrationConfiguration)
    (component : string) (controllerName : string) : FilterResult :=
  match (migratedControllers config component !! controllerName : option bool) with
  | Some shouldRun =>
      if shouldRun then ControllerMigrated else ControllerUnowned
  | None => ControllerNonMigrated
  end.

(** ** The main goroutine of [Run] *)

Inductive Lock := MainLock | MigrationLock.

Global Instance Lock_eq_dec : EqDecision Lock.
Proof. solve_decision. Defined.

(** The channels the main goroutine receives from. *)
Inductive Signal := MigrationReady | StopCh.

Global Instance Signal_eq_dec : EqDecision Signal.
Proof. solve_decision. Defined.

Section Run.
Context {World : Type} `{!Platform World}.

(** The start functions of the four controllers; they live in other
    files of the package. *)
Variables startEstimatorController startNodeController
  startFooController startKubeanController : InitFunc World.

(** [NewControllerInitializers] is a public map of named controller
    groups paired to their [InitFunc]. *)
Definition NewControllerInitializers : ControllerInitializersFunc World :=
  fun _ =>
    <["kubean" := startKubeanController]>
      (<["foo" := startFooController]>
         (<["node" := startNodeController]>
            (<["estimator" := startEstimatorController]> ∅))).

(** [createInitializersFunc] creates a initializersFunc that returns
    all initializer with expected as the result after filtering through
    filterFunc. *)
Definition createInitializersFunc (filterFunc : string -> FilterResult)
    (expected : FilterResult) : ControllerInitializersFunc World :=
  fun _ =>
    filter (fun entry => filterFunc entry.1 = expected)
      (NewControllerInitializers ()).

(** What the main goroutine of [Run] does, one step after the other:
    it serves, runs the closure [run] itself, starts a goroutine with
    [leaderElectAndRun] for a lock (whose [OnStartedLeading] calls [run]
    with the given initializers), receives from a channel, or returns. *)
Inductive MainStep :=
  | Serve
  | RunDirectly (initializersFunc : ControllerInitializersFunc World)
  | GoLeaderElectAndRun (lock : Lock) (resourceLock leaseName : string)
      (initializersFunc : ControllerInitializersFunc World)
  | Receive (s : Signal)
  | Return (err : option error).

(** The steps of the main goroutine after the HTTP server is up, given
    what [os.Hostname()] returns.  Without leader election [run] is
    called in place and waits for [ctx.Done()], a context that is done
    when [stopCh] is closed. *)
Definition Run_elect (c : CompletedConfig) (hostname : string + error)
  : list MainStep :=
  let g := Generic (cfgComponentConfig c) in
  if negb (LeaderElect (LeaderElection g)) then
    [RunDirectly NewControllerInitializers; Receive StopCh; Return None]
  else
    match hostname with
    | inr err => [Return (Some err)]
    | inl _ =>
        let leaderMigrator :=
          if leadermigration_Enabled g
          then Some (FilterFunc (LeaderMigration g) "firefly-controller-manager")
          else None in
        [GoLeaderElectAndRun MainLock
           (ResourceLock (LeaderElection g)) (ResourceName (LeaderElection g))
           (match leaderMigrator with
            | Some filterFunc =>
                createInitializersFunc filterFunc ControllerNonMigrated
            | None => NewControllerInitializers
            end)]
        ++ match leaderMigrator with
           | Some filterFunc =>
               [Receive MigrationReady;
                GoLeaderElectAndRun MigrationLock
                  (MigrationResourceLock (LeaderMigration g))
                  (MigrationLeaderName (LeaderMigration g))
                  (createInitializersFunc filterFunc ControllerMigrated)]
           | None => []
           end
        ++ [Receive StopCh; Return None]
    end%list.

(** [Run] runs the FireflyControllerManagerOptions: the steps of its
    goroutine, given the error of [c.SecureServing.Serve] and the result
    of [os.Hostname()]. *)
Definition Run (c : CompletedConfig) (serveErr : option error)
    (hostname : string + error) : list MainStep :=
  if cfgSecureServing c then
    match serveErr with
    | Some err => [Serve; Return (Some err)]
    | None => Serve :: Run_elect c hostname
    end
  else Run_elect c hostname.

(** What an observer sees of the main goroutine and of the channels. *)
Inductive MainEvent :=
  | Served
  | RanDirectly
  | ElectionStarted (lock : Lock)
  | Fired (s : Signal)
  | Received (s : Signal)
  | Returns (err : option error).

Record MainState := {
  remaining : list MainStep;
  fired : list Signal;
  history : list MainEvent
}.

Definition event_of (step : MainStep) : MainEvent :=
  match step with
  | Serve => Served
  | RunDirectly _ => RanDirectly
  | GoLeaderElectAndRun lock _ _ _ => ElectionStarted lock
  | Receive s => Received s
  | Return err => Returns err
  end.

(** A receive can only happen on a channel that has fired (was closed
    or sent on by another goroutine); every other step can always
    happen. *)
Definition enabled (step : MainStep) (fired : list Signal) : Prop :=
  match step with
  | Receive s => s ∈ fired
  | _ => True
  end.

(** Nothing is executed after a return. *)
Definition continuation (step : MainStep) (rest : list MainStep)
  : list MainStep :=
  match step with
  | Return _ => []
  | _ => rest
  end.

(** One step of the system: another goroutine fires a channel, or the
    main goroutine executes its next step. *)
Inductive main_step : MainState -> MainState -> Prop :=
  | step_fire s st :
      main_step st
        {| remaining := remaining st;
           fired := s :: fired st;
           history := (history st ++ [Fired s])%list |}
  | step_exec step rest f h :
      enabled step f ->
      main_step
        {| remaining := step :: rest; fired := f; history := h |}
        {| remaining := continuation step rest;
           fired := f;
           history := (h ++ [event_of step])%list |}.

Definition main_start (steps : list MainStep) : MainState :=
  {| remaining := steps; fired := []; history := [] |}.

End Run.

(** ** A small world for examples *)

(** A world with a list of random draws to come, the health of each API
    server, the discovery response of each cluster, and a log that
    controllers may write to. *)
Record TestWorld := {
  tw_draws : list float64;
  tw_health : ClusterId -> option error;
  tw_discovery : ClusterId -> DiscoveryResponse;
  tw_log : list string
}.

Definition tw_rand (w : TestWorld) : float64 * TestWorld :=
  match tw_draws w with
  | [] => (f64_zero, w)
  | r :: rest =>
      (r, {| tw_draws := rest; tw_health := tw_health w;
             tw_discovery := tw_discovery w; tw_log := tw_log w |})
  end.

Definition tw_write (line : string) (w : TestWorld) : TestWorld :=
  {| tw_draws := tw_draws w; tw_health := tw_health w;
     tw_discovery := tw_discovery w; tw_log := (tw_log w ++ [line])%list |}.

#[export] Instance TestPlatform : Platform TestWorld := {|
  rand_Float64 := tw_rand;
  WaitForAPIServer := fun client _ w => (tw_health w (ClientCluster client), w);
  ServerGroupsAndResources :=
    fun client w => (tw_discovery w (ClientCluster client), w);
  MapRange := fun V m => map_to_list m;
  MapRange_perm := fun V m => reflexivity (map_to_list m)
|}.

(** One resource list, as a healthy API server would return it. *)
Definition core_v1 : APIResourceList :=
  {| ListGroupVersion := "v1";
     APIResources := [ {| APIResourceName := "pods" |};
                       {| APIResourceName := "nodes" |} ] |}.

Definition apps_v1 : APIResourceList :=
  {| ListGroupVersion := "apps/v1";
     APIResources := [ {| APIResourceName := "deployments" |} ] |}.

Definition healthy_world : TestWorld :=
  {| tw_draws := [];
     tw_health := fun _ => None;
     tw_discovery := fun _ => ([core_v1; apps_v1], None);
     tw_log := [] |}.

Definition start_proc (w : TestWorld) : Proc TestWorld :=
  {| world := w; nextChan := 0; closedChans := ∅; healthzChecks := [] |}.

(** A configuration with every controller on (["*"]) except ["foo"]. *)
Definition test_generic (controllers : list string)
  : GenericControllerManagerConfiguration :=
  {| MinResyncPeriod := 12 * 3600 * Second;
     ControllerStartInterval := 0;
     Controllers := controllers;
     LeaderElection :=
       {| LeaderElect := true; ResourceLock := "leases";
          ResourceName := "firefly-karmada-manager";
          ResourceNamespace := "firefly-system" |};
     LeaderMigrationEnabled := true;
     LeaderMigration :=
       {| MigrationLeaderName := "firefly-migration";
          MigrationResourceLock := "leases";
          ControllerLeaders :=
            [ {| LeaderControllerName := "node"; LeaderComponent := "*" |} ] |} |}.

Definition test_config (controllers : list string) : CompletedConfig :=
  {| cfgComponentConfig := {| Generic := test_generic controllers |};
     cfgEstimatorNamespace := "firefly-system";
     cfgKarmadaName := "karmada";
     cfgSecureServing := false;
     cfgKarmadaKubeconfig := {| ConfigUsable := true |};
     cfgFireflyKubeconfig := {| ConfigUsable := true |} |}.

(** Initializers: one that starts a controller without capabilities,
    one with its own health checker, one that declines, one that
    fails.  Each writes its name to the log of the world. *)
Definition init_plain (name : string) : InitFunc TestWorld :=
  fun _ w =>
    (Some {| ControllerName := name; Debuggable := None;
             HealthCheckable := None |}, true, None, tw_write name w).

Definition init_checked (name : string) (check : UnnamedHealthChecker)
  : InitFunc TestWorld :=
  fun _ w =>
    (Some {| ControllerName := name; Debuggable := Some (Some 7%nat);
             HealthCheckable := Some (Some check) |}, true, None,
     tw_write name w).

Definition init_nil (name : string) : InitFunc TestWorld :=
  fun _ w => (None, true, None, tw_write name w).

Definition init_declines (name : string) : InitFunc TestWorld :=
  fun _ w => (None, false, None, tw_write name w).

Definition init_fails (name : string) (err : error) : InitFunc TestWorld :=
  fun _ w => (None, false, Some err, tw_write name w).

(** A controller context that carries the configuration only. *)
Definition test_context (controllers : list string) : ControllerContext TestWorld :=
  {| KarmadaClientBuilder := None;
     FireflyClientBuilder := None;
     KarmadaDynamicInformerFactory := None;
     KarmadaKubeInformerFactory := None;
     KarmadaFireflyInformerFactory := None;
     KarmadaInformerFactory := None;
     FireflyDynamicInformerFactory := None;
     FireflyKubeInformerFactory := None;
     FireflyInformerFactory := None;
     EstimatorNamespace := "";
     KarmadaName := "";
     ObjectOrMetadataInformerFactory := None;
     ComponentConfig := {| Generic := test_generic controllers |};
     RESTMapper_ := None;
     AvailableResources := None;
     HostClusterAvailableResources := None;
     InformersStarted := None;
     ResyncPeriod_ := None |}.

(** Three controllers: ["a"] starts and has its own health checker,
    ["b"] declines, ["d"] would start. *)
Definition three_controllers : gmap string (InitFunc TestWorld) :=
  <["a" := init_checked "a" 3%nat]>
    (<["b" := init_declines "b"]> (<["d" := init_plain "d"]> ∅)).

(** Three controllers, the second of which fails. *)
Definition failing_controllers : gmap string (InitFunc TestWorld) :=
  <["a" := init_plain "a"]>
    (<["b" := init_fails "b" (ErrExternal "boom")]>
       (<["d" := init_plain "d"]> ∅)).

(** A world whose host cluster serves nothing. *)
Definition broken_host_world : TestWorld :=
  {| tw_draws := [];
     tw_health := fun _ => None;
     tw_discovery :=
       fun cluster =>
         match cluster with
         | KarmadaCluster => ([core_v1], None)
         | HostCluster => ([], Some (ErrExternal "connection refused"))
         end;
     tw_log := [] |}.

(** The four controllers of the package, for the examples: the
    estimator and the node controller start, the foo controller starts
    with a nil handle, the kubean controller declines. *)
Definition test_initializers : ControllerInitializersFunc TestWorld :=
  NewControllerInitializers (init_plain "estimator") (init_checked "node" 3%nat)
    (init_nil "foo") (init_declines "kubean").

(** One leadership epoch in the healthy world, with ["foo"] disabled. *)
Definition test_epoch : Outcome unit * Proc TestWorld * list Event :=
  run (test_config ["*"; "-foo"])
    (createClientBuilders (test_config ["*"; "-foo"])).1
    (createClientBuilders (test_config ["*"; "-foo"])).2
    false test_initializers (start_proc healthy_world).

(** The steps of [Run] with leader election and leader migration, and
    the state of its main goroutine after the election for the
    migration lock was started. *)
Definition test_steps : list (MainStep (World := TestWorld)) :=
  Run (init_plain "estimator") (init_checked "node" 3%nat)
    (init_nil "foo") (init_declines "kubean")
    (test_config ["*"]) None (inl "host-1").

Definition migration_state : MainState (World := TestWorld) :=
  {| remaining := [Receive StopCh; Return None];
     fired := [MigrationReady];
     history := [ElectionStarted MainLock; Fired MigrationReady;
                 Received MigrationReady; ElectionStarted MigrationLock] |}.

(** Draws of the random source: one half, and the largest binary64
    number below 1, [1 - 2^-53], which is what [rand.Float64] returns
    when the 53 random bits it takes are all ones. *)
Definition draw_half : float64 := S754_finite false 4503599627370496 (-53).
Definition draw_last : float64 := S754_finite false 9007199254740991 (-53).

(** The healthy world with the given draws to come. *)
Definition drawing_world (draws : list float64) : TestWorld :=
  {| tw_draws := draws;
     tw_health := fun _ => None;
     tw_discovery := fun _ => ([core_v1; apps_v1], None);
     tw_log := [] |}.

(** The test configuration with the minimum resync period [d]. *)
Definition resync_config (d : Duration) : CompletedConfig :=
  {| cfgComponentConfig :=
       {| Generic :=
            {| MinResyncPeriod := d;
               ControllerStartInterval := 0;
               Controllers := ["*"];
               LeaderElection := LeaderElection (test_generic ["*"]);
               LeaderMigrationEnabled := false;
               LeaderMigration := LeaderMigration (test_generic ["*"]) |} |};
     cfgEstimatorNamespace := "firefly-system";
     cfgKarmadaName := "karmada";
     cfgSecureServing := false;
     cfgKarmadaKubeconfig := {| ConfigUsable := true |};
     cfgFireflyKubeconfig := {| ConfigUsable := true |} |}.

(** * Vocabulary of the properties *)

(** The resources a parsed list contributes. *)
Definition listed (version : GroupVersion) (resources : list APIResource)
  : list GroupVersionResource :=
  map (fun apiResource => WithResource version (APIResourceName apiResource))
    resources.

(** A map that only ever holds [true]. *)
Definition all_true (allResources : gmap GroupVersionResource bool) : Prop :=
  forall gvr, allResources !! gvr <> Some false.

(** [gvr] is served according to the lists of [resourceMap]. *)
Definition served (resourceMap : list APIResourceList)
    (gvr : GroupVersionResource) : Prop :=
  exists apiResourceList apiResource version,
    apiResourceList ∈ resourceMap /\
    apiResource ∈ APIResources apiResourceList /\
    ParseGroupVersion (ListGroupVersion apiResourceList) = inl version /\
    gvr = WithResource version (APIResourceName apiResource).

Definition malformed (apiResourceList : APIResourceList) : Prop :=
  exists err, ParseGroupVersion (ListGroupVersion apiResourceList) = inr err.

(** A resource list that names no resource. *)
Definition without_resources (apiResourceList : APIResourceList) : Prop :=
  APIResources apiResourceList = [].

(** The initializer calls and returns among the events, in order. *)
Definition calls_of (evs : list Event) : list string :=
  omap (fun e => match e with EvInitCalled name => Some name | _ => None end) evs.

Definition returns_of (evs : list Event) : list (string * InitResult) :=
  omap (fun e => match e with
                 | EvInitReturned name result => Some (name, result)
                 | _ => None
                 end) evs.

(** The check lists handed to the health handler, one per call. *)
Definition registrations_of (evs : list Event) : list (list HealthChecker) :=
  omap (fun e => match e with EvAddHealthChecker checks => Some checks | _ => None end)
    evs.

(** The health check a started controller contributes: its own checker
    under its name when the handle is there, is health-checkable and the
    checker is not nil, and the named ping check in every other case. *)
Inductive contributes (name : string) : option Controller -> HealthChecker -> Prop :=
  | contributes_own ctrl realCheck :
      HealthCheckable ctrl = Some (Some realCheck) ->
      contributes name (Some ctrl) (NamedHealthChecker name realCheck)
  | contributes_ping_nil :
      contributes name None (NamedPingChecker name)
  | contributes_ping_incapable ctrl :
      HealthCheckable ctrl = None ->
      contributes name (Some ctrl) (NamedPingChecker name)
  | contributes_ping_nil_checker ctrl :
      HealthCheckable ctrl = Some None ->
      contributes name (Some ctrl) (NamedPingChecker name).

(** The started ones among the initializer returns. *)
Definition started_of (evs : list Event) : list (string * InitResult) :=
  filter (fun nr => result_started nr.2 = true) (returns_of evs).

Section Vocabulary.
Context {World : Type} `{!Platform World}.
Implicit Types (p : Proc World) (controllerCtx : ControllerContext World).

(** The process state with another world. *)
Definition with_world (w : World) p : Proc World :=
  {| world := w; nextChan := nextChan p; closedChans := closedChans p;
     healthzChecks := healthzChecks p |}.

(** The result of a computation that runs after the events [evs]. *)
Definition after {A} (evs : list Event) (r : Outcome A * Proc World * list Event)
  : Outcome A * Proc World * list Event :=
  (r.1.1, r.1.2, (evs ++ r.2)%list).

(** The events of mounting the debug handler of a started controller. *)
Definition debug_events (controllerName : string) (ctrl : option Controller)
    (unsecuredMux : bool) : list Event :=
  match ctrl with
  | Some ctrl =>
      match Debuggable ctrl with
      | Some (Some debugHandler) =>
          if unsecuredMux then
            [EvUnlistedHandle ("/debug/controllers/" ++ controllerName) debugHandler;
             EvUnlistedHandlePrefix (("/debug/controllers/" ++ controllerName) ++ "/")
               debugHandler]
          else []
      | _ => []
      end
  | None => []
  end.

(** The names of the enabled entries, in the order of the list. *)
Definition enabled_names controllerCtx (controllers : list (string * InitFunc World))
  : list string :=
  filter (fun name => IsControllerEnabled controllerCtx name = true) controllers.*1.

(** The enabled entries, in the order of the list. *)
Definition enabled_entries controllerCtx (controllers : list (string * InitFunc World))
  : list (string * InitFunc World) :=
  filter (fun entry => IsControllerEnabled controllerCtx entry.1 = true) controllers.

(** The initializers of [entries] were invoked in turn, starting in the
    world [w]: each one for the context [controllerCtx], in the world
    that the one before it left behind (after the draw of the random
    source for the start jitter); [returns] holds, under the names of
    the entries, what the initializers gave back, and [w'] is the world
    that the last one left behind. *)
Fixpoint invoked_in_turn controllerCtx (entries : list (string * InitFunc World))
    (w : World) (returns : list (string * InitResult)) (w' : World) : Prop :=
  match entries, returns with
  | [], [] => w' = w
  | (name, initFn) :: entries, nr :: returns =>
      nr = (name, (initFn controllerCtx (rand_Float64 w).2).1) /\
      invoked_in_turn controllerCtx entries
        (initFn controllerCtx (rand_Float64 w).2).2 returns w'
  | _, _ => False
  end.

(** No initializer among the events returned an error. *)
Definition no_error (evs : list Event) : Prop :=
  Forall (fun nr => result_err nr.2 = None) (returns_of evs).

(** [checks] holds one check for each started controller among the
    events, in order, and it is the check that controller contributes. *)
Definition checks_match (evs : list Event) (checks : list HealthChecker) : Prop :=
  Forall2 (fun nr check => contributes nr.1 (result_controller nr.2) check)
    (started_of evs) checks.

(** The loop went through all entries: it returns the checks it was
    given followed by those of the started controllers. *)
Definition loop_completed controllerCtx (controllers : list (string * InitFunc World))
    (controllerChecks : list HealthChecker)
    (out : Outcome (list HealthChecker + error)) (evs : list Event) : Prop :=
  exists new,
    out = Returned (inl (controllerChecks ++ new)%list) /\
    no_error evs /\
    calls_of evs = enabled_names controllerCtx controllers /\
    (returns_of evs).*1 = enabled_names controllerCtx controllers /\
    checks_match evs new.

(** The loop ended at the entry [name], whose initializer returned
    [err]; the entries [before] it were processed without an error. *)
Definition loop_aborted controllerCtx (controllers : list (string * InitFunc World))
    (out : Outcome (list HealthChecker + error)) (evs : list Event) : Prop :=
  exists err before name (initFn : InitFunc World) rest evs0 result,
    out = Returned (inr err) /\
    controllers = (before ++ (name, initFn) :: rest)%list /\
    evs = (evs0 ++ [EvInitCalled name; EvInitReturned name result;
                    EvLog (LogErrorStarting name)])%list /\
    result_err result = Some err /\
    IsControllerEnabled controllerCtx name = true /\
    no_error evs0 /\
    calls_of evs0 = enabled_names controllerCtx before /\
    (returns_of evs0).*1 = enabled_names controllerCtx before.

End Vocabulary.

(** The informer factory in a field of the context. *)
Definition factory_of {World : Type} (c : ControllerContext World)
    (field : FactoryField) : option InformerFactory :=
  match field with
  | KarmadaDynamic => KarmadaDynamicInformerFactory c
  | KarmadaKube => KarmadaKubeInformerFactory c
  | Karmada => KarmadaInformerFactory c
  | KarmadaFirefly => KarmadaFireflyInformerFactory c
  | FireflyDynamic => FireflyDynamicInformerFactory c
  | FireflyKube => FireflyKubeInformerFactory c
  | Firefly => FireflyInformerFactory c
  | ObjectOrMetadata => ObjectOrMetadataInformerFactory c
  end.

(** Events of building the context: they are neither about controllers
    nor about informer factories or the gate. *)
Definition setup_event (e : Event) : bool :=
  match e with
  | EvHandleError _ | EvDiscovery _ _ | EvResetLoopStarted _ _ => true
  | _ => false
  end.

(** Events of starting the controllers. *)
Definition startup_event (e : Event) : bool :=
  match e with
  | EvLog _ | EvVerboseLog _ _ | EvSleep _ | EvInitCalled _ | EvInitReturned _ _
  | EvUnlistedHandle _ _ | EvUnlistedHandlePrefix _ _
  | EvAddHealthChecker _ => true
  | _ => false
  end.

(** Channels are closed only after they were made. *)
Definition channels_ok {World : Type} (p : Proc World) : Prop :=
  forall ch, ch ∈ closedChans p -> (ch < nextChan p)%nat.

(** The order in which [run] starts the informer factories, and the
    events of starting those of a context. *)
Definition start_order : list FactoryField :=
  [KarmadaDynamic; KarmadaKube; Karmada; KarmadaFirefly;
   FireflyDynamic; FireflyKube; Firefly; ObjectOrMetadata].

Definition factory_starts {World : Type} (c : ControllerContext World)
  : list Event :=
  omap (fun field => EvFactoryStart field <$> factory_of c field) start_order.

(** Every return of an initializer among the events comes right after
    the call of that initializer. *)
Definition called_then_returned (evs : list Event) : Prop :=
  forall k name result,
    evs !! k = Some (EvInitReturned name result) ->
    exists j, S j = k /\ evs !! j = Some (EvInitCalled name).

(** The main goroutine has received from [MigrationReady], after the
    channel fired. *)
Definition migration_ready (history : list MainEvent) : Prop :=
  exists j k,
    (j < k)%nat /\
    history !! j = Some (Fired MigrationReady) /\
    history !! k = Some (Received MigrationReady).

(** In the steps still to come, no election for the migration lock is
    started before a receive from [MigrationReady]. *)
Fixpoint guarded {World : Type} (steps : list (MainStep (World := World))) : bool :=
  match steps with
  | [] => true
  | Receive MigrationReady :: _ => true
  | GoLeaderElectAndRun MigrationLock _ _ _ :: _ => false
  | _ :: rest => guarded rest
  end.

(** What holds of every state the main goroutine reaches. *)
Definition main_invariant {World : Type} (st : MainState (World := World)) : Prop :=
  (forall i,
     history st !! i = Some (ElectionStarted MigrationLock) ->
     exists j k,
       (j < k < i)%nat /\
       history st !! j = Some (Fired MigrationReady) /\
       history st !! k = Some (Received MigrationReady)) /\
  (migration_ready (history st) \/ guarded (remaining st) = true) /\
  (forall s, s ∈ fired st -> exists j, history st !! j = Some (Fired s)).

(** A shift record has lost bits that were not zero. *)
Definition inexact (mrs : shr_record) : bool := shr_r mrs || shr_s mrs.

(** [f] shifts the mantissa of a record right by [k] bits: it divides
    the mantissa by [2 ^ k], and keeps the record exact when the bits
    shifted out are zero. *)
Definition shifts (k : Z) (f : shr_record -> shr_record) : Prop :=
  forall mrs,
    0 <= shr_m mrs ->
    0 <= shr_m (f mrs) /\
    shr_m (f mrs) = shr_m mrs / 2 ^ k /\
    (inexact mrs = false -> shr_m mrs mod 2 ^ k = 0 -> inexact (f mrs) = false).

(** A binary64 number from 1 to 2: a normal number with exponent -52, or
    2 itself. *)
Definition between_one_and_two (x : float64) : Prop :=
  exists m e,
    x = S754_finite false m e /\
    ((e = -52 /\ 2 ^ 52 <= Z.pos m < 2 ^ 53) \/ (e = -51 /\ Z.pos m = 2 ^ 52)).

(** The binary64 number [x] is the integer [d], exactly: a normal number
    [m * 2 ^ e] (compared after scaling by [2 ^ 52], so that the
    exponents are not negative). *)
Definition represents (x : float64) (d : Z) : Prop :=
  exists m e,
    x = S754_finite false m e /\
    -52 <= e <= 1 /\
    2 ^ 52 <= Z.pos m < 2 ^ 53 /\
    Z.pos m * 2 ^ (e + 52) = d * 2 ^ 52.

(** ** More vocabulary and examples *)

(** The debug handlers mounted on the unsecured mux, with their paths:
    those mounted at a path, and those mounted at a path prefix. *)
Definition mounts_of (evs : list Event) : list (string * Handler) :=
  omap (fun e => match e with
                 | EvUnlistedHandle path h => Some (path, h)
                 | _ => None
                 end) evs.

Definition prefix_mounts_of (evs : list Event) : list (string * Handler) :=
  omap (fun e => match e with
                 | EvUnlistedHandlePrefix path h => Some (path, h)
                 | _ => None
                 end) evs.

(** A handler mounted at a path is mounted at the prefix of that path
    right after. *)
Definition mounted_in_pairs (evs : list Event) : Prop :=
  forall i path h,
    evs !! i = Some (EvUnlistedHandle path h) ->
    evs !! S i = Some (EvUnlistedHandlePrefix (path ++ "/") h).

(** The durations slept, in order. *)
Definition sleeps_of (evs : list Event) : list Duration :=
  omap (fun e => match e with EvSleep d => Some d | _ => None end) evs.

(** The lines logged without a level, which are always written; the
    lines logged at a level, with their levels; and the lines written
    when the verbosity in effect is [verbosity]. *)
Definition log_of (evs : list Event) : list LogLine :=
  omap (fun e => match e with EvLog line => Some line | _ => None end) evs.

Definition verbose_log_of (evs : list Event) : list (Z * LogLine) :=
  omap (fun e => match e with
                 | EvVerboseLog level line => Some (level, line)
                 | _ => None
                 end) evs.

Definition written_at (verbosity : Z) (evs : list Event) : list LogLine :=
  omap (fun e => match e with
                 | EvLog line => Some line
                 | EvVerboseLog level line =>
                     if level <=? verbosity then Some line else None
                 | _ => None
                 end) evs.

(** Every initializer call among the events comes right after a sleep
    and the "Starting" line of the controller, which is logged at
    level 1. *)
Definition slept_and_announced (evs : list Event) : Prop :=
  forall k name,
    evs !! k = Some (EvInitCalled name) ->
    exists j d,
      k = S (S j) /\
      evs !! j = Some (EvSleep d) /\
      evs !! S j = Some (EvVerboseLog 1 (LogStarting name)).

(** The debugging handler of a controller handle, when the handle is
    there, is [controller.Debuggable] and gives a handler. *)
Definition debug_handler (ctrl : option Controller) : option Handler :=
  match ctrl with
  | Some ctrl =>
      match Debuggable ctrl with
      | Some (Some debugHandler) => Some debugHandler
      | _ => None
      end
  | None => None
  end.

(** The initializer returns without an error that report the
    controller as started. *)
Definition launched_of (evs : list Event) : list (string * InitResult) :=
  filter (fun nr => result_err nr.2 = None /\ result_started nr.2 = true)
    (returns_of evs).

(** The log line for what came of an initializer, and the log lines
    for a disabled controller. *)
Definition line_of_return (nr : string * InitResult) : LogLine :=
  match result_err nr.2 with
  | Some _ => LogErrorStarting nr.1
  | None => if result_started nr.2 then LogStarted nr.1 else LogSkipping nr.1
  end.

Definition is_disabled_line (line : LogLine) : bool :=
  match line with LogDisabled _ => true | _ => false end.

(** The clients an informer factory was made for, and the default
    resync periods it was given. *)
Fixpoint factory_clients (factory : InformerFactory) : list Client :=
  match factory with
  | NewSharedInformerFactory client _ => [client]
  | NewFilteredSharedInformerFactory client _ _ => [client]
  | NewInformerFactory typed metadata =>
      (factory_clients typed ++ factory_clients metadata)%list
  end.

Fixpoint factory_resyncs (factory : InformerFactory) : list Duration :=
  match factory with
  | NewSharedInformerFactory _ defaultResync => [defaultResync]
  | NewFilteredSharedInformerFactory _ defaultResync _ => [defaultResync]
  | NewInformerFactory typed metadata =>
      (factory_resyncs typed ++ factory_resyncs metadata)%list
  end.

(** The cluster a factory field of the context is about: the host
    cluster for the three firefly fields, the karmada cluster for the
    others. *)
Definition field_cluster (karmadaClientBuilder fireflyKubeClientBuilder : ClientBuilder)
    (field : FactoryField) : ClusterId :=
  match field with
  | FireflyDynamic | FireflyKube | Firefly => BuilderCluster fireflyKubeClientBuilder
  | _ => BuilderCluster karmadaClientBuilder
  end.

(** The client [GetKarmadaAvailableResources] and
    [GetHostClusterAvailableResources] take from a builder, and the
    events of one discovery: the call with its response, and the
    discovery error handed to the error handler when there is one. *)
Definition discovery_client (clientBuilder : ClientBuilder) : Client :=
  {| ClientCluster := BuilderCluster clientBuilder; Shape := KubeClient;
     UserAgent := "controller-discovery" |}.

Definition discovery_events (clientBuilder : ClientBuilder)
    (response : DiscoveryResponse) : list Event :=
  EvDiscovery (discovery_client clientBuilder) response
  :: match response.2 with
     | Some err => [EvHandleError err]
     | None => []
     end.

(** The REST mapper [CreateControllerContext] makes from a builder. *)
Definition rest_mapper (clientBuilder : ClientBuilder) : RESTMapper :=
  {| MapperClient :=
       {| ClientCluster := BuilderCluster clientBuilder; Shape := DiscoveryClient;
          UserAgent := "firelfy-controller-discovery" |} |}.

(** The context a call of [CreateControllerContext] came back with. *)
Definition returned_context {World : Type}
    (out : Outcome (ControllerContext World * option error))
  : ControllerContext World :=
  match out with
  | Returned (controllerCtx, _) => controllerCtx
  | _ => zero_ControllerContext
  end.

Definition returned_without_error {World : Type}
    (out : Outcome (ControllerContext World * option error)) : bool :=
  match out with
  | Returned (_, None) => true
  | _ => false
  end.

(** A world whose karmada API server does not get healthy. *)
Definition unhealthy_karmada_world : TestWorld :=
  {| tw_draws := [];
     tw_health :=
       fun cluster =>
         match cluster with
         | KarmadaCluster => Some (ErrExternal "timed out")
         | HostCluster => None
         end;
     tw_discovery := fun _ => ([core_v1; apps_v1], None);
     tw_log := [] |}.

(** A world whose random source gives 0 and one half in turn, with
    healthy API servers that serve the core group. *)
Record SteadyWorld := { sw_ticks : nat }.

#[export] Instance SteadyPlatform : Platform SteadyWorld := {|
  rand_Float64 :=
    fun w => (if Nat.even (sw_ticks w) then f64_zero else draw_half,
              {| sw_ticks := S (sw_ticks w) |});
  WaitForAPIServer := fun _ _ w => (None, w);
  ServerGroupsAndResources := fun _ w => (([core_v1], None), w);
  MapRange := fun V m => map_to_list m;
  MapRange_perm := fun V m => reflexivity (map_to_list m)
|}.

Definition steady_proc : Proc SteadyWorld :=
  {| world := {| sw_ticks := 0 |}; nextChan := 0; closedChans := ∅;
     healthzChecks := [] |}.

(** The events of the main goroutine in a history, without the firings
    of channels, which other goroutines cause. *)
Definition is_fired (e : MainEvent) : bool :=
  match e with
  | Fired _ => true
  | _ => false
  end.

Definition executed (history : list MainEvent) : list MainEvent :=
  filter (fun e => is_fired e = false) history.

(** What holds of every state the main goroutine reaches from the start
    of [steps]: it has executed a part of [steps] from the front, in order; the
    rest is still to come, unless it has returned; and it has received
    from a channel only when the channel had fired. *)
Definition on_track {World : Type} (steps : list (MainStep (World := World)))
    (st : MainState (World := World)) : Prop :=
  (exists done rest,
     steps = (done ++ rest)%list /\
     executed (history st) = event_of <$> done /\
     (remaining st = rest \/
      (remaining st = [] /\ exists err, last done = Some (Return err)))) /\
  (forall s, Received s ∈ history st -> Fired s ∈ history st) /\
  (forall s, s ∈ fired st -> Fired s ∈ history st).

(** The state of the main goroutine of the example after it has
    returned: the stop channel fired, the goroutine received from it
    and returned nil. *)
Definition stopped_state : MainState (World := TestWorld) :=
  {| remaining := [];
     fired := [StopCh; MigrationReady];
     history := [ElectionStarted MainLock; Fired MigrationReady;
                 Received MigrationReady; ElectionStarted MigrationLock;
                 Fired StopCh; Received StopCh; Returns None] |}.

(** ** The known controllers *)

(** [sets.StringKeySet(m).List()]: the keys of a map, in the order of
    Go's [<] on strings, which compares byte by byte. *)
Definition string_le (a b : string) : Prop := String.leb a b = true.

Global Instance string_le_dec a b : Decision (string_le a b).
Proof. unfold string_le. apply _. Defined.

Section KnownControllers.
Context {World : Type} `{!Platform World}.
Variables startEstimatorController startNodeController
  startFooController startKubeanController : InitFunc World.

Definition StringKeySet_List {V : Type} (m : gmap string V) : list string :=
  merge_sort string_le (MapRange m).*1.

(** [KnownControllers] returns all known controllers's name. *)
Definition KnownControllers : list string :=
  StringKeySet_List
    (NewControllerInitializers startEstimatorController startNodeController
       startFooController startKubeanController ()).

End KnownControllers.

(** * Properties *)

(** ** The argument validator *)

Lemma length_zero_empty (s : string) :
  (0 <? String.length s)%nat = false <-> s = "".
Proof.
  destruct s as [|c s]; simpl; split; intros H; try done.
Qed.

Lemma Args_range_accepts commandPath args rest :
  Args_range commandPath args rest = None <-> Forall (fun arg => arg = "") rest.
Proof.
  induction rest as [|arg rest IH]; simpl.
  - split; [constructor | done].
  - destruct (0 <? String.length arg)%nat eqn:Hlen.
    + split; [done |]. intros Hall. apply Forall_cons in Hall as [Harg _].
      apply length_zero_empty in Harg. congruence.
    + apply length_zero_empty in Hlen. rewrite IH, Forall_cons. tauto.
Qed.

Lemma Args_range_rejects commandPath args rest err :
  Args_range commandPath args rest = Some err ->
  err = ErrNoArguments commandPath args.
Proof.
  induction rest as [|arg rest IH]; simpl; [done |].
  destruct (0 <? String.length arg)%nat; [congruence | done].
Qed.

(** C9, as the code has it: the validator returns nil exactly when every
    argument is the empty string (in particular when there is none), and
    otherwise, that is when some argument is not empty, it returns the
    error that names the command and the whole argument list. *)
Theorem Args_rejects_nonempty_arguments (commandPath : string) (args : list string) :
  (Args commandPath args = None <-> Forall (fun arg => arg = "") args) /\
  (Args commandPath args = Some (ErrNoArguments commandPath args) <->
   Exists (fun arg => arg <> "") args).
Proof.
  split; [apply Args_range_accepts |].
  unfold Args. split.
  - intros Hargs. apply (not_Forall_Exists (fun arg => arg = "")).
    rewrite <- (Args_range_accepts commandPath args args). congruence.
  - intros Hex. destruct (Args_range commandPath args args) as [err|] eqn:Hargs.
    + by apply Args_range_rejects in Hargs as ->.
    + apply Args_range_accepts in Hargs.
      by apply (Exists_not_Forall (fun arg => arg = "")) in Hex.
Qed.

(** C9 fails as stated: an argument list that is not empty, holding one
    empty string, passes the validator. *)
Lemma Args_accepts_empty_string :
  [""] <> ([] : list string) /\ Args CommandPath [""] = None.
Proof. split; [discriminate | reflexivity]. Qed.

(** ** Clusterpedia internal storage *)

(** C10: [EnsureInternalStorage] returns what [EnsurePostgres] returns
    when the Postgres section and its Local section are both there,
    whatever the MySQL section is; else what [EnsureMySQL] returns when
    the MySQL section and its Local section are both there; and else,
    also when a section is there without its Local part, the "unknown
    storage type" error, leaving the cluster as it was. *)
Theorem EnsureInternalStorage_dispatch
    {LocalPostgres LocalMySQL Cluster : Type}
    (EnsurePostgres EnsureMySQL :
       Clusterpedia LocalPostgres LocalMySQL -> Cluster -> option error * Cluster)
    (clusterpedia : Clusterpedia LocalPostgres LocalMySQL) (w : Cluster) :
  let storage := SpecStorage (Spec clusterpedia) in
  let postgres := exists pg l, StoragePostgres storage = Some pg /\ PostgresLocal pg = Some l in
  let mysql := exists my l, StorageMySQL storage = Some my /\ MySQLLocal my = Some l in
  (postgres ->
   EnsureInternalStorage EnsurePostgres EnsureMySQL clusterpedia w
   = EnsurePostgres clusterpedia w) /\
  (~ postgres -> mysql ->
   EnsureInternalStorage EnsurePostgres EnsureMySQL clusterpedia w
   = EnsureMySQL clusterpedia w) /\
  (~ postgres -> ~ mysql ->
   EnsureInternalStorage EnsurePostgres EnsureMySQL clusterpedia w
   = (Some ErrUnknownStorageType, w)).
Proof.
  intros storage postgres mysql. subst postgres mysql storage.
  unfold EnsureInternalStorage, postgres_local, mysql_local.
  destruct (StoragePostgres _) as [[[l|]]|];
    destruct (StorageMySQL _) as [[[l'|]]|]; simpl;
    repeat split; try done; intros;
    try match goal with
        | H : ex _ |- _ => by destruct H as (? & ? & ? & ?); simplify_eq/=
        end;
    match goal with
    | H : ~ ex _ |- _ => by exfalso; apply H; eauto
    end.
Qed.

(** ** Discovery *)

Lemma mark_resources_lookup version resources allResources gvr :
  mark_resources version resources allResources !! gvr
  = if decide (gvr ∈ listed version resources) then Some true
    else allResources !! gvr.
Proof.
  revert allResources.
  induction resources as [|apiResource rest IH]; intros allResources.
  - cbn [mark_resources listed map]. by rewrite decide_False by apply not_elem_of_nil.
  - cbn [mark_resources]. rewrite IH. unfold listed. cbn [map].
    destruct (decide (gvr ∈ map _ rest)) as [Hin|Hnotin].
    + by rewrite decide_True by (by right).
    + destruct (decide (gvr = WithResource version (APIResourceName apiResource)))
        as [->|Hne].
      * rewrite decide_True by left. apply lookup_insert_eq.
      * rewrite decide_False by (rewrite elem_of_cons; tauto).
        by rewrite lookup_insert_ne.
Qed.

Lemma collect_resources_fails resourceMap allResources :
  (exists err, collect_resources resourceMap allResources = inr err)
  <-> Exists malformed resourceMap.
Proof.
  revert allResources.
  induction resourceMap as [|apiResourceList rest IH]; intros allResources; simpl.
  - rewrite Exists_nil. split; [intros [? ?]; done | done].
  - rewrite Exists_cons. unfold malformed at 1.
    destruct (ParseGroupVersion _) as [version|err].
    + rewrite IH. split; [tauto | intros [[? ?]|?]; done].
    + split; eauto.
Qed.

Lemma collect_resources_lookup resourceMap allResources result gvr :
  collect_resources resourceMap allResources = inl result ->
  (result !! gvr = Some true
   <-> served resourceMap gvr \/ allResources !! gvr = Some true) /\
  (all_true allResources -> result !! gvr <> Some false).
Proof.
  revert allResources.
  induction resourceMap as [|apiResourceList rest IH]; intros allResources; simpl.
  - intros [= <-]. split; [| by intros Hall].
    split; [tauto |]. intros [(? & ? & ? & Hin & _)|?]; [| done].
    by apply not_elem_of_nil in Hin.
  - destruct (ParseGroupVersion _) as [version|err] eqn:Hparse; [| done].
    intros Hrest. apply IH in Hrest as [Hlookup Htrue]. split.
    + rewrite Hlookup, mark_resources_lookup. unfold served. split.
      * intros [(l & r & v & Hl & Hr & Hv & ->)|Hmark].
        { left. exists l, r, v. rewrite elem_of_cons. tauto. }
        destruct (decide _) as [Hin|_]; [| tauto].
        left. unfold listed in Hin. apply list_elem_of_fmap in Hin as (r & -> & Hr).
        exists apiResourceList, r, version. rewrite elem_of_cons. tauto.
      * intros [(l & r & v & Hl & Hr & Hv & ->)|Hold].
        { apply elem_of_cons in Hl as [->|Hl].
          - right. rewrite decide_True; [done |].
            rewrite Hparse in Hv. injection Hv as <-.
            unfold listed. apply list_elem_of_fmap. eauto.
          - left. exists l, r, v. tauto. }
        right. by destruct (decide _).
    + intros Hall. apply Htrue. intros k. rewrite mark_resources_lookup.
      destruct (decide _); [done | apply Hall].
Qed.

Lemma collect_resources_without_resources resourceMap allResources :
  Forall (fun l => ~ malformed l /\ without_resources l) resourceMap ->
  collect_resources resourceMap allResources = inl allResources.
Proof.
  induction 1 as [|apiResourceList rest [Hparse Hnone] _ IH]; [done |].
  cbn [collect_resources]. unfold malformed in Hparse.
  destruct (ParseGroupVersion _) as [version|err]; [| exfalso; eauto].
  by rewrite Hnone.
Qed.

Lemma collect_resources_empty resourceMap :
  collect_resources resourceMap ∅ = inl ∅ ->
  Forall (fun l => ~ malformed l /\ without_resources l) resourceMap.
Proof.
  intros Hresult. apply Forall_forall. intros apiResourceList Hin.
  assert (Hparses : ~ malformed apiResourceList).
  { intros Hbad.
    assert (Hfails : exists err, collect_resources resourceMap ∅ = inr err).
    { apply collect_resources_fails, Exists_exists. eauto. }
    destruct Hfails as [err Hfails]. congruence. }
  split; [exact Hparses |].
  unfold without_resources.
  destruct (APIResources apiResourceList) as [|apiResource rest] eqn:Hresources;
    [done |].
  exfalso. unfold malformed in Hparses.
  destruct (ParseGroupVersion (ListGroupVersion apiResourceList))
    as [version|err] eqn:Hparse; [| eauto].
  pose proof (collect_resources_lookup _ _ _
                (WithResource version (APIResourceName apiResource)) Hresult)
    as [Hlookup _].
  rewrite lookup_empty in Hlookup.
  assert (Hnone : @None bool = Some true); [| discriminate Hnone].
  apply Hlookup. left. exists apiResourceList, apiResource, version.
  rewrite Hresources. split_and!; [done | by left | done | done].
Qed.

(** C2, as the code has it: [GetAvailableResources] returns an error
    exactly when the discovery client returned no resource list or one
    of the returned lists has a group version that does not parse.  With
    no list the error is the "unable to get any supported resources"
    one.  An error of the discovery client itself is only handed to the
    error handler: when at least one list came back and all group
    versions parse, the call succeeds, and the map it returns holds
    [true] for exactly the group-version-resources of the returned lists
    and [false] for none.  The test is on the number of lists, not on
    the number of resources: the call succeeds with an empty map exactly
    when at least one list came back, all group versions parse and no
    list names a resource. *)
Theorem GetAvailableResources_errors_and_result
    (resourceMap : list APIResourceList) (err : option error) :
  let response := (resourceMap, err) in
  (GetAvailableResources response).2 = err /\
  ((exists e, (GetAvailableResources response).1 = inr e)
   <-> resourceMap = [] \/ Exists malformed resourceMap) /\
  (resourceMap = [] ->
   (GetAvailableResources response).1 = inr ErrNoSupportedResources) /\
  (forall allResources,
     (GetAvailableResources response).1 = inl allResources ->
     forall gvr,
       (allResources !! gvr = Some true <-> served resourceMap gvr) /\
       allResources !! gvr <> Some false) /\
  ((GetAvailableResources response).1 = inl ∅
   <-> resourceMap <> [] /\
       Forall (fun l => ~ malformed l /\ without_resources l) resourceMap).
Proof.
  unfold GetAvailableResources. simpl.
  destruct resourceMap as [|apiResourceList rest].
  - simpl. split; [done |].
    split; [split; [intros _; by left | intros _; eauto] |].
    split; [done |]. split; [done |].
    split; [done | by intros [? _]].
  - change (length (apiResourceList :: rest) =? 0)%nat with false. cbv iota.
    cbn [fst snd]. split_and!; try done.
    + split.
      * intros H. right. by apply collect_resources_fails in H.
      * intros [H|H]; [done |]. by apply collect_resources_fails.
    + intros allResources H gvr. split; [split |].
      * intros Hlookup.
        eapply collect_resources_lookup in H as [Hiff _]. apply Hiff in Hlookup.
        destruct Hlookup as [Hs|Hs]; [done | by rewrite lookup_empty in Hs].
      * intros Hs. eapply collect_resources_lookup in H as [-> _]. by left.
      * eapply collect_resources_lookup in H as [_ Hall]. apply Hall.
        intros k. by rewrite lookup_empty.
    + split.
      * intros Hresult. split; [done |]. by apply collect_resources_empty.
      * intros [_ Hall]. by apply collect_resources_without_resources.
Qed.

(** C2 fails as stated, in both directions.  The discovery client
    returns one resource list that names a resource, without an error,
    and the call fails all the same, because the group version of the
    list has two slashes.  And the discovery client returns two lists
    that name no resource, so that there are zero resources across all
    groups, and the call succeeds with an empty map. *)
Lemma GetAvailableResources_differs_in_both_directions :
  ([ {| ListGroupVersion := "a/b/c";
        APIResources := [ {| APIResourceName := "pods" |} ] |} ] <> [] /\
   (GetAvailableResources
      ([ {| ListGroupVersion := "a/b/c";
            APIResources := [ {| APIResourceName := "pods" |} ] |} ], None)).1
   = inr (ErrUnexpectedGroupVersion "a/b/c")) /\
  (Forall without_resources
     [ {| ListGroupVersion := "v1"; APIResources := [] |};
       {| ListGroupVersion := "apps/v1"; APIResources := [] |} ] /\
   GetAvailableResources
     ([ {| ListGroupVersion := "v1"; APIResources := [] |};
        {| ListGroupVersion := "apps/v1"; APIResources := [] |} ], None)
   = (inl ∅, None)).
Proof.
  split; [split; [discriminate | reflexivity] |].
  split; [by repeat constructor | reflexivity].
Qed.


(** ** Starting the controllers *)

Section StartControllers.
Context {World : Type} `{!Platform World}.
Implicit Types (p : Proc World) (controllerCtx : ControllerContext World).

Lemma StartControllers_range_cons controllerCtx unsecuredMux controllerName
    (initFn : InitFunc World) rest controllerChecks p :
  StartControllers_range controllerCtx unsecuredMux
    ((controllerName, initFn) :: rest) controllerChecks p
  = if IsControllerEnabled controllerCtx controllerName then
      let '(r, w1) := rand_Float64 (world p) in
      let '(result, w2) := initFn controllerCtx w1 in
      let evs :=
        [EvSleep (Jitter_at
                    (ControllerStartInterval (Generic (ComponentConfig controllerCtx)))
                    ControllerStartJitter r);
         EvVerboseLog 1 (LogStarting controllerName);
         EvInitCalled controllerName;
         EvInitReturned controllerName result] in
      match result_err result with
      | Some err =>
          (Returned (inr err), with_world w2 p,
           (evs ++ [EvLog (LogErrorStarting controllerName)])%list)
      | None =>
          if result_started result then
            after (evs ++ debug_events controllerName (result_controller result)
                            unsecuredMux
                       ++ [EvLog (LogStarted controllerName)])%list
              (StartControllers_range controllerCtx unsecuredMux rest
                 (controllerChecks
                    ++ [controller_check controllerName (result_controller result)])%list
                 (with_world w2 p))
          else
            after (evs ++ [EvLog (LogSkipping controllerName)])%list
              (StartControllers_range controllerCtx unsecuredMux rest
                 controllerChecks (with_world w2 p))
      end
    else
      after [EvLog (LogDisabled controllerName)]
        (StartControllers_range controllerCtx unsecuredMux rest controllerChecks p).
Proof.
  cbn [StartControllers_range].
  destruct (IsControllerEnabled controllerCtx controllerName); cbn [negb].
  - unfold bind, call, emit, after.
    destruct (rand_Float64 (world p)) as [r w1]. cbn [world].
    destruct (initFn controllerCtx w1) as [[[ctrl started] err] w2].
    unfold result_err, result_started, result_controller. cbn [fst snd].
    destruct err as [err|].
    + unfold ret. reflexivity.
    + destruct started; cbn [negb].
      * unfold debug_events, with_world.
        destruct ctrl as [c|];
          [unfold mount_debug; destruct (Debuggable c) as [[h|]|];
           destruct unsecuredMux |];
          simpl;
          match goal with
          | |- context [StartControllers_range ?a ?b rest ?c ?d] =>
              destruct (StartControllers_range a b rest c d) as [[o p'] evs']
          end; simpl; rewrite ?app_nil_r; reflexivity.
      * unfold with_world. simpl.
        match goal with
        | |- context [StartControllers_range ?a ?b rest ?c ?d] =>
            destruct (StartControllers_range a b rest c d) as [[o p'] evs']
        end; reflexivity.
  - unfold bind, emit, after.
    destruct (StartControllers_range _ _ rest _ _) as [[o p'] evs']. reflexivity.
Qed.

Lemma calls_of_app evs1 evs2 : calls_of (evs1 ++ evs2) = (calls_of evs1 ++ calls_of evs2)%list.
Proof. apply omap_app. Qed.

Lemma returns_of_app evs1 evs2 :
  returns_of (evs1 ++ evs2) = (returns_of evs1 ++ returns_of evs2)%list.
Proof. apply omap_app. Qed.

Lemma registrations_of_app evs1 evs2 :
  registrations_of (evs1 ++ evs2)
  = (registrations_of evs1 ++ registrations_of evs2)%list.
Proof. apply omap_app. Qed.

Lemma started_of_app evs1 evs2 :
  started_of (evs1 ++ evs2) = (started_of evs1 ++ started_of evs2)%list.
Proof. unfold started_of. by rewrite returns_of_app, filter_app. Qed.

Lemma debug_events_silent controllerName ctrl unsecuredMux :
  calls_of (debug_events controllerName ctrl unsecuredMux) = [] /\
  returns_of (debug_events controllerName ctrl unsecuredMux) = [] /\
  registrations_of (debug_events controllerName ctrl unsecuredMux) = [].
Proof.
  unfold debug_events.
  destruct ctrl as [ctrl|]; [| done].
  destruct (Debuggable ctrl) as [[h|]|]; [| done | done].
  by destruct unsecuredMux.
Qed.

Lemma controller_check_contributes controllerName ctrl :
  contributes controllerName ctrl (controller_check controllerName ctrl).
Proof.
  unfold controller_check. destruct ctrl as [ctrl|]; [| constructor].
  destruct (HealthCheckable ctrl) as [[realCheck|]|] eqn:Hcheck;
    by constructor.
Qed.

(** What the events of one iteration add in front of the rest of the
    loop. *)
Lemma loop_completed_after controllerCtx controllerName (initFn : InitFunc World)
    rest controllerChecks new0 pre out evs :
  calls_of pre
  = filter (fun name => IsControllerEnabled controllerCtx name = true) [controllerName] ->
  (returns_of pre).*1 = calls_of pre ->
  no_error pre ->
  checks_match pre new0 ->
  loop_completed controllerCtx rest (controllerChecks ++ new0)%list out evs ->
  loop_completed controllerCtx ((controllerName, initFn) :: rest) controllerChecks
    out (pre ++ evs)%list.
Proof.
  intros Hcalls Hreturns Hok Hnew0 (new & -> & Hok' & Hcalls' & Hreturns' & Hnew).
  exists (new0 ++ new)%list. unfold no_error, checks_match, enabled_names in *.
  rewrite calls_of_app, returns_of_app, started_of_app, fmap_app.
  rewrite Hreturns, Hcalls, Hcalls', Hreturns'.
  change ((controllerName, initFn) :: rest) with ([(controllerName, initFn)] ++ rest)%list.
  rewrite fmap_app, filter_app, <- app_assoc.
  repeat split; try done.
  - by apply Forall_app.
  - by apply Forall2_app.
Qed.

Lemma loop_aborted_after controllerCtx controllerName (initFn : InitFunc World)
    rest pre out evs :
  calls_of pre
  = filter (fun name => IsControllerEnabled controllerCtx name = true) [controllerName] ->
  (returns_of pre).*1 = calls_of pre ->
  no_error pre ->
  loop_aborted controllerCtx rest out evs ->
  loop_aborted controllerCtx ((controllerName, initFn) :: rest) out (pre ++ evs)%list.
Proof.
  intros Hcalls Hreturns Hok
    (err & before & name & initFn' & rest' & evs0 & result
     & -> & -> & -> & Herr & Hen & Hok' & Hcalls' & Hreturns').
  exists err, ((controllerName, initFn) :: before), name, initFn', rest',
    (pre ++ evs0)%list, result.
  unfold no_error, enabled_names in *.
  rewrite calls_of_app, returns_of_app, fmap_app, Hreturns, Hcalls, Hcalls', Hreturns'.
  change ((controllerName, initFn) :: before)
    with ([(controllerName, initFn)] ++ before)%list.
  rewrite fmap_app, filter_app, <- !app_assoc.
  repeat split; try done. by apply Forall_app.
Qed.

Lemma after_inv {A} pre (r : Outcome A * Proc World * list Event) out p' evs :
  after pre r = (out, p', evs) ->
  exists evs', r = (out, p', evs') /\ evs = (pre ++ evs')%list.
Proof. destruct r as [[o q] evs']. intros [= <- <- <-]. eauto. Qed.

Lemma StartControllers_range_spec controllerCtx unsecuredMux controllers :
  forall controllerChecks p out p' evs,
    StartControllers_range controllerCtx unsecuredMux controllers controllerChecks p
    = (out, p', evs) ->
    nextChan p' = nextChan p /\
    closedChans p' = closedChans p /\
    healthzChecks p' = healthzChecks p /\
    registrations_of evs = [] /\
    (loop_completed controllerCtx controllers controllerChecks out evs \/
     loop_aborted controllerCtx controllers out evs).
Proof.
  induction controllers as [|[controllerName initFn] rest IH];
    intros controllerChecks p out p' evs.
  - intros [= <- <- <-]. repeat split; try done. left.
    exists []. rewrite app_nil_r. repeat split; try done; constructor.
  - rewrite StartControllers_range_cons.
    destruct (IsControllerEnabled controllerCtx controllerName) eqn:Hen.
    + destruct (rand_Float64 (world p)) as [r w1].
      destruct (initFn controllerCtx w1) as [result w2].
      destruct (result_err result) as [err|] eqn:Herr.
      * intros [= <- <- <-]. repeat split; try done. right.
        exists err, [], controllerName, initFn, rest.
        eexists [_; _], result. repeat split; try done. constructor.
      * destruct (debug_events_silent controllerName (result_controller result)
                    unsecuredMux) as (Hdc & Hdr & Hdg).
        destruct (result_started result) eqn:Hstarted;
          intros (evs' & Hrest & ->)%after_inv;
          apply IH in Hrest as (Hn & Hc & Hh & Hg & Hloop);
          (split; [done |]); (split; [done |]); (split; [done |]); split.
        -- rewrite !registrations_of_app, Hg, Hdg. done.
        -- destruct Hloop as [Hloop|Hloop]; [left | right].
           ++ eapply loop_completed_after; [..|exact Hloop].
              ** rewrite !calls_of_app, Hdc. cbn. by rewrite Hen.
              ** rewrite !calls_of_app, !returns_of_app, Hdc, Hdr. done.
              ** unfold no_error. rewrite !returns_of_app, Hdr. cbn.
                 by repeat constructor.
              ** unfold checks_match, started_of.
                 rewrite !returns_of_app, Hdr. cbn.
                 rewrite decide_True by done.
                 repeat constructor. apply controller_check_contributes.
           ++ eapply loop_aborted_after; [..|exact Hloop].
              ** rewrite !calls_of_app, Hdc. cbn. by rewrite Hen.
              ** rewrite !calls_of_app, !returns_of_app, Hdc, Hdr. done.
              ** unfold no_error. rewrite !returns_of_app, Hdr. cbn.
                 by repeat constructor.
        -- rewrite !registrations_of_app, Hg. done.
        -- destruct Hloop as [Hloop|Hloop]; [left | right].
           ++ eapply (loop_completed_after _ _ _ _ _ []);
                [..|rewrite app_nil_r; exact Hloop].
              ** cbn. by rewrite Hen.
              ** done.
              ** unfold no_error. cbn. by repeat constructor.
              ** unfold checks_match, started_of. cbn.
                 rewrite decide_False by congruence. constructor.
           ++ eapply loop_aborted_after; [..|exact Hloop].
              ** cbn. by rewrite Hen.
              ** done.
              ** unfold no_error. cbn. by repeat constructor.
    + intros (evs' & Hrest & ->)%after_inv.
      apply IH in Hrest as (Hn & Hc & Hh & Hg & Hloop). repeat split; try done.
      destruct Hloop as [Hloop|Hloop]; [left | right].
      * eapply (loop_completed_after _ _ _ _ _ []);
          [..|rewrite app_nil_r; exact Hloop].
        -- cbn. by rewrite Hen.
        -- done.
        -- constructor.
        -- constructor.
      * eapply loop_aborted_after; [..|exact Hloop].
        -- cbn. by rewrite Hen.
        -- done.
        -- constructor.
Qed.

Lemma elem_of_returns_of name result evs :
  (name, result) ∈ returns_of evs <-> EvInitReturned name result ∈ evs.
Proof.
  unfold returns_of. rewrite list_elem_of_omap. split.
  - intros (e & He & Hsome). destruct e; simplify_eq. done.
  - intros He. by exists (EvInitReturned name result).
Qed.

Lemma elem_of_calls_of name evs :
  name ∈ calls_of evs <-> EvInitCalled name ∈ evs.
Proof.
  unfold calls_of. rewrite list_elem_of_omap. split.
  - intros (e & He & Hsome). destruct e; simplify_eq. done.
  - intros He. by exists (EvInitCalled name).
Qed.

Lemma StartControllers_unfold controllerCtx controllers unsecuredMux p :
  StartControllers controllerCtx controllers unsecuredMux p
  = match StartControllers_range controllerCtx unsecuredMux (MapRange controllers) [] p with
    | (Returned (inl controllerChecks), p1, evs) =>
        (Returned None,
         {| world := world p1; nextChan := nextChan p1;
            closedChans := closedChans p1;
            healthzChecks := (healthzChecks p1 ++ controllerChecks)%list |},
         (evs ++ [EvAddHealthChecker controllerChecks])%list)
    | (Returned (inr err), p1, evs) => (Returned (Some err), p1, evs)
    | (Fatal msg, p1, evs) => (Fatal msg, p1, evs)
    | (Panicked msg, p1, evs) => (Panicked msg, p1, evs)
    end.
Proof.
  unfold StartControllers, bind.
  destruct (StartControllers_range _ _ _ _ _) as [[[[checks|err]|msg|msg] p1] evs];
    try reflexivity.
  unfold ret. by rewrite app_nil_r.
Qed.

Lemma enabled_entries_names controllerCtx (controllers : list (string * InitFunc World)) :
  (enabled_entries controllerCtx controllers).*1
  = enabled_names controllerCtx controllers.
Proof.
  unfold enabled_entries, enabled_names.
  induction controllers as [|[name initFn] rest IH]; [done |].
  rewrite fmap_cons, !filter_cons. cbn [fst].
  destruct (decide (IsControllerEnabled controllerCtx name = true));
    by rewrite ?fmap_cons, IH.
Qed.

Lemma invoked_in_turn_names controllerCtx (entries : list (string * InitFunc World)) :
  forall w returns w',
    invoked_in_turn controllerCtx entries w returns w' ->
    returns.*1 = entries.*1.
Proof.
  induction entries as [|[name initFn] rest IH]; intros w [|nr returns] w'; try done.
  cbn [invoked_in_turn]. intros [-> Hrest]. rewrite !fmap_cons. cbn [fst].
  f_equal. by eapply IH.
Qed.

(** Every entry has its return, and it is what the initializer of the
    entry gives for the context in some world. *)
Lemma invoked_in_turn_entry controllerCtx (entries : list (string * InitFunc World)) :
  forall w returns w' name (initFn : InitFunc World),
    invoked_in_turn controllerCtx entries w returns w' ->
    (name, initFn) ∈ entries ->
    exists w1, (name, (initFn controllerCtx w1).1) ∈ returns.
Proof.
  induction entries as [|[name0 initFn0] rest IH];
    intros w [|nr returns] w' name initFn; try done.
  - intros _ Hin. by apply not_elem_of_nil in Hin.
  - cbn [invoked_in_turn]. intros [-> Hrest] [Hin|Hin]%elem_of_cons.
    + injection Hin as -> ->. eexists. by left.
    + destruct (IH _ _ _ _ _ Hrest Hin) as [w1 Hw1]. exists w1. by right.
Qed.

Lemma StartControllers_range_turns controllerCtx unsecuredMux controllers :
  forall controllerChecks p checks p' evs,
    StartControllers_range controllerCtx unsecuredMux controllers controllerChecks p
    = (Returned (inl checks), p', evs) ->
    invoked_in_turn controllerCtx (enabled_entries controllerCtx controllers)
      (world p) (returns_of evs) (world p').
Proof.
  induction controllers as [|[controllerName initFn] rest IH];
    intros controllerChecks p checks p' evs.
  - by intros [= <- <- <-].
  - rewrite StartControllers_range_cons. unfold enabled_entries.
    rewrite filter_cons. cbn [fst].
    destruct (IsControllerEnabled controllerCtx controllerName) eqn:Hen.
    + rewrite decide_True by done. cbn [invoked_in_turn].
      destruct (rand_Float64 (world p)) as [r w1]. cbn [snd].
      destruct (initFn controllerCtx w1) as [result w2]. cbn [fst snd].
      destruct (debug_events_silent controllerName (result_controller result)
                  unsecuredMux) as (_ & Hquiet & _).
      destruct (result_err result) as [err|]; [done |].
      destruct (result_started result);
        intros (evs' & Hrest & ->)%after_inv;
        apply IH in Hrest; cbn [with_world world] in Hrest;
        rewrite !returns_of_app, ?Hquiet; by split.
    + rewrite decide_False by congruence.
      intros (evs' & Hrest & ->)%after_inv. by apply IH in Hrest.
Qed.

Lemma StartControllers_turns controllerCtx (controllers : gmap string (InitFunc World))
    unsecuredMux p p' evs :
  StartControllers controllerCtx controllers unsecuredMux p
  = (Returned None, p', evs) ->
  invoked_in_turn controllerCtx
    (enabled_entries controllerCtx (MapRange controllers))
    (world p) (returns_of evs) (world p').
Proof.
  rewrite StartControllers_unfold.
  destruct (StartControllers_range _ _ _ _ _) as [[out1 p1] evs1] eqn:Hrange.
  destruct out1 as [[checks|err]|msg|msg]; intros [= <- <-]; subst.
  apply StartControllers_range_turns in Hrange.
  rewrite returns_of_app. cbn. by rewrite app_nil_r.
Qed.



End StartControllers.

Lemma triple_eta {A B C} (x : A * B * C) : x = (x.1.1, x.1.2, x.2).
Proof. by destruct x as [[? ?] ?]. Qed.



Section ContextFacts.
Context {World : Type} `{!Platform World}.
Implicit Types (p : Proc World) (controllerCtx : ControllerContext World).

(** One step through a computation: case analysis on the next call
    into the world outside. *)
Ltac step_outside :=
  match goal with
  | |- context [ConfigUsable ?c] => destruct (ConfigUsable c) eqn:?
  | |- context [rand_Float64 ?w] => destruct (rand_Float64 w) as [? ?]
  | |- context [WaitForAPIServer ?c ?d ?w] =>
      destruct (WaitForAPIServer c d w) as [[?|] ?]
  | |- context [ServerGroupsAndResources ?c ?w] =>
      destruct (ServerGroupsAndResources c w) as [? ?]
  | |- context [GetAvailableResources ?r] =>
      destruct (GetAvailableResources r) as [[?|?] [?|]] eqn:?
  end; cbn [world nextChan closedChans healthzChecks fst snd app].

Lemma CreateControllerContext_spec s karmadaClientBuilder fireflyKubeClientBuilder
    p out p' evs :
  CreateControllerContext s karmadaClientBuilder fireflyKubeClientBuilder p
  = (out, p', evs) ->
  Forall (fun e => setup_event e = true) evs /\
  closedChans p' = closedChans p /\
  healthzChecks p' = healthzChecks p /\
  (forall client response err,
     EvDiscovery client response ∈ evs ->
     (GetAvailableResources response).1 = inr err ->
     out = Returned (zero_ControllerContext, Some err)) /\
  match out with
  | Returned (ctx, Some err) => ctx = zero_ControllerContext /\ nextChan p' = nextChan p
  | Returned (ctx, None) =>
      ComponentConfig ctx = cfgComponentConfig s /\
      InformersStarted ctx = Some (nextChan p) /\
      nextChan p' = S (nextChan p) /\
      (forall field, is_Some (factory_of ctx field))
  | Fatal _ => nextChan p' = nextChan p
  | Panicked _ => False
  end.
Proof.
  unfold CreateControllerContext, GetKarmadaAvailableResources,
    GetHostClusterAvailableResources, GetClusterAvailableResources,
    ClientOrDie, ResyncPeriod.
  unfold bind, call, emit, ret, fatal, make_chan.
  repeat step_outside.
  all: intros [= <- <- <-]; cbn [nextChan closedChans healthzChecks].
  all: split; [by repeat constructor |].
  all: split; [done |]; split; [done |]; split.
  all: try (intros client response err Hin Herr;
            apply list_elem_of_In in Hin; cbn [In] in Hin;
            repeat (destruct Hin as [Hin|Hin];
                    [try discriminate Hin; injection Hin as _ <-;
                     match goal with
                     | H : GetAvailableResources _ = _ |- _ =>
                         rewrite H in Herr; cbn in Herr; congruence
                     end |]);
            done).
  all: try done.
  all: repeat split; try done; intros []; cbn; eauto.
Qed.
End ContextFacts.

Section ContextProperties.
Context {World : Type} `{!Platform World}.
Implicit Types (p : Proc World) (controllerCtx : ControllerContext World).

(** C8: whenever a discovery call made by [CreateControllerContext]
    (for the karmada cluster or for the host cluster) gives
    [GetAvailableResources] an error, [CreateControllerContext] returns
    that error together with the zero [ControllerContext]; and whatever
    the error it returns, the context next to it is the zero value. *)
Theorem CreateControllerContext_error_with_zero_context
    s karmadaClientBuilder fireflyKubeClientBuilder p out p' evs :
  CreateControllerContext s karmadaClientBuilder fireflyKubeClientBuilder p
  = (out, p', evs) ->
  (forall client response err,
     EvDiscovery client response ∈ evs ->
     (GetAvailableResources response).1 = inr err ->
     out = Returned (zero_ControllerContext, Some err)) /\
  (forall ctx err,
     out = Returned (ctx, Some err) -> ctx = zero_ControllerContext).
Proof.
  intros Hrun.
  apply CreateControllerContext_spec in Hrun as (_ & _ & _ & Hdiscovery & Hout).
  split; [exact Hdiscovery |].
  intros ctx err ->. by destruct Hout as [-> _].
Qed.

End ContextProperties.

(** The statement of C8 in a world whose host cluster serves nothing:
    the second discovery call fails, and the error comes back with the
    zero context. *)
Lemma CreateControllerContext_error_witness :
  let r := CreateControllerContext (test_config ["*"])
             (createClientBuilders (test_config ["*"])).1
             (createClientBuilders (test_config ["*"])).2
             (start_proc broken_host_world) in
  let host := {| ClientCluster := HostCluster; Shape := KubeClient;
                 UserAgent := "controller-discovery" |} in
  let response := ([], Some (ErrExternal "connection refused")) in
  EvDiscovery host response ∈ r.2 /\
  (GetAvailableResources response).1 = inr ErrNoSupportedResources /\
  r.1.1 = Returned (zero_ControllerContext, Some ErrNoSupportedResources).
Proof.
  intros r host response.
  assert (Hin : EvDiscovery host response ∈ r.2).
  { apply list_elem_of_In. vm_compute. tauto. }
  split; [exact Hin |]. split; [reflexivity |].
  destruct (CreateControllerContext_error_with_zero_context
              (test_config ["*"])
              (createClientBuilders (test_config ["*"])).1
              (createClientBuilders (test_config ["*"])).2
              (start_proc broken_host_world) r.1.1 r.1.2 r.2 (triple_eta r))
    as [Hdiscovery _].
  exact (Hdiscovery host response ErrNoSupportedResources Hin eq_refl).
Defined.

Section EpochFacts.
Context {World : Type} `{!Platform World}.
Implicit Types (p : Proc World) (controllerCtx : ControllerContext World).

Lemma called_then_returned_app evs1 evs2 :
  called_then_returned evs1 -> called_then_returned evs2 ->
  called_then_returned (evs1 ++ evs2).
Proof.
  intros H1 H2 k name result Hk.
  apply lookup_app_Some in Hk as [Hk|[Hlen Hk]].
  - destruct (H1 _ _ _ Hk) as (j & <- & Hj). exists j. split; [done |].
    by rewrite lookup_app_l by (by eapply lookup_lt_Some).
  - destruct (H2 _ _ _ Hk) as (j & Heq & Hj).
    exists (length evs1 + j)%nat. split; [lia |].
    by rewrite lookup_app_r, Nat.add_comm, Nat.add_sub by lia.
Qed.

Lemma called_then_returned_quiet evs :
  returns_of evs = [] -> called_then_returned evs.
Proof.
  intros Hquiet k name result Hk. exfalso.
  apply list_elem_of_lookup_2, elem_of_returns_of in Hk.
  rewrite Hquiet in Hk. by apply not_elem_of_nil in Hk.
Qed.

Lemma StartControllers_range_events controllerCtx unsecuredMux controllers :
  forall controllerChecks p out p' evs,
    StartControllers_range controllerCtx unsecuredMux controllers controllerChecks p
    = (out, p', evs) ->
    Forall (fun e => startup_event e = true) evs /\ called_then_returned evs.
Proof.
  induction controllers as [|[controllerName initFn] rest IH];
    intros controllerChecks p out p' evs.
  - intros [= <- <- <-]. split; [constructor | by apply called_then_returned_quiet].
  - rewrite StartControllers_range_cons.
    assert (Hcall : forall r result tail,
              called_then_returned tail ->
              called_then_returned
                (EvSleep r :: EvVerboseLog 1 (LogStarting controllerName)
                 :: EvInitCalled controllerName
                 :: EvInitReturned controllerName result :: tail)).
    { intros r result tail Htail.
      apply (called_then_returned_app [_; _; _; _]); [| done].
      intros [|[|[|[|k]]]] name result'; try done.
      intros [= <- <-]. by exists 2%nat. }
    assert (Hdebug : forall ctrl,
              Forall (fun e => startup_event e = true)
                (debug_events controllerName ctrl unsecuredMux)).
    { intros [ctrl|]; [| constructor]. unfold debug_events.
      destruct (Debuggable ctrl) as [[h|]|]; try constructor.
      destruct unsecuredMux; by repeat constructor. }
    destruct (IsControllerEnabled controllerCtx controllerName).
    + destruct (rand_Float64 (world p)) as [r w1].
      destruct (initFn controllerCtx w1) as [result w2].
      destruct (result_err result) as [err|].
      * intros [= <- <- <-]. split; [by repeat constructor |].
        by apply Hcall, called_then_returned_quiet.
      * destruct (result_started result);
          intros (evs' & Hrest & ->)%after_inv;
          apply IH in Hrest as [Hall Hpairs]; split.
        -- rewrite !Forall_app. repeat split; try done; by repeat constructor.
        -- apply Hcall. repeat apply called_then_returned_app; try done.
           ++ apply called_then_returned_quiet, debug_events_silent.
           ++ by apply called_then_returned_quiet.
        -- rewrite !Forall_app. repeat split; try done; by repeat constructor.
        -- apply Hcall. apply (called_then_returned_app [_]); [| done].
           by apply called_then_returned_quiet.
    + intros (evs' & Hrest & ->)%after_inv.
      apply IH in Hrest as [Hall Hpairs]; split.
      * apply Forall_app. split; [by repeat constructor | done].
      * apply (called_then_returned_app [_]); [| done].
        by apply called_then_returned_quiet.
Qed.

(** What [StartControllers] does, in one statement. *)
Lemma StartControllers_spec controllerCtx (controllers : gmap string (InitFunc World))
    unsecuredMux p out p' evs :
  StartControllers controllerCtx controllers unsecuredMux p = (out, p', evs) ->
  nextChan p' = nextChan p /\
  closedChans p' = closedChans p /\
  Forall (fun e => startup_event e = true) evs /\
  called_then_returned evs /\
  ((out = Returned None /\
    no_error evs /\
    calls_of evs = enabled_names controllerCtx (MapRange controllers) /\
    (returns_of evs).*1 = enabled_names controllerCtx (MapRange controllers) /\
    exists evs0 checks,
      evs = (evs0 ++ [EvAddHealthChecker checks])%list /\
      registrations_of evs0 = []) \/
   (exists err, out = Returned (Some err) /\ registrations_of evs = [])).
Proof.
  rewrite StartControllers_unfold.
  destruct (StartControllers_range _ _ _ _ _) as [[out1 p1] evs1] eqn:Hrange.
  pose proof (StartControllers_range_events _ _ _ _ _ _ _ _ Hrange) as [Hall Hpairs].
  apply StartControllers_range_spec in Hrange as (Hn & Hc & Hh & Hg & Hloop).
  destruct Hloop as [(new & -> & Hok & Hcalls & Hreturns & Hnew)
                    |(err & before & name & initFn & rest & evs0 & result
                      & -> & _ & -> & Herr & _)].
  - intros [= <- <- <-]. cbn [nextChan closedChans].
    repeat split; try done.
    + apply Forall_app. split; [done | by repeat constructor].
    + apply called_then_returned_app; [done |].
      by apply called_then_returned_quiet.
    + left. unfold no_error in *.
      rewrite calls_of_app, returns_of_app. cbn. rewrite !app_nil_r.
      repeat split; try done. eauto.
  - intros [= <- <- <-]. repeat split; try done. right. eauto.
Qed.

End EpochFacts.

Section Epoch.
Context {World : Type} `{!Platform World}.
Implicit Types (p : Proc World) (controllerCtx : ControllerContext World).

(** The shape of one epoch: either the process ends with a fatal
    message while building the context or starting the controllers, or
    [run] gets to wait for its context, and then its events are those
    of building the context, those of starting the controllers, the
    starts of the eight informer factories, the closing of the gate and
    the wait. *)
Lemma run_spec c karmadaClientBuilder fireflyKubeClientBuilder unsecuredMux
    (initializersFunc : ControllerInitializersFunc World) p out p' evs :
  channels_ok p ->
  run c karmadaClientBuilder fireflyKubeClientBuilder unsecuredMux initializersFunc p
  = (out, p', evs) ->
  (Forall (fun e => setup_event e || startup_event e = true) evs /\
   exists msg, out = Fatal msg) \/
  (out = Returned tt /\
   exists controllerCtx evs_cc evs_sc,
     evs = (evs_cc ++ evs_sc ++ factory_starts controllerCtx
            ++ [EvClose (nextChan p); EvAwaitDone])%list /\
     Forall (fun e => setup_event e = true) evs_cc /\
     Forall (fun e => startup_event e = true) evs_sc /\
     called_then_returned evs_sc /\
     no_error evs_sc /\
     (returns_of evs_sc).*1
     = enabled_names controllerCtx (MapRange (initializersFunc ())) /\
     ComponentConfig controllerCtx = cfgComponentConfig c /\
     (exists evs0 checks, evs_sc = (evs0 ++ [EvAddHealthChecker checks])%list) /\
     (forall field, is_Some (factory_of controllerCtx field)) /\
     closedChans p' = {[nextChan p]} ∪ closedChans p).
Proof.
  intros Hp. unfold run, bind.
  destruct (CreateControllerContext _ _ _ _) as [[out1 p1] evs1] eqn:Hcc.
  apply CreateControllerContext_spec in Hcc as (Hsetup & Hc1 & _ & _ & Hout1).
  assert (Hsetup' : Forall (fun e => setup_event e || startup_event e = true) evs1).
  { eapply Forall_impl; [exact Hsetup |]. by intros e ->. }
  destruct out1 as [[controllerCtx [err|]]|msg|msg]; [| | | done].
  - intros [= <- <- <-]. left. rewrite app_nil_r. eauto.
  - destruct Hout1 as (Hconfig & Hgate & Hn1 & Hfactories).
    destruct (StartControllers _ _ _ _) as [[out2 p2] evs2] eqn:Hsc.
    apply StartControllers_spec in Hsc
      as (Hn2 & Hc2 & Hstartup & Hpairs
          & [(-> & Hok & _ & Hreturns & Hadd)|(err & -> & _)]).
    + destruct (Hfactories KarmadaDynamic) as [f1 Hf1].
      destruct (Hfactories KarmadaKube) as [f2 Hf2].
      destruct (Hfactories Karmada) as [f3 Hf3].
      destruct (Hfactories KarmadaFirefly) as [f4 Hf4].
      destruct (Hfactories FireflyDynamic) as [f5 Hf5].
      destruct (Hfactories FireflyKube) as [f6 Hf6].
      destruct (Hfactories Firefly) as [f7 Hf7].
      destruct (Hfactories ObjectOrMetadata) as [f8 Hf8].
      cbn [factory_of] in Hf1, Hf2, Hf3, Hf4, Hf5, Hf6, Hf7, Hf8.
      rewrite Hf1, Hf2, Hf3, Hf4, Hf5, Hf6, Hf7, Hf8, Hgate.
      cbn [FactoryStart emit close_chan fmap option_fmap option_map].
      rewrite bool_decide_false; last first.
      { rewrite Hc2, Hc1. intros Hin. apply Hp in Hin. lia. }
      cbn. intros [= <- <- <-]. right. split; [done |].
      exists controllerCtx, evs1, evs2. cbn [closedChans].
      rewrite Hc2, Hc1. split_and!; try done.
      * unfold factory_starts, start_order. cbn [omap list_omap factory_of].
        rewrite Hf1, Hf2, Hf3, Hf4, Hf5, Hf6, Hf7, Hf8. reflexivity.
      * destruct Hadd as (evs0 & checks & -> & _). eauto.
    + intros [= <- <- <-]. left. rewrite app_nil_r. split; [| eauto].
      apply Forall_app. split; [done |].
      eapply Forall_impl; [exact Hstartup |]. intros e ->. apply orb_true_r.
  - intros [= <- <- <-]. left. eauto.
Qed.

End Epoch.

Local Open Scope list_scope.

Section EpochOrder.
Context {World : Type} `{!Platform World}.
Implicit Types (p : Proc World) (controllerCtx : ControllerContext World).

Lemma lookup_after {A} (pre tail : list A) n :
  (pre ++ tail) !! (length pre + n)%nat = tail !! n.
Proof. by rewrite lookup_app_r, Nat.add_comm, Nat.add_sub by lia. Qed.

Lemma lookup_in_tail {A} (pre tail : list A) i x :
  (forall j, pre !! j <> Some x) ->
  (pre ++ tail) !! i = Some x ->
  exists n, i = (length pre + n)%nat /\ tail !! n = Some x.
Proof.
  intros Hpre [Hi|[Hlen Hi]]%lookup_app_Some; [by apply Hpre in Hi |].
  exists (i - length pre)%nat. split; [lia | done].
Qed.

Lemma factory_starts_all controllerCtx :
  (forall field, is_Some (factory_of controllerCtx field)) ->
  exists f1 f2 f3 f4 f5 f6 f7 f8,
    factory_starts controllerCtx
    = [EvFactoryStart KarmadaDynamic f1; EvFactoryStart KarmadaKube f2;
       EvFactoryStart Karmada f3; EvFactoryStart KarmadaFirefly f4;
       EvFactoryStart FireflyDynamic f5; EvFactoryStart FireflyKube f6;
       EvFactoryStart Firefly f7; EvFactoryStart ObjectOrMetadata f8].
Proof.
  intros Hall. unfold factory_starts, start_order. cbn [omap list_omap].
  destruct (Hall KarmadaDynamic) as [f1 ->].
  destruct (Hall KarmadaKube) as [f2 ->].
  destruct (Hall Karmada) as [f3 ->].
  destruct (Hall KarmadaFirefly) as [f4 ->].
  destruct (Hall FireflyDynamic) as [f5 ->].
  destruct (Hall FireflyKube) as [f6 ->].
  destruct (Hall Firefly) as [f7 ->].
  destruct (Hall ObjectOrMetadata) as [f8 ->].
  by exists f1, f2, f3, f4, f5, f6, f7, f8.
Qed.

(** Where the events of a completed epoch are: those of the context and
    of the controllers come first, and the ten last ones are the eight
    factory starts, the closing of the gate and the wait. *)
Lemma run_completed_events c karmadaClientBuilder fireflyKubeClientBuilder
    unsecuredMux (initializersFunc : ControllerInitializersFunc World)
    p out p' evs i e :
  channels_ok p ->
  run c karmadaClientBuilder fireflyKubeClientBuilder unsecuredMux initializersFunc p
  = (out, p', evs) ->
  evs !! i = Some e ->
  setup_event e || startup_event e = false ->
  out = Returned tt /\
  exists controllerCtx evs_cc evs_sc f1 f2 f3 f4 f5 f6 f7 f8,
    let tail :=
      [EvFactoryStart KarmadaDynamic f1; EvFactoryStart KarmadaKube f2;
       EvFactoryStart Karmada f3; EvFactoryStart KarmadaFirefly f4;
       EvFactoryStart FireflyDynamic f5; EvFactoryStart FireflyKube f6;
       EvFactoryStart Firefly f7; EvFactoryStart ObjectOrMetadata f8;
       EvClose (nextChan p); EvAwaitDone] in
    evs = ((evs_cc ++ evs_sc) ++ tail)%list /\
    (exists n, i = (length (evs_cc ++ evs_sc) + n)%nat /\ tail !! n = Some e) /\
    Forall (fun e => setup_event e || startup_event e = true) (evs_cc ++ evs_sc) /\
    called_then_returned evs_sc /\
    no_error evs_sc /\
    returns_of evs_cc = [] /\
    (returns_of evs_sc).*1
    = enabled_names controllerCtx (MapRange (initializersFunc ())) /\
    ComponentConfig controllerCtx = cfgComponentConfig c /\
    (exists evs0 checks, evs_sc = (evs0 ++ [EvAddHealthChecker checks])%list).
Proof.
  intros Hp Hrun Hi He.
  apply (run_spec _ _ _ _ _ _ _ _ _ Hp) in Hrun
    as [[Hall _]|(-> & controllerCtx & evs_cc & evs_sc & -> & Hcc
                  & Hsc & Hpairs & Hok & Hreturns & Hconfig
                  & Hadd & Hfactories & _)].
  { rewrite Forall_forall in Hall.
    apply list_elem_of_lookup_2, Hall in Hi. congruence. }
  split; [done |].
  destruct (factory_starts_all controllerCtx Hfactories)
    as (f1 & f2 & f3 & f4 & f5 & f6 & f7 & f8 & Hstarts).
  rewrite Hstarts in Hi |- *.
  exists controllerCtx, evs_cc, evs_sc, f1, f2, f3, f4, f5, f6, f7, f8.
  assert (Hfront : Forall (fun e => setup_event e || startup_event e = true)
                     (evs_cc ++ evs_sc)).
  { apply Forall_app. split; (eapply Forall_impl; [eassumption |]);
      intros e' ->; [done | apply orb_true_r]. }
  rewrite !app_assoc in Hi. rewrite <- (app_assoc _ _ [_; _]) in Hi.
  cbn [app] in Hi.
  split_and!; try done.
  - by rewrite <- !app_assoc.
  - eapply lookup_in_tail; [| exact Hi]. intros j Hj.
    rewrite Forall_forall in Hfront.
    apply list_elem_of_lookup_2, Hfront in Hj. congruence.
  - clear -Hcc. induction Hcc as [|e' evs' He' _ IH]; [done |].
    unfold returns_of in *. cbn. by destruct e'.
Qed.

End EpochOrder.

Section EpochProperties.
Context {World : Type} `{!Platform World}.
Implicit Types (p : Proc World) (controllerCtx : ControllerContext World).

Lemma elem_of_MapRange_names {V} (m : gmap string V) name :
  name ∈ (MapRange m).*1 <-> is_Some (m !! name).
Proof.
  rewrite (MapRange_perm m). rewrite list_elem_of_fmap. split.
  - intros ([k v] & -> & Hin). apply elem_of_map_to_list in Hin. by exists v.
  - intros [v Hv]. exists (name, v). split; [done |].
    by apply elem_of_map_to_list.
Qed.

Lemma setup_events_quiet evs :
  Forall (fun e => setup_event e = true) evs ->
  calls_of evs = [] /\ returns_of evs = [] /\ registrations_of evs = [].
Proof.
  induction 1 as [|e evs He _ (Hc & Hr & Hg)]; [done |].
  unfold calls_of, returns_of, registrations_of in *. cbn.
  rewrite Hc, Hr, Hg. by destruct e.
Qed.

(** The initializers of a completed epoch: [run] built the context,
    and then the initializers of the enabled entries of the registry
    were invoked in turn for this context, from the world that building
    the context left behind to the world that [run] leaves behind. *)
Lemma run_completed_turns c karmadaClientBuilder fireflyKubeClientBuilder unsecuredMux
    (initializersFunc : ControllerInitializersFunc World) p p' evs :
  run c karmadaClientBuilder fireflyKubeClientBuilder unsecuredMux initializersFunc p
  = (Returned tt, p', evs) ->
  exists controllerCtx,
    (CreateControllerContext c karmadaClientBuilder fireflyKubeClientBuilder p).1.1
    = Returned (controllerCtx, None) /\
    ComponentConfig controllerCtx = cfgComponentConfig c /\
    calls_of evs = enabled_names controllerCtx (MapRange (initializersFunc ())) /\
    invoked_in_turn controllerCtx
      (enabled_entries controllerCtx (MapRange (initializersFunc ())))
      (world (CreateControllerContext c karmadaClientBuilder
                fireflyKubeClientBuilder p).1.2)
      (returns_of evs) (world p').
Proof.
  unfold run, bind.
  destruct (CreateControllerContext _ _ _ _) as [[out1 p1] evs1] eqn:Hcc.
  apply CreateControllerContext_spec in Hcc as (Hsetup & _ & _ & _ & Hout1).
  apply setup_events_quiet in Hsetup as (Hc1 & Hr1 & _).
  destruct out1 as [[controllerCtx [err|]]|msg|msg]; [done | | done | done].
  destruct Hout1 as (Hconfig & Hgate & _ & Hfactories).
  destruct (StartControllers _ _ _ _) as [[out2 p2] evs2] eqn:Hsc.
  pose proof Hsc as Hspec.
  apply StartControllers_spec in Hspec
    as (_ & _ & _ & _ & [(-> & _ & Hcalls & _)|(err & -> & _)]); [| done].
  apply StartControllers_turns in Hsc.
  destruct (Hfactories KarmadaDynamic) as [f1 Hf1].
  destruct (Hfactories KarmadaKube) as [f2 Hf2].
  destruct (Hfactories Karmada) as [f3 Hf3].
  destruct (Hfactories KarmadaFirefly) as [f4 Hf4].
  destruct (Hfactories FireflyDynamic) as [f5 Hf5].
  destruct (Hfactories FireflyKube) as [f6 Hf6].
  destruct (Hfactories Firefly) as [f7 Hf7].
  destruct (Hfactories ObjectOrMetadata) as [f8 Hf8].
  cbn [factory_of] in Hf1, Hf2, Hf3, Hf4, Hf5, Hf6, Hf7, Hf8.
  rewrite Hf1, Hf2, Hf3, Hf4, Hf5, Hf6, Hf7, Hf8, Hgate.
  cbn [FactoryStart emit close_chan fmap option_fmap option_map].
  destruct (bool_decide _); [done |].
  cbn. intros [= <- <-]. exists controllerCtx. cbn [world].
  rewrite calls_of_app, calls_of_app, !returns_of_app, Hc1, Hr1, Hcalls.
  cbn. rewrite !app_nil_r. by split_and!.
Qed.

(** C4, as the code has it: in one run of [run], when an informer
    factory is started, the context of the epoch was built and
    [StartControllers] has completed without an error (it has handed
    its checks to the health handler).  The initializers of the enabled
    controllers of the epoch's registry were invoked in turn for this
    context, each in the world the one before it left behind, and the
    world [run] leaves behind is the one the last of them left behind.
    Every enabled controller of the registry has had its initializer
    invoked and returned before that start, and the return recorded is
    what this initializer gave for the context, without an error.  The
    initializer of a disabled controller is not invoked at all.  Every
    initializer call and return of the run lies before that start. *)
Theorem run_initializes_controllers_before_informers
    c karmadaClientBuilder fireflyKubeClientBuilder unsecuredMux
    (initializersFunc : ControllerInitializersFunc World)
    p out p' evs i field factory :
  channels_ok p ->
  run c karmadaClientBuilder fireflyKubeClientBuilder unsecuredMux initializersFunc p
  = (out, p', evs) ->
  evs !! i = Some (EvFactoryStart field factory) ->
  exists controllerCtx,
    (CreateControllerContext c karmadaClientBuilder fireflyKubeClientBuilder p).1.1
    = Returned (controllerCtx, None) /\
    ComponentConfig controllerCtx = cfgComponentConfig c /\
    (exists k checks, (k < i)%nat /\ evs !! k = Some (EvAddHealthChecker checks)) /\
    invoked_in_turn controllerCtx
      (enabled_entries controllerCtx (MapRange (initializersFunc ())))
      (world (CreateControllerContext c karmadaClientBuilder
                fireflyKubeClientBuilder p).1.2)
      (returns_of evs) (world p') /\
    (forall name (initFn : InitFunc World),
       initializersFunc () !! name = Some initFn ->
       IsControllerEnabled_range name ControllersDisabledByDefault
         (Controllers (Generic (cfgComponentConfig c))) false = true ->
       exists j k w,
         (j < k < i)%nat /\
         evs !! j = Some (EvInitCalled name) /\
         evs !! k = Some (EvInitReturned name (initFn controllerCtx w).1) /\
         result_err (initFn controllerCtx w).1 = None) /\
    (forall name,
       IsControllerEnabled_range name ControllersDisabledByDefault
         (Controllers (Generic (cfgComponentConfig c))) false = false ->
       forall j, evs !! j <> Some (EvInitCalled name)) /\
    (forall j name, evs !! j = Some (EvInitCalled name) -> (j < i)%nat) /\
    (forall j name result,
       evs !! j = Some (EvInitReturned name result) -> (j < i)%nat).
Proof.
  intros Hp Hrun Hi.
  destruct (run_completed_events _ _ _ _ _ _ _ _ _ _ _ Hp Hrun Hi eq_refl)
    as (-> & controllerCtx0 & evs_cc & evs_sc & f1 & f2 & f3 & f4 & f5 & f6 & f7 & f8
        & Hevs & (n & -> & Hn) & Hfront & Hpairs & Hok & Hquiet & _ & _
        & evs0 & checks & ->).
  destruct (run_completed_turns _ _ _ _ _ _ _ _ Hrun)
    as (controllerCtx & Hcc & Hconfig & Hcalls & Hturns).
  subst evs.
  set (tail := [EvFactoryStart KarmadaDynamic f1; EvFactoryStart KarmadaKube f2;
                EvFactoryStart Karmada f3; EvFactoryStart KarmadaFirefly f4;
                EvFactoryStart FireflyDynamic f5; EvFactoryStart FireflyKube f6;
                EvFactoryStart Firefly f7; EvFactoryStart ObjectOrMetadata f8;
                EvClose (nextChan p); EvAwaitDone]) in *.
  assert (Hbefore : forall j e,
            ((evs_cc ++ evs0 ++ [EvAddHealthChecker checks]) ++ tail) !! j = Some e ->
            (forall m, tail !! m <> Some e) ->
            (j < length (evs_cc ++ evs0 ++ [EvAddHealthChecker checks]) + n)%nat).
  { intros j e [Hj|[_ Hj]]%lookup_app_Some Hnot.
    - apply lookup_lt_Some in Hj. lia.
    - by apply Hnot in Hj. }
  assert (Hreturns : returns_of ((evs_cc ++ evs0 ++ [EvAddHealthChecker checks]) ++ tail)
                     = returns_of (evs0 ++ [EvAddHealthChecker checks])).
  { rewrite !returns_of_app, Hquiet. cbn. by rewrite !app_nil_r. }
  exists controllerCtx. split_and!; try done.
  - exists (length (evs_cc ++ evs0))%nat, checks. split.
    + rewrite !length_app. cbn. lia.
    + rewrite (app_assoc evs_cc), <- (app_assoc _ [_] tail).
      rewrite <- (Nat.add_0_r (length _)). by rewrite lookup_after.
  - intros name initFn Hname Henabled.
    assert (Hentry : (name, initFn)
                     ∈ enabled_entries controllerCtx (MapRange (initializersFunc ()))).
    { unfold enabled_entries. apply list_elem_of_filter. split.
      - cbn [fst]. unfold IsControllerEnabled. by rewrite Hconfig.
      - rewrite (MapRange_perm (initializersFunc ())).
        by apply elem_of_map_to_list. }
    destruct (invoked_in_turn_entry _ _ _ _ _ _ _ Hturns Hentry) as [w Hin].
    rewrite Hreturns in Hin.
    pose proof Hin as Hresult. apply elem_of_returns_of in Hin.
    apply list_elem_of_lookup_1 in Hin as [k Hk].
    destruct (Hpairs _ _ _ Hk) as (j & <- & Hj).
    exists (length evs_cc + j)%nat, (length evs_cc + S j)%nat, w.
    pose proof (lookup_lt_Some _ _ _ Hk) as Hlen.
    split_and!.
    + lia.
    + rewrite length_app. lia.
    + rewrite <- app_assoc. rewrite lookup_after.
      rewrite lookup_app_l by lia. done.
    + rewrite <- app_assoc. rewrite lookup_after.
      rewrite lookup_app_l by lia. done.
    + unfold no_error in Hok. rewrite Forall_forall in Hok.
      by apply Hok in Hresult.
  - intros name Hdisabled j Hj.
    apply list_elem_of_lookup_2, elem_of_calls_of in Hj.
    rewrite Hcalls in Hj. unfold enabled_names in Hj.
    apply list_elem_of_filter in Hj as [Hen _].
    unfold IsControllerEnabled in Hen. rewrite Hconfig in Hen. congruence.
  - intros j name Hj. eapply Hbefore; [exact Hj |].
    by intros [|[|[|[|[|[|[|[|[|[|m]]]]]]]]]].
  - intros j name result Hj. eapply Hbefore; [exact Hj |].
    by intros [|[|[|[|[|[|[|[|[|[|m]]]]]]]]]].
Qed.

(** C5, as the code has it: in one run of [run], the gate
    [InformersStarted] is the channel made for the context of this run,
    it is closed after all eight informer factories were started (every
    factory start lies before the closing statement), it is closed once,
    and [run] does not panic.  A channel that is closed cannot be closed
    again: another [close] of the gate panics. *)
Theorem run_starts_informers_then_closes_gate
    c karmadaClientBuilder fireflyKubeClientBuilder unsecuredMux
    (initializersFunc : ControllerInitializersFunc World)
    p out p' evs :
  channels_ok p ->
  run c karmadaClientBuilder fireflyKubeClientBuilder unsecuredMux initializersFunc p
  = (out, p', evs) ->
  (forall msg, out <> Panicked msg) /\
  (forall j ch,
     evs !! j = Some (EvClose ch) ->
     ch = nextChan p /\
     (forall field, exists i factory,
        (i < j)%nat /\ evs !! i = Some (EvFactoryStart field factory)) /\
     (forall i field factory,
        evs !! i = Some (EvFactoryStart field factory) -> (i < j)%nat) /\
     (forall j' ch', evs !! j' = Some (EvClose ch') -> j' = j)) /\
  (out = Returned tt -> exists j, evs !! j = Some (EvClose (nextChan p))) /\
  (forall ch,
     ch ∈ closedChans p' ->
     close_chan (Some ch) p' = (Panicked CloseOfClosedChannel, p', [])).
Proof.
  intros Hp Hrun. split_and!.
  - intros msg ->.
    by apply (run_spec _ _ _ _ _ _ _ _ _ Hp) in Hrun as [[_ [? ?]]|[? _]].
  - intros j ch Hj.
    destruct (run_completed_events _ _ _ _ _ _ _ _ _ _ _ Hp Hrun Hj eq_refl)
      as (_ & controllerCtx & evs_cc & evs_sc & f1 & f2 & f3 & f4 & f5 & f6 & f7 & f8
          & -> & (n & -> & Hn) & Hfront & _).
    set (front := evs_cc ++ evs_sc) in *.
    assert (n = 8%nat /\ ch = nextChan p) as [-> ->].
    { destruct n as [|[|[|[|[|[|[|[|[|[|n]]]]]]]]]]; try done.
      by injection Hn as <-. }
    assert (Htail : forall i e,
              setup_event e || startup_event e = false ->
              (front ++ [EvFactoryStart KarmadaDynamic f1; EvFactoryStart KarmadaKube f2;
                         EvFactoryStart Karmada f3; EvFactoryStart KarmadaFirefly f4;
                         EvFactoryStart FireflyDynamic f5; EvFactoryStart FireflyKube f6;
                         EvFactoryStart Firefly f7; EvFactoryStart ObjectOrMetadata f8;
                         EvClose (nextChan p); EvAwaitDone]) !! i = Some e ->
              exists m, i = (length front + m)%nat /\
                [EvFactoryStart KarmadaDynamic f1; EvFactoryStart KarmadaKube f2;
                 EvFactoryStart Karmada f3; EvFactoryStart KarmadaFirefly f4;
                 EvFactoryStart FireflyDynamic f5; EvFactoryStart FireflyKube f6;
                 EvFactoryStart Firefly f7; EvFactoryStart ObjectOrMetadata f8;
                 EvClose (nextChan p); EvAwaitDone] !! m = Some e).
    { intros i e He Hi. eapply lookup_in_tail; [| exact Hi]. intros k Hk.
      rewrite Forall_forall in Hfront.
      apply list_elem_of_lookup_2, Hfront in Hk. congruence. }
    split_and!.
    + done.
    + intros field.
      destruct field;
        [exists (length front + 0)%nat, f1 | exists (length front + 1)%nat, f2
        |exists (length front + 2)%nat, f3 | exists (length front + 3)%nat, f4
        |exists (length front + 4)%nat, f5 | exists (length front + 5)%nat, f6
        |exists (length front + 6)%nat, f7 | exists (length front + 7)%nat, f8];
        (split; [lia | by rewrite lookup_after]).
    + intros i field factory Hi.
      apply Htail in Hi as (m & -> & Hm); [| done].
      destruct m as [|[|[|[|[|[|[|[|[|[|m]]]]]]]]]]; try done; lia.
    + intros j' ch' Hj'.
      apply Htail in Hj' as (m & -> & Hm); [| done].
      by destruct m as [|[|[|[|[|[|[|[|[|[|m]]]]]]]]]].
  - intros ->.
    apply (run_spec _ _ _ _ _ _ _ _ _ Hp) in Hrun
      as [[_ [? ?]]|(_ & controllerCtx & evs_cc & evs_sc & -> & _ & _ & _ & _ & _
                     & _ & _ & Hfactories & _)]; [done |].
    destruct (factory_starts_all controllerCtx Hfactories)
      as (f1 & f2 & f3 & f4 & f5 & f6 & f7 & f8 & ->).
    exists (length (evs_cc ++ evs_sc) + 8)%nat.
    rewrite app_assoc. by rewrite lookup_after.
  - intros ch Hch. cbn. by rewrite bool_decide_true.
Qed.

End EpochProperties.

Lemma start_proc_channels_ok (w : TestWorld) : channels_ok (start_proc w).
Proof. intros ch Hin. by apply elem_of_empty in Hin. Qed.

(** The statement of C4 at the epoch of the examples: the first informer
    factory is started at position 20, after the health checks were
    handed over and after every initializer call.  The estimator is
    enabled: its initializer was called and has returned what it gives
    before position 20.  The initializers that ran are those of
    ["kubean"], ["estimator"] and ["node"], in this order, as their
    returns and the log of the world show; that of ["foo"], which is
    disabled, did not run. *)
Lemma run_initializes_witness :
  channels_ok (start_proc healthy_world) /\
  (exists factory, test_epoch.2 !! 20%nat = Some (EvFactoryStart KarmadaDynamic factory)) /\
  (exists k checks,
     (k < 20)%nat /\ test_epoch.2 !! k = Some (EvAddHealthChecker checks)) /\
  (exists j k controllerCtx w,
     (j < k < 20)%nat /\
     test_epoch.2 !! j = Some (EvInitCalled "estimator") /\
     test_epoch.2 !! k
     = Some (EvInitReturned "estimator" (init_plain "estimator" controllerCtx w).1)) /\
  (forall j, test_epoch.2 !! j <> Some (EvInitCalled "foo")) /\
  (forall j name, test_epoch.2 !! j = Some (EvInitCalled name) -> (j < 20)%nat) /\
  returns_of test_epoch.2
  = [("kubean", (None, false, None));
     ("estimator",
      (Some {| ControllerName := "estimator"; Debuggable := None;
               HealthCheckable := None |}, true, None));
     ("node",
      (Some {| ControllerName := "node"; Debuggable := Some (Some 7%nat);
               HealthCheckable := Some (Some 3%nat) |}, true, None))] /\
  tw_log (world test_epoch.1.2) = ["kubean"; "estimator"; "node"].
Proof.
  split; [apply start_proc_channels_ok |].
  assert (Hstart : exists factory,
            test_epoch.2 !! 20%nat = Some (EvFactoryStart KarmadaDynamic factory)).
  { eexists. vm_compute. reflexivity. }
  split; [exact Hstart |]. destruct Hstart as [factory Hstart].
  pose proof (run_initializes_controllers_before_informers
              (test_config ["*"; "-foo"])
              (createClientBuilders (test_config ["*"; "-foo"])).1
              (createClientBuilders (test_config ["*"; "-foo"])).2
              false test_initializers (start_proc healthy_world)
              test_epoch.1.1 test_epoch.1.2 test_epoch.2 20 KarmadaDynamic factory
              (start_proc_channels_ok healthy_world) (triple_eta test_epoch) Hstart) as H.
  destruct H
    as (controllerCtx & _ & _ & Hchecks & _ & Henabled & Hdisabled & Hcalls & _).
  split; [exact Hchecks |].
  assert (Hregistered : test_initializers () !! "estimator"
                        = Some (init_plain "estimator")).
  { unfold test_initializers, NewControllerInitializers.
    rewrite lookup_insert_ne by discriminate.
    rewrite lookup_insert_ne by discriminate.
    rewrite lookup_insert_ne by discriminate.
    rewrite lookup_insert_eq. reflexivity. }
  assert (Hon : IsControllerEnabled_range "estimator" ControllersDisabledByDefault
                  (Controllers (Generic (cfgComponentConfig (test_config ["*"; "-foo"]))))
                  false = true) by (vm_compute; reflexivity).
  assert (Hoff : IsControllerEnabled_range "foo" ControllersDisabledByDefault
                   (Controllers (Generic (cfgComponentConfig (test_config ["*"; "-foo"]))))
                   false = false) by (vm_compute; reflexivity).
  destruct (Henabled "estimator" (init_plain "estimator") Hregistered Hon)
    as (j & k & w & Hjk & Hj & Hk & _).
  split; [exists j, k, controllerCtx, w; exact (conj Hjk (conj Hj Hk)) |].
  split; [exact (Hdisabled "foo" Hoff) |].
  split; [exact Hcalls |].
  split; vm_compute; reflexivity.
Defined.

(** C4 fails as stated: with the controller ["foo"] disabled, the epoch
    runs to its end and starts the informer factories, and the
    initializer of ["foo"], which is in the registry, was never
    invoked: there is no call of it among the events, and it has not
    written to the log of the world as it would have. *)
Lemma run_never_invokes_disabled_initializer :
  test_epoch.1.1 = Returned tt /\
  test_initializers () !! "foo" = Some (init_nil "foo") /\
  (exists i field factory, test_epoch.2 !! i = Some (EvFactoryStart field factory)) /\
  calls_of test_epoch.2 = ["kubean"; "estimator"; "node"] /\
  tw_log (world test_epoch.1.2) = ["kubean"; "estimator"; "node"] /\
  EvInitCalled "foo" ∉ test_epoch.2.
Proof.
  split; [by vm_compute |]. split.
  { unfold test_initializers, NewControllerInitializers.
    rewrite lookup_insert_ne by done. by rewrite lookup_insert_eq. }
  split; [exists 20%nat; eexists _, _; by vm_compute |].
  assert (Hcalls : calls_of test_epoch.2 = ["kubean"; "estimator"; "node"])
    by (by vm_compute).
  split; [exact Hcalls |].
  split; [by vm_compute |].
  intros Hin%elem_of_calls_of. rewrite Hcalls in Hin.
  rewrite !elem_of_cons in Hin.
  destruct Hin as [Hin|[Hin|[Hin|Hin]]]; try discriminate Hin.
  by apply not_elem_of_nil in Hin.
Qed.

(** The statement of C5 at the epoch of the examples: the gate is
    channel 0, closed at position 28 after the eight factory starts. *)
Lemma run_closes_gate_witness :
  channels_ok (start_proc healthy_world) /\
  test_epoch.2 !! 28%nat = Some (EvClose 0) /\
  (forall field, exists i factory,
     (i < 28)%nat /\ test_epoch.2 !! i = Some (EvFactoryStart field factory)) /\
  close_chan (Some 0%nat) test_epoch.1.2
  = (Panicked CloseOfClosedChannel, test_epoch.1.2, []).
Proof.
  split; [apply start_proc_channels_ok |].
  assert (Hclose : test_epoch.2 !! 28%nat = Some (EvClose 0)) by (by vm_compute).
  split; [exact Hclose |].
  destruct (run_starts_informers_then_closes_gate
              (test_config ["*"; "-foo"])
              (createClientBuilders (test_config ["*"; "-foo"])).1
              (createClientBuilders (test_config ["*"; "-foo"])).2
              false test_initializers (start_proc healthy_world)
              test_epoch.1.1 test_epoch.1.2 test_epoch.2
              (start_proc_channels_ok healthy_world) (triple_eta test_epoch))
    as (_ & Hgate & _ & Hagain).
  destruct (Hgate _ _ Hclose) as (_ & Hstarts & _).
  split; [exact Hstarts |].
  apply Hagain. vm_compute. set_solver.
Defined.

(** C5 fails as stated: in the epoch of the examples an informer factory
    is started at position 20, before the gate is closed at position 28;
    and closing the gate once more panics. *)
Lemma run_starts_informers_before_gate_closes :
  (exists factory,
     test_epoch.2 !! 20%nat = Some (EvFactoryStart KarmadaDynamic factory)) /\
  test_epoch.2 !! 28%nat = Some (EvClose 0) /\
  (20 < 28)%nat /\
  (close_chan (Some 0%nat) test_epoch.1.2).1.1 = Panicked CloseOfClosedChannel.
Proof.
  split; [eexists; by vm_compute |]. split; [by vm_compute |].
  split; [lia |]. by vm_compute.
Qed.

(** ** Leader migration *)

Section Migration.
Context {World : Type} `{!Platform World}.
Variables startEstimatorController startNodeController
  startFooController startKubeanController : InitFunc World.

Abbreviation Run_steps :=
  (Run startEstimatorController startNodeController
     startFooController startKubeanController).

Lemma Run_guarded c serveErr hostname :
  guarded (Run_steps c serveErr hostname) = true.
Proof.
  unfold Run, Run_elect.
  destruct (cfgSecureServing c), serveErr as [err|],
    (LeaderElect (LeaderElection (Generic (cfgComponentConfig c)))),
    hostname as [id|err'],
    (leadermigration_Enabled (Generic (cfgComponentConfig c)));
    reflexivity.
Qed.

Lemma main_invariant_start (steps : list (MainStep (World := World))) :
  guarded steps = true -> main_invariant (main_start steps).
Proof.
  intros Hguarded. split_and!.
  - intros i Hi. done.
  - by right.
  - intros s Hs. by apply not_elem_of_nil in Hs.
Qed.

Lemma migration_ready_app history more :
  migration_ready history -> migration_ready (history ++ more).
Proof.
  intros (j & k & Hjk & Hj & Hk). exists j, k. split; [done |].
  split; apply lookup_app_l_Some; done.
Qed.

Lemma main_invariant_step (st st' : MainState (World := World)) :
  main_step st st' -> main_invariant st -> main_invariant st'.
Proof.
  intros Hstep (Hordered & Hready & Hfired).
  destruct Hstep as [s st|step rest f h Henabled]; cbn [history remaining fired] in *.
  - split_and!.
    + intros i [Hi|[_ Hi]]%lookup_app_Some.
      * destruct (Hordered i Hi) as (j & k & Hjk & Hj & Hk).
        exists j, k. split; [done |]. split; by apply lookup_app_l_Some.
      * by destruct (i - length (history st))%nat.
    + destruct Hready as [Hready|Hguarded]; [left | by right].
      by apply migration_ready_app.
    + intros s' [->|Hs']%elem_of_cons.
      * exists (length (history st)). by apply list_lookup_middle.
      * destruct (Hfired s' Hs') as [j Hj]. exists j. by apply lookup_app_l_Some.
  - assert (Hready' : migration_ready (h ++ [event_of step])
                      \/ guarded (continuation step rest) = true).
    { destruct Hready as [Hready|Hguarded];
        [left; by apply migration_ready_app |].
      destruct step as [| |[] ? ? ?|[]|]; cbn in Hguarded |- *;
        try (by right); try done.
      left. destruct (Hfired MigrationReady Henabled) as [j Hj].
      exists j, (length h). split; [by eapply lookup_lt_Some |].
      split; [by apply lookup_app_l_Some |].
      by apply list_lookup_middle. }
    split_and!; [| exact Hready' |].
    + intros i [Hi|[Hlen Hi]]%lookup_app_Some.
      * destruct (Hordered i Hi) as (j & k & Hjk & Hj & Hk).
        exists j, k. split; [done |]. split; by apply lookup_app_l_Some.
      * destruct (i - length h)%nat as [|n] eqn:Hn; [| done].
        injection Hi as Hi. assert (i = length h) as -> by lia.
        destruct Hready as [(j & k & Hjk & Hj & Hk)|Hguarded].
        -- exists j, k. split; [| split; by apply lookup_app_l_Some].
           apply lookup_lt_Some in Hk. lia.
        -- by destruct step as [| |[] ? ? ?|[]|].
    + intros s Hs. destruct (Hfired s Hs) as [j Hj].
      exists j. by apply lookup_app_l_Some.
Qed.

(** C6: in every execution of [Run], whatever the configuration and
    whenever other goroutines fire the channels, an election for the
    migration lock is started only after the main goroutine has received
    from [MigrationReady], and that receive only after the channel has
    fired. *)
Theorem Run_migration_lock_after_migration_ready c serveErr hostname st i :
  rtc main_step (main_start (Run_steps c serveErr hostname)) st ->
  history st !! i = Some (ElectionStarted MigrationLock) ->
  exists j k,
    (j < k < i)%nat /\
    history st !! j = Some (Fired MigrationReady) /\
    history st !! k = Some (Received MigrationReady).
Proof.
  intros Hreach.
  assert (Hinv : main_invariant st).
  { eapply (rtc_ind_r (fun st => main_invariant st)); [| | exact Hreach].
    - apply main_invariant_start, Run_guarded.
    - intros st1 st2 _ Hstep IH. by eapply main_invariant_step. }
  destruct Hinv as (Hordered & _). apply Hordered.
Qed.

End Migration.

Lemma migration_state_reachable :
  rtc main_step (main_start test_steps) migration_state.
Proof.
  eapply rtc_l; [by apply step_exec |].
  eapply rtc_l; [apply (step_fire MigrationReady) |].
  eapply rtc_l; [apply step_exec; by left |].
  eapply rtc_l; [by apply step_exec |].
  apply rtc_refl.
Qed.

(** The statement of C6 at an execution with leader migration enabled:
    the main lock election is started, another goroutine fires
    [MigrationReady], the main goroutine receives from it and starts the
    election for the migration lock. *)
Lemma Run_migration_witness :
  rtc main_step (main_start test_steps) migration_state /\
  history migration_state !! 3%nat = Some (ElectionStarted MigrationLock) /\
  exists j k,
    (j < k < 3)%nat /\
    history migration_state !! j = Some (Fired MigrationReady) /\
    history migration_state !! k = Some (Received MigrationReady).
Proof.
  split; [exact migration_state_reachable |]. split; [reflexivity |].
  exact (Run_migration_lock_after_migration_ready _ _ _ _ _ _ _
           migration_state 3 migration_state_reachable eq_refl).
Defined.

(** ** Binary64 rounding *)

Section Binary64.

Lemma digits2_pos_bounds (m : positive) :
  2 ^ (Z.pos (digits2_pos m) - 1) <= Z.pos m < 2 ^ Z.pos (digits2_pos m).
Proof.
  induction m as [m IH|m IH|]; cbn [digits2_pos].
  - rewrite Pos2Z.inj_succ, (Pos2Z.inj_xI m).
    replace (Z.succ (Z.pos (digits2_pos m)) - 1) with (Z.succ (Z.pos (digits2_pos m) - 1)) by lia.
    rewrite !Z.pow_succ_r by lia. lia.
  - rewrite Pos2Z.inj_succ, (Pos2Z.inj_xO m).
    replace (Z.succ (Z.pos (digits2_pos m)) - 1) with (Z.succ (Z.pos (digits2_pos m) - 1)) by lia.
    rewrite !Z.pow_succ_r by lia. lia.
  - cbn. lia.
Qed.

Lemma digits2_pos_unique (m : positive) (n : Z) :
  2 ^ (n - 1) <= Z.pos m < 2 ^ n -> Z.pos (digits2_pos m) = n.
Proof.
  intros [Hlo Hhi]. pose proof (digits2_pos_bounds m) as [Hlo' Hhi'].
  assert (0 < n).
  { destruct (Z_lt_le_dec 0 n) as [|Hn]; [done |].
    assert (2 ^ n <= 2 ^ 0) by (destruct (Z_lt_le_dec n 0);
      [rewrite Z.pow_neg_r by lia; lia | apply Z.pow_le_mono_r; lia]).
    change (2 ^ 0) with 1 in *. lia. }
  destruct (Z_lt_le_dec (Z.pos (digits2_pos m)) n) as [Hlt|Hge].
  - assert (2 ^ Z.pos (digits2_pos m) <= 2 ^ (n - 1)) by (apply Z.pow_le_mono_r; lia).
    lia.
  - destruct (Z_lt_le_dec n (Z.pos (digits2_pos m))) as [Hlt|Hle]; [| lia].
    assert (2 ^ n <= 2 ^ (Z.pos (digits2_pos m) - 1)) by (apply Z.pow_le_mono_r; lia).
    lia.
Qed.

Lemma Pos_iter_xO (m d : positive) :
  Z.pos (Pos.iter xO m d) = Z.pos m * 2 ^ Z.pos d.
Proof.
  revert m. induction d as [|d IH] using Pos.peano_ind; intros m.
  - cbn. lia.
  - rewrite Pos.iter_succ, (Pos2Z.inj_xO (Pos.iter xO m d)), IH, Pos2Z.inj_succ,
      Z.pow_succ_r by lia. lia.
Qed.


Lemma shr_1_shifts : shifts 1 shr_1.
Proof.
  intros [m r s] Hm. cbn [shr_m] in *. unfold inexact. cbn [shr_r shr_s].
  change (2 ^ 1) with 2.
  destruct m as [|[p|p|]|p]; cbn [shr_1 shr_m shr_r shr_s]; try lia.
  - split_and!; [done | done |]. by destruct r, s.
  - split_and!; [lia | |].
    + rewrite (Pos2Z.inj_xI p). apply (Z.div_unique _ 2 _ 1); lia.
    + intros _ Hodd. rewrite (Pos2Z.inj_xI p) in Hodd.
      rewrite Z.add_comm, Z.mul_comm, Z.mod_add in Hodd by lia. done.
  - split_and!; [lia | |].
    + rewrite (Pos2Z.inj_xO p). apply (Z.div_unique _ 2 _ 0); lia.
    + intros Hexact _. by destruct r, s.
  - split_and!; [done | done | done].
Qed.

Lemma shifts_compose a b f g :
  0 <= a -> 0 <= b -> shifts a f -> shifts b g ->
  shifts (a + b) (fun mrs => g (f mrs)).
Proof.
  intros Ha Hb Hf Hg mrs Hm.
  destruct (Hf mrs Hm) as (Hm1 & Hdiv1 & Hexact1).
  destruct (Hg (f mrs) Hm1) as (Hm2 & Hdiv2 & Hexact2).
  assert (0 < 2 ^ a) by (apply Z.pow_pos_nonneg; lia).
  assert (0 < 2 ^ b) by (apply Z.pow_pos_nonneg; lia).
  rewrite Z.pow_add_r by done.
  split_and!; [done | |].
  - rewrite Hdiv2, Hdiv1. apply Z.div_div; lia.
  - intros Hexact Hmod. rewrite Z.rem_mul_r in Hmod by lia.
    pose proof (Z.mod_pos_bound (shr_m mrs) (2 ^ a) ltac:(lia)).
    pose proof (Z.mod_pos_bound (shr_m mrs / 2 ^ a) (2 ^ b) ltac:(lia)).
    apply Hexact2; [apply Hexact1; [done | nia] |].
    rewrite Hdiv1. nia.
Qed.

Lemma iter_pos_shifts (n : positive) : shifts (Z.pos n) (SpecFloat.iter_pos shr_1 n).
Proof.
  induction n as [n IH|n IH|]; cbn [SpecFloat.iter_pos].
  - rewrite (Pos2Z.inj_xI n).
    replace (2 * Z.pos n + 1) with ((1 + Z.pos n) + Z.pos n) by lia.
    apply (shifts_compose (1 + Z.pos n) (Z.pos n)
             (fun mrs => SpecFloat.iter_pos shr_1 n (shr_1 mrs))); try lia; [| done].
    apply (shifts_compose 1 (Z.pos n) shr_1); try lia; [| done].
    apply shr_1_shifts.
  - rewrite (Pos2Z.inj_xO n).
    replace (2 * Z.pos n) with (Z.pos n + Z.pos n) by lia.
    by apply (shifts_compose (Z.pos n) (Z.pos n) (SpecFloat.iter_pos shr_1 n)).
  - apply shr_1_shifts.
Qed.


Lemma round_nearest_even_bounds mx lx :
  mx <= round_nearest_even mx lx <= mx + 1.
Proof.
  destruct lx as [|[]]; cbn [round_nearest_even]; try lia.
  destruct (Z.even mx); lia.
Qed.

Lemma exact_location mrs :
  inexact mrs = false -> loc_of_shr_record mrs = loc_Exact.
Proof. by destruct mrs as [m [] []]. Qed.

Lemma fexp_normal e : -1074 <= e - 53 -> fexp 53 1024 e = e - 53.
Proof. unfold fexp, emin. lia. Qed.

Lemma shr_fexp_keep (m : positive) e l :
  fexp 53 1024 (Z.pos (digits2_pos m) + e) <= e ->
  shr_fexp 53 1024 (Z.pos m) e l = (shr_record_of_loc (Z.pos m) l, e).
Proof.
  intros Hle. unfold shr_fexp, shr. cbn [Zdigits2].
  destruct (fexp 53 1024 (Z.pos (digits2_pos m) + e) - e) eqn:Hn;
    [done | lia | done].
Qed.

Lemma shr_fexp_shift (m : positive) e l (n : positive) :
  fexp 53 1024 (Z.pos (digits2_pos m) + e) - e = Z.pos n ->
  shr_fexp 53 1024 (Z.pos m) e l
  = (SpecFloat.iter_pos shr_1 n (shr_record_of_loc (Z.pos m) l), e + Z.pos n).
Proof. intros Hn. unfold shr_fexp, shr. cbn [Zdigits2]. by rewrite Hn. Qed.

(** Rounding a mantissa that fits: nothing changes. *)
Lemma binary_round_aux_keep (m : positive) e :
  fexp 53 1024 (Z.pos (digits2_pos m) + e) <= e ->
  e <= 971 ->
  binary_round_aux 53 1024 false (Z.pos m) e loc_Exact = S754_finite false m e.
Proof.
  intros Hfits He. unfold binary_round_aux.
  rewrite shr_fexp_keep by done.
  cbn [shr_record_of_loc shr_m loc_of_shr_record round_nearest_even].
  rewrite shr_fexp_keep by done. cbn [shr_record_of_loc shr_m].
  change (1024 - 53) with 971. apply Z.leb_le in He. by rewrite He.
Qed.

End Binary64.

Section Binary64Rounding.

(** Rounding a mantissa of more than 53 bits, in the normal range: the
    mantissa is divided by the power of two that leaves 53 bits, and
    rounded to that quotient or to the next integer; when the bits
    divided away are zero it is the quotient.  A rounded mantissa of
    [2 ^ 53] is renormalised to [2 ^ 52] with the next exponent. *)
Lemma binary_round_aux_shift (m : positive) e :
  let digits := Z.pos (digits2_pos m) in
  let quotient := Z.pos m / 2 ^ (digits - 53) in
  53 < digits ->
  -1074 <= digits + e - 53 ->
  digits + e - 52 <= 971 ->
  exists mz ez rounded,
    binary_round_aux 53 1024 false (Z.pos m) e loc_Exact = S754_finite false mz ez /\
    2 ^ 52 <= quotient < 2 ^ 53 /\
    quotient <= rounded <= quotient + 1 /\
    (Z.pos m mod 2 ^ (digits - 53) = 0 -> rounded = quotient) /\
    ((ez = digits + e - 53 /\ Z.pos mz = rounded /\ rounded < 2 ^ 53) \/
     (ez = digits + e - 52 /\ Z.pos mz = 2 ^ 52 /\ rounded = 2 ^ 53)).
Proof.
  intros digits quotient Hdigits Hnormal Hmax.
  destruct (digits - 53) as [|n|n] eqn:Hn; [lia | | lia].
  assert (Hfexp : fexp 53 1024 (digits + e) - e = Z.pos n).
  { rewrite fexp_normal by lia. lia. }
  unfold binary_round_aux. fold digits. rewrite (shr_fexp_shift m e loc_Exact n Hfexp).
  cbn [shr_record_of_loc].
  destruct (iter_pos_shifts n {| shr_m := Z.pos m; shr_r := false; shr_s := false |})
    as (_ & Hdiv & Hexact); [cbn; lia |].
  cbn [shr_m] in Hdiv, Hexact. fold quotient in Hdiv.
  set (mrs := SpecFloat.iter_pos shr_1 n _) in *.
  assert (Hquotient : 2 ^ 52 <= quotient < 2 ^ 53).
  { pose proof (digits2_pos_bounds m) as [Hlo Hhi]. fold digits in Hlo, Hhi.
    replace (digits - 1) with (Z.pos n + 52) in Hlo by lia.
    replace digits with (Z.pos n + 53) in Hhi by lia.
    rewrite Z.pow_add_r in Hlo, Hhi by lia.
    assert (0 < 2 ^ Z.pos n) by (apply Z.pow_pos_nonneg; lia).
    unfold quotient. split.
    - apply Z.div_le_lower_bound; lia.
    - apply Z.div_lt_upper_bound; lia. }
  pose proof (round_nearest_even_bounds (shr_m mrs) (loc_of_shr_record mrs))
    as Hrounded.
  set (rounded := round_nearest_even (shr_m mrs) (loc_of_shr_record mrs)) in *.
  rewrite Hdiv in Hrounded.
  assert (Hzero : Z.pos m mod 2 ^ Z.pos n = 0 -> rounded = quotient).
  { intros Hmod. unfold rounded.
    rewrite (exact_location mrs) by (by apply Hexact). by rewrite Hdiv. }
  destruct rounded as [|p|p] eqn:Hp; [lia | | lia].
  destruct (Z_lt_le_dec (Z.pos p) (2 ^ 53)) as [Hlt|Hge].
  - assert (Hd : Z.pos (digits2_pos p) = 53) by (apply digits2_pos_unique; lia).
    rewrite shr_fexp_keep by (rewrite Hd, fexp_normal; lia).
    cbn [shr_record_of_loc shr_m]. change (1024 - 53) with 971.
    replace (e + Z.pos n <=? 971) with true by (symmetry; apply Z.leb_le; lia).
    exists p, (e + Z.pos n), (Z.pos p). split_and!; try done; lia.
  - assert (p = 9007199254740992%positive) as -> by lia.
    rewrite (shr_fexp_shift _ _ loc_Exact 1); last first.
    { change (Z.pos (digits2_pos 9007199254740992)) with 54.
      rewrite fexp_normal by lia. lia. }
    cbn [shr_record_of_loc SpecFloat.iter_pos shr_1 shr_m].
    change (1024 - 53) with 971.
    replace (e + Z.pos n + 1 <=? 971) with true by (symmetry; apply Z.leb_le; lia).
    exists 4503599627370496%positive, (e + Z.pos n + 1), (2 ^ 53).
    split_and!; try done; lia.
Qed.

End Binary64Rounding.

Section Binary64Arithmetic.

Lemma unit_interval_finite s m e :
  unit_interval (S754_finite s m e) = true ->
  s = false /\ e <= -53 /\ Z.pos (digits2_pos m) <= 53 /\ Z.pos m < 2 ^ (- e).
Proof.
  unfold unit_interval, f64_leb, f64_ltb, f64_zero, f64_one, SFleb, SFltb.
  cbn [valid_binary SFcompare]. unfold bounded, canonical_mantissa.
  rewrite !andb_true_iff. intros [[[Hcanonical Hmax] Hsign] Hless].
  apply Z.eqb_eq in Hcanonical.
  destruct s; [done |]. split; [done |].
  unfold fexp, emin in Hcanonical.
  assert (Hdigits : Z.pos (digits2_pos m) <= 53) by lia.
  assert (He : e <= -53).
  { destruct (Z.compare_spec e (-52)) as [->|Hlt|Hgt]; [| lia | done].
    assert (Z.pos (digits2_pos m) = 53) as Hd by lia.
    pose proof (digits2_pos_bounds m) as [Hlo _]. rewrite Hd in Hlo.
    change (2 ^ (53 - 1)) with 4503599627370496 in Hlo.
    destruct (PosDef.Pos.compare_cont Eq m 4503599627370496) eqn:Hcompare;
      [done | | done].
    pose proof (proj1 (Pos.compare_lt_iff m 4503599627370496) Hcompare) as Hlt.
    apply Pos2Z.pos_lt_pos in Hlt. clear -Hlo Hlt. lia. }
  split; [done |]. split; [done |].
  pose proof (digits2_pos_bounds m) as [_ Hhi].
  assert (2 ^ Z.pos (digits2_pos m) <= 2 ^ (- e)) by (apply Z.pow_le_mono_r; lia).
  lia.
Qed.

Lemma f64_add_one r :
  unit_interval r = true -> between_one_and_two (f64_add r f64_one).
Proof.
  destruct r as [s|s| |s m e].
  2: { by destruct s. }
  2: { done. }
  - intros _. exists 4503599627370496%positive, (-52).
    split; [by destruct s |]. left. split; [done |]. done.
  - intros (-> & He & Hdigits & Hm)%unit_interval_finite.
    unfold f64_add, f64_one, SFadd.
    replace (Z.min e (-52)) with e by lia.
    unfold shl_align at 1. rewrite Z.sub_diag. cbn [fst cond_Zopp].
    unfold shl_align at 1.
    destruct (e - -52) as [|d|d] eqn:Hd; [lia | lia |]. cbn [fst].
    rewrite <- Pos2Z.inj_add. cbn [binary_normalize].
    set (sum := (m + Pos.iter xO 4503599627370496 d)%positive).
    assert (Hsum : Z.pos sum = Z.pos m + 2 ^ (- e)).
    { unfold sum. rewrite Pos2Z.inj_add, Pos_iter_xO.
      change (Z.pos 4503599627370496) with (2 ^ 52).
      rewrite <- Z.pow_add_r by lia. f_equal. f_equal. lia. }
    assert (Hsum_digits : Z.pos (digits2_pos sum) = 1 - e).
    { apply digits2_pos_unique. rewrite Hsum.
      replace (1 - e - 1) with (- e) by lia.
      replace (1 - e) with (Z.succ (- e)) by lia.
      rewrite Z.pow_succ_r by lia. lia. }
    unfold binary_round. rewrite Hsum_digits.
    replace (1 - e + e) with 1 by lia. change (fexp 53 1024 1) with (-52).
    unfold shl_align.
    destruct (-52 - e) as [|k|k] eqn:Hk; [lia | | lia].
    destruct (binary_round_aux_shift sum e)
      as (mz & ez & rounded & -> & Hquotient & Hrounded & _ & Hresult);
      [lia | lia | lia |].
    rewrite Hsum_digits in Hresult.
    exists mz, ez. split; [done |].
    destruct Hresult as [(-> & -> & Hlt)|(-> & -> & _)]; [left | right]; lia.
Qed.

End Binary64Arithmetic.

Section Binary64Durations.

Lemma float64_of_int64_represents d :
  0 < d <= 2 ^ 53 -> represents (float64_of_int64 d) d.
Proof.
  intros [Hpos Hmax]. destruct d as [|pd|pd]; [lia | | lia].
  unfold float64_of_int64. cbn [binary_normalize]. unfold binary_round.
  pose proof (digits2_pos_bounds pd) as [Hlo Hhi].
  set (digits := Z.pos (digits2_pos pd)) in *.
  assert (Hdigits : 1 <= digits <= 54).
  { split; [unfold digits; lia |].
    destruct (Z_lt_le_dec 54 digits) as [Hbig|]; [| lia].
    assert (2 ^ 54 <= 2 ^ (digits - 1)) by (apply Z.pow_le_mono_r; lia).
    change (2 ^ 54) with 18014398509481984 in *.
    change (2 ^ 53) with 9007199254740992 in *. lia. }
  rewrite Z.add_0_r, fexp_normal by lia.
  unfold shl_align. rewrite Z.sub_0_r.
  destruct (digits - 53) as [|k|k] eqn:Hk.
  - (* 53 bits: the integer is its own mantissa *)
    rewrite binary_round_aux_keep by (fold digits; rewrite ?fexp_normal; lia).
    exists pd, 0. replace (digits - 1) with 52 in Hlo by lia.
    replace digits with 53 in Hhi by lia.
    split_and!; try done; lia.
  - (* 54 bits: the integer is 2 ^ 53 *)
    assert (digits = 54) as Hd by lia.
    assert (Z.pos pd = 2 ^ 53) as Hpd.
    { rewrite Hd in Hlo. change (2 ^ (54 - 1)) with (2 ^ 53) in Hlo. lia. }
    assert (pd = 9007199254740992%positive) as ->.
    { apply Pos2Z.inj. rewrite Hpd. reflexivity. }
    exists 4503599627370496%positive, 1. split; [reflexivity |].
    split_and!; try done; lia.
  - (* fewer bits: the integer is shifted left *)
    set (shifted := Pos.iter xO pd k).
    assert (Hshifted : Z.pos shifted = Z.pos pd * 2 ^ Z.pos k)
      by apply Pos_iter_xO.
    assert (Hpow : 2 ^ 52 = 2 ^ (digits - 1) * 2 ^ Z.pos k).
    { rewrite <- Z.pow_add_r by lia. f_equal. lia. }
    assert (Hpow' : 2 ^ 53 = 2 ^ digits * 2 ^ Z.pos k).
    { rewrite <- Z.pow_add_r by lia. f_equal. lia. }
    assert (0 < 2 ^ Z.pos k) by (apply Z.pow_pos_nonneg; lia).
    assert (Hbounds : 2 ^ 52 <= Z.pos shifted < 2 ^ 53).
    { rewrite Hshifted, Hpow, Hpow'. split; nia. }
    assert (Hd : Z.pos (digits2_pos shifted) = 53)
      by (apply digits2_pos_unique; change (53 - 1) with 52; lia).
    rewrite binary_round_aux_keep by (rewrite ?Hd, ?fexp_normal; lia).
    exists shifted, (Z.neg k). split; [done |].
    split_and!; try lia.
    rewrite Hshifted, <- Z.mul_assoc, <- Z.pow_add_r by lia.
    f_equal. f_equal. lia.
Qed.


Lemma int64_of_float64_range mz ez d :
  0 < d <= 2 ^ 53 ->
  -52 <= ez <= 3 ->
  d * 2 ^ 52 <= Z.pos mz * 2 ^ (ez + 52) <= 2 * d * 2 ^ 52 ->
  d <= int64_of_float64 (S754_finite false mz ez) <= 2 * d.
Proof.
  intros Hd Hez Hvalue.
  unfold int64_of_float64, truncate, cond_Zopp.
  set (n := if 0 <=? ez then Z.pos mz * 2 ^ ez else Z.pos mz / 2 ^ (- ez)).
  assert (Hn : d <= n <= 2 * d).
  { unfold n. destruct (Z.leb_spec 0 ez) as [Hnonneg|Hneg].
    - rewrite Z.pow_add_r in Hvalue by lia.
      assert (0 < 2 ^ ez) by (apply Z.pow_pos_nonneg; lia).
      change (2 ^ 52) with 4503599627370496 in *. nia.
    - assert (Hsplit : 2 ^ 52 = 2 ^ (ez + 52) * 2 ^ (- ez)).
      { rewrite <- Z.pow_add_r by lia. f_equal. lia. }
      assert (0 < 2 ^ (ez + 52)) by (apply Z.pow_pos_nonneg; lia).
      assert (0 < 2 ^ (- ez)) by (apply Z.pow_pos_nonneg; lia).
      rewrite Hsplit in Hvalue. clear Hsplit.
      set (a := 2 ^ (ez + 52)) in *. set (b := 2 ^ (- ez)) in *.
      assert (d * b <= Z.pos mz <= 2 * d * b) by (clearbody a b; nia).
      split.
      + apply Z.div_le_lower_bound; lia.
      + apply Z.div_le_upper_bound; lia. }
  unfold int64_min, int64_max.
  change (2 ^ 53) with 9007199254740992 in Hd.
  change (2 ^ 63) with 9223372036854775808.
  match goal with
  | |- context [if ?c then _ else _] => replace c with true; [exact Hn |]
  end.
  symmetry. apply andb_true_iff. split; apply Z.leb_le; lia.
Qed.

End Binary64Durations.

Section Binary64Product.

Lemma f64_mul_range x d y :
  0 < d ->
  represents x d ->
  between_one_and_two y ->
  exists mz ez,
    f64_mul x y = S754_finite false mz ez /\
    -52 <= ez <= 3 /\
    d * 2 ^ 52 <= Z.pos mz * 2 ^ (ez + 52) <= 2 * d * 2 ^ 52.
Proof.
  intros Hd (md & ed & -> & Hed & Hmd & Hvalue) (mf & ef & -> & Hfactor).
  unfold f64_mul, SFmul. cbn [xorb].
  set (product := (md * mf)%positive).
  assert (Hproduct : Z.pos product = Z.pos md * Z.pos mf) by apply Pos2Z.inj_mul.
  set (unit := 2 ^ (ed + 52)) in *.
  assert (Hunit : 0 < unit) by (apply Z.pow_pos_nonneg; lia).
  assert (Hnext : 2 ^ (ed + 1 + 52) = 2 * unit).
  { unfold unit. replace (ed + 1 + 52) with (Z.succ (ed + 52)) by lia.
    apply Z.pow_succ_r. lia. }
  change (2 ^ 52) with 4503599627370496 in *.
  change (2 ^ 53) with 9007199254740992 in *.
  destruct Hfactor as [[-> Hmf]|[-> Hmf]].
  - destruct (Z_lt_le_dec (Z.pos product) (2 ^ 105)) as [Hsmall|Hlarge].
    + (* the product has 105 bits *)
      assert (Hdigits : Z.pos (digits2_pos product) = 105).
      { apply digits2_pos_unique. change (2 ^ (105 - 1)) with (2 ^ 52 * 2 ^ 52).
        change (2 ^ 52) with 4503599627370496. nia. }
      destruct (binary_round_aux_shift product (ed + -52))
        as (mz & ez & rounded & -> & _ & Hrounded & _ & Hresult);
        [lia | lia | lia |].
      rewrite Hdigits in Hrounded, Hresult.
      change (2 ^ (105 - 53)) with 4503599627370496 in Hrounded.
      change (2 ^ 52) with 4503599627370496 in *.
      change (2 ^ 53) with 9007199254740992 in *.
      assert (Hquotient : Z.pos md <= Z.pos product / 4503599627370496 < 2 * Z.pos md).
      { split; [apply Z.div_le_lower_bound | apply Z.div_lt_upper_bound]; nia. }
      exists mz, ez. split; [done |].
      destruct Hresult as [(-> & -> & _)|(-> & -> & Hfull)].
      * replace (105 + (ed + -52) - 53 + 52) with (ed + 52) by lia.
        fold unit. split; [lia | nia].
      * replace (105 + (ed + -52) - 52 + 52) with (ed + 1 + 52) by lia.
        rewrite Hnext. split; [lia | nia].
    + (* the product has 106 bits *)
      assert (Hdigits : Z.pos (digits2_pos product) = 106).
      { apply digits2_pos_unique. change (106 - 1) with 105. split; [done |].
        change (2 ^ 106) with (2 ^ 53 * 2 ^ 53).
        change (2 ^ 53) with 9007199254740992. nia. }
      destruct (binary_round_aux_shift product (ed + -52))
        as (mz & ez & rounded & -> & Hfloor & Hrounded & _ & Hresult);
        [lia | lia | lia |].
      rewrite Hdigits in Hfloor, Hrounded, Hresult.
      change (2 ^ (106 - 53)) with 9007199254740992 in Hfloor, Hrounded.
      change (2 ^ 52) with 4503599627370496 in *.
      change (2 ^ 53) with 9007199254740992 in *.
      assert (Hquotient : Z.pos product / 9007199254740992 < Z.pos md).
      { apply Z.div_lt_upper_bound; nia. }
      exists mz, ez. split; [done |].
      destruct Hresult as [(-> & -> & _)|(-> & -> & Hfull)]; [| lia].
      replace (106 + (ed + -52) - 53 + 52) with (ed + 1 + 52) by lia.
      rewrite Hnext. split; [lia | nia].
  - (* the factor is 2 *)
    assert (Hexact : Z.pos product = Z.pos md * 2 ^ 52) by (by rewrite Hproduct, Hmf).
    assert (Hdigits : Z.pos (digits2_pos product) = 105).
    { apply digits2_pos_unique. rewrite Hexact.
      change (2 ^ (105 - 1)) with (4503599627370496 * 2 ^ 52).
      change (2 ^ 105) with (9007199254740992 * 2 ^ 52).
      change (2 ^ 52) with 4503599627370496. nia. }
    destruct (binary_round_aux_shift product (ed + -51))
      as (mz & ez & rounded & -> & _ & _ & Hzero & Hresult);
      [lia | lia | lia |].
    rewrite Hdigits in Hzero, Hresult.
    change (105 - 53) with 52 in Hzero.
    rewrite Hexact, Z.mod_mul, Z.div_mul in Hzero by done.
    specialize (Hzero eq_refl).
    exists mz, ez. split; [done |].
    change (2 ^ 52) with 4503599627370496 in *.
    change (2 ^ 53) with 9007199254740992 in *.
    destruct Hresult as [(-> & -> & _)|(-> & -> & Hfull)]; [| lia].
    replace (105 + (ed + -51) - 53 + 52) with (ed + 1 + 52) by lia.
    rewrite Hnext, Hzero. split; [lia | nia].
Qed.

(** The duration computed from a draw from 0 up to, not including, 1
    lies from the minimum resync period to twice that period, for a
    period that a binary64 number holds exactly. *)
Lemma ResyncPeriod_at_range d r :
  0 < d <= 2 ^ 53 ->
  unit_interval r = true ->
  d <= ResyncPeriod_at d r <= 2 * d.
Proof.
  intros Hd Hr. unfold ResyncPeriod_at.
  destruct (f64_mul_range (float64_of_int64 d) d (f64_add r f64_one))
    as (mz & ez & -> & Hez & Hvalue);
    [lia | by apply float64_of_int64_represents | by apply f64_add_one |].
  by apply int64_of_float64_range.
Qed.

End Binary64Product.

(** ** Resync periods *)

Section ResyncProperties.
Context {World : Type} `{!Platform World}.

(** C7, amended: for a configuration whose minimum resync period [d] is
    positive and at most [2 ^ 53] nanoseconds, two invocations in a row
    of the closure that [ResyncPeriod] returns each take a draw of
    their own from the random source, one after the other; each
    returns the product of [d] and 1 plus its own draw, computed in
    binary64 and cut to an integer; and when the draws lie from 0 up
    to, not including, 1, each result lies from [d] to [2 * d], both
    ends included. *)
Theorem ResyncPeriod_draws_anew_within_closed_range
    (c : CompletedConfig) (p : Proc World) (r1 r2 : float64) (w1 w2 : World) :
  let d := MinResyncPeriod (Generic (cfgComponentConfig c)) in
  0 < d <= 2 ^ 53 ->
  rand_Float64 (world p) = (r1, w1) ->
  rand_Float64 w1 = (r2, w2) ->
  unit_interval r1 = true ->
  unit_interval r2 = true ->
  exists p1 p2,
    ResyncPeriod c p = (Returned (ResyncPeriod_at d r1), p1, []) /\
    world p1 = w1 /\
    ResyncPeriod c p1 = (Returned (ResyncPeriod_at d r2), p2, []) /\
    world p2 = w2 /\
    d <= ResyncPeriod_at d r1 <= 2 * d /\
    d <= ResyncPeriod_at d r2 <= 2 * d.
Proof.
  intros d Hd Hfirst Hsecond Hr1 Hr2.
  eexists _, _. split_and!.
  - unfold ResyncPeriod, bind, call, ret. rewrite Hfirst. reflexivity.
  - reflexivity.
  - unfold ResyncPeriod, bind, call, ret. cbn [world]. rewrite Hsecond.
    reflexivity.
  - reflexivity.
  - apply ResyncPeriod_at_range; assumption.
  - apply ResyncPeriod_at_range; assumption.
  - apply ResyncPeriod_at_range; assumption.
  - apply ResyncPeriod_at_range; assumption.
Qed.

End ResyncProperties.

(** With twelve hours as the minimum and the draws 0 and one half, the
    first invocation returns twelve hours and the second eighteen. *)
Lemma ResyncPeriod_draws_witness :
  unit_interval f64_zero = true /\
  unit_interval draw_half = true /\
  exists p1 p2,
    ResyncPeriod (World := TestWorld) (test_config ["*"])
      (start_proc (drawing_world [f64_zero; draw_half]))
    = (Returned (12 * 3600 * Second), p1, []) /\
    ResyncPeriod (World := TestWorld) (test_config ["*"]) p1
    = (Returned (18 * 3600 * Second), p2, []) /\
    tw_draws (world p2) = [].
Proof.
  destruct (ResyncPeriod_draws_anew_within_closed_range
              (test_config ["*"])
              (start_proc (drawing_world [f64_zero; draw_half]))
              f64_zero draw_half
              (drawing_world [draw_half]) (drawing_world []))
    as (p1 & p2 & Hfirst & Hw1 & Hsecond & Hw2 & _);
    [vm_compute; split; [reflexivity | discriminate]
    | reflexivity | reflexivity | reflexivity | reflexivity |].
  split; [reflexivity |]. split; [reflexivity |].
  exists p1, p2. split; [exact Hfirst |]. split; [exact Hsecond |].
  rewrite Hw2. reflexivity.
Defined.

(** The draw [1 - 2^-53] makes the factor round to 2, so that the
    result is twice the minimum and not below it; and a minimum of
    [2 ^ 53 + 1] nanoseconds, which binary64 does not hold, gives with
    the draw 0 a result below the minimum. *)
Lemma ResyncPeriod_reaches_twice_the_minimum :
  unit_interval draw_last = true /\
  (ResyncPeriod (World := TestWorld) (resync_config Second)
     (start_proc (drawing_world [draw_last]))).1.1
  = Returned (2 * Second) /\
  unit_interval f64_zero = true /\
  (ResyncPeriod (World := TestWorld) (resync_config (2 ^ 53 + 1))
     (start_proc (drawing_world [f64_zero]))).1.1
  = Returned (2 ^ 53).
Proof. split_and!; vm_compute; reflexivity. Qed.

(** ** Discovery: what the result depends on *)

Lemma count_slash_app a b :
  count_slash (a ++ b) = (count_slash a + count_slash b)%nat.
Proof.
  induction a as [|c a IH]; [done |].
  change (count_slash (String c (a ++ b))
          = (count_slash (String c a) + count_slash b)%nat).
  cbn [count_slash]. destruct (Ascii.eqb c "/"); [by rewrite IH | done].
Qed.

Lemma cut_slash_join g v :
  count_slash g = 0%nat -> cut_slash (g ++ "/" ++ v) = (g, v).
Proof.
  induction g as [|c g IH]; [done |].
  change (count_slash (String c g) = 0%nat ->
          cut_slash (String c (g ++ "/" ++ v)) = (String c g, v)).
  cbn [count_slash cut_slash].
  destruct (Ascii.eqb c "/"); [done |]. intros Hg. by rewrite (IH Hg).
Qed.

Lemma ParseGroupVersion_joined g v :
  count_slash g = 0%nat -> count_slash v = 0%nat ->
  ParseGroupVersion (g ++ "/" ++ v) = inl {| gvGroup := g; gvVersion := v |}.
Proof.
  intros Hg Hv. unfold ParseGroupVersion.
  destruct ((String.length (g ++ "/" ++ v) =? 0)%nat || String.eqb (g ++ "/" ++ v) "/")
    eqn:Hspecial.
  - apply orb_true_iff in Hspecial as [Hlen|Heq].
    + destruct g; discriminate Hlen.
    + apply String.eqb_eq in Heq. destruct g as [|c g].
      * change (String "/" v = String "/" "") in Heq. by injection Heq as ->.
      * change (String c (g ++ "/" ++ v) = String "/" "") in Heq.
        injection Heq as -> _. discriminate Hg.
  - rewrite count_slash_app.
    change (count_slash ("/" ++ v)) with (S (count_slash v)).
    rewrite Hg, Hv. cbn [Nat.add]. by rewrite cut_slash_join.
Qed.

Lemma ParseGroupVersion_plain v :
  count_slash v = 0%nat ->
  ParseGroupVersion v = inl {| gvGroup := ""; gvVersion := v |}.
Proof.
  intros Hv. unfold ParseGroupVersion.
  destruct ((String.length v =? 0)%nat || String.eqb v "/") eqn:Hspecial.
  - apply orb_true_iff in Hspecial as [Hlen|Heq].
    + by destruct v.
    + apply String.eqb_eq in Heq. by subst v.
  - by rewrite Hv.
Qed.

Lemma ParseGroupVersion_error gv err :
  ParseGroupVersion gv = inr err ->
  err = ErrUnexpectedGroupVersion gv /\ (2 <= count_slash gv)%nat.
Proof.
  unfold ParseGroupVersion.
  destruct ((String.length gv =? 0)%nat || String.eqb gv "/"); [done |].
  destruct (count_slash gv) as [|[|n]]; [done | by destruct (cut_slash gv) |].
  intros [= <-]. split; [done | lia].
Qed.

Lemma served_same_lists resourceMap resourceMap' gvr :
  (forall l, l ∈ resourceMap -> l ∈ resourceMap') ->
  served resourceMap gvr -> served resourceMap' gvr.
Proof.
  intros Hsub (l & r & version & Hl & Hr & Hv & ->).
  exists l, r, version. auto.
Qed.

Lemma collect_resources_first_error resourceMap allResources err :
  collect_resources resourceMap allResources = inr err ->
  exists before apiResourceList rest,
    resourceMap = (before ++ apiResourceList :: rest)%list /\
    Forall (fun l => exists version, ParseGroupVersion (ListGroupVersion l) = inl version)
      before /\
    ParseGroupVersion (ListGroupVersion apiResourceList) = inr err.
Proof.
  revert allResources.
  induction resourceMap as [|apiResourceList rest IH]; intros allResources; [done |].
  cbn [collect_resources].
  destruct (ParseGroupVersion (ListGroupVersion apiResourceList)) as [version|e] eqn:Hparse.
  - intros (before & l & rest' & -> & Hbefore & Hl)%IH.
    exists (apiResourceList :: before), l, rest'. split; [done |].
    split; [| done]. constructor; eauto.
  - intros [= <-]. exists [], apiResourceList, rest. split; [done |].
    split; [constructor | done].
Qed.

Lemma GetAvailableResources_success resourceMap err allResources :
  (GetAvailableResources (resourceMap, err)).1 = inl allResources <->
  resourceMap <> [] /\ collect_resources resourceMap ∅ = inl allResources.
Proof.
  unfold GetAvailableResources. destruct resourceMap as [|l rest].
  - split; [done | by intros [? _]].
  - change (length (l :: rest) =? 0)%nat with false. cbn [fst]. split; [done | tauto].
Qed.

Lemma collect_resources_from_empty resourceMap allResources gvr :
  collect_resources resourceMap ∅ = inl allResources ->
  (allResources !! gvr = Some true <-> served resourceMap gvr) /\
  allResources !! gvr <> Some false.
Proof.
  intros Hresult.
  destruct (collect_resources_lookup _ _ _ gvr Hresult) as [Hiff Htrue]. split.
  - rewrite Hiff, lookup_empty. split; [by intros [?|?] | by left].
  - apply Htrue. intros k. by rewrite lookup_empty.
Qed.

Lemma GetAvailableResources_error_kind response e :
  (GetAvailableResources response).1 = inr e ->
  e = ErrNoSupportedResources \/ exists gv, e = ErrUnexpectedGroupVersion gv.
Proof.
  destruct response as [[|l rest] err]; unfold GetAvailableResources.
  - intros [= <-]. by left.
  - change (length (l :: rest) =? 0)%nat with false. cbn [fst].
    intros (before & bad & rest' & _ & _ & Hbad)%collect_resources_first_error.
    apply ParseGroupVersion_error in Hbad as [-> _]. eauto.
Qed.

(** The map [GetAvailableResources] returns depends on which resource
    lists the discovery client returned, and neither on their order nor
    on how often a list occurs: two responses with the same lists lead
    to the same map, whatever the discovery errors next to them. *)
Theorem GetAvailableResources_ignores_order_and_repetition
    (resourceMap resourceMap' : list APIResourceList) (err err' : option error)
    (allResources : gmap GroupVersionResource bool) :
  (forall l, l ∈ resourceMap <-> l ∈ resourceMap') ->
  (GetAvailableResources (resourceMap, err)).1 = inl allResources ->
  (GetAvailableResources (resourceMap', err')).1 = inl allResources.
Proof.
  intros Hsame [Hnonempty Hresult]%GetAvailableResources_success.
  apply GetAvailableResources_success. split.
  { destruct resourceMap as [|l rest]; [done |]. intros ->.
    by apply (not_elem_of_nil l), Hsame; left. }
  destruct (collect_resources resourceMap' ∅) as [allResources'|e] eqn:Hresult'.
  - f_equal. apply map_eq. intros gvr.
    destruct (collect_resources_from_empty _ _ gvr Hresult) as [Hiff Htrue].
    destruct (collect_resources_from_empty _ _ gvr Hresult') as [Hiff' Htrue'].
    assert (Hserved : served resourceMap gvr <-> served resourceMap' gvr).
    { split; apply served_same_lists; intros l; apply Hsame. }
    rewrite Hserved in Hiff. rewrite <- Hiff' in Hiff.
    destruct (allResources' !! gvr) as [[|]|], (allResources !! gvr) as [[|]|];
      try done.
    + exfalso. by assert ((None : option bool) = Some true) by (by apply Hiff).
    + exfalso. by assert ((None : option bool) = Some true) by (by apply Hiff).
  - exfalso.
    assert (Hbad : Exists malformed resourceMap').
    { apply (collect_resources_fails _ ∅). eauto. }
    apply Exists_exists in Hbad as (x & Hx & Hmal).
    assert (Hbad : Exists malformed resourceMap).
    { apply Exists_exists. exists x. split; [by apply Hsame | done]. }
    apply (collect_resources_fails _ ∅) in Hbad as [e' He']. congruence.
Qed.

(** The statement at two responses that list the same two groups: one
    in the order core, apps, the other with apps twice and a discovery
    error next to it. *)
Lemma GetAvailableResources_ignores_order_witness :
  exists allResources,
    (GetAvailableResources ([core_v1; apps_v1], None)).1 = inl allResources /\
    (GetAvailableResources
       ([apps_v1; core_v1; apps_v1], Some (ErrExternal "partial"))).1
    = inl allResources.
Proof.
  eexists. split; [reflexivity |].
  apply (GetAvailableResources_ignores_order_and_repetition
           [core_v1; apps_v1] [apps_v1; core_v1; apps_v1]
           None (Some (ErrExternal "partial"))).
  - intros l. rewrite !elem_of_cons. tauto.
  - reflexivity.
Defined.

(** A resource that a returned list names is found in the result of
    [GetAvailableResources] under the group and version that the group
    version string of its list joins with a slash, and under the core
    group (the empty one) when that string has no slash. *)
Theorem GetAvailableResources_finds_listed_resource
    (resourceMap : list APIResourceList) (err : option error)
    (allResources : gmap GroupVersionResource bool)
    (apiResourceList : APIResourceList) (apiResource : APIResource)
    (group version : string) :
  (GetAvailableResources (resourceMap, err)).1 = inl allResources ->
  apiResourceList ∈ resourceMap ->
  apiResource ∈ APIResources apiResourceList ->
  count_slash group = 0%nat ->
  count_slash version = 0%nat ->
  (ListGroupVersion apiResourceList = (group ++ "/" ++ version)%string ->
   allResources !! {| Group := group; Version := version;
                      Resource := APIResourceName apiResource |} = Some true) /\
  (ListGroupVersion apiResourceList = version ->
   allResources !! {| Group := ""; Version := version;
                      Resource := APIResourceName apiResource |} = Some true).
Proof.
  intros [_ Hresult]%GetAvailableResources_success Hlist Hresource Hgroup Hversion.
  split; intros Hgv; apply (collect_resources_from_empty _ _ _ Hresult).
  - exists apiResourceList, apiResource, {| gvGroup := group; gvVersion := version |}.
    split_and!; try done. rewrite Hgv. by apply ParseGroupVersion_joined.
  - exists apiResourceList, apiResource, {| gvGroup := ""; gvVersion := version |}.
    split_and!; try done. rewrite Hgv. by apply ParseGroupVersion_plain.
Qed.

(** The statement at the response of a healthy server: deployments are
    found under the group apps, version v1, and pods under the core
    group. *)
Lemma GetAvailableResources_finds_witness :
  exists allResources,
    (GetAvailableResources ([core_v1; apps_v1], None)).1 = inl allResources /\
    allResources !! {| Group := "apps"; Version := "v1"; Resource := "deployments" |}
    = Some true.
Proof.
  eexists. split; [reflexivity |].
  refine (proj1 (GetAvailableResources_finds_listed_resource
                   [core_v1; apps_v1] None _ apps_v1
                   {| APIResourceName := "deployments" |} "apps" "v1"
                   eq_refl _ _ eq_refl eq_refl) eq_refl).
  - rewrite !elem_of_cons. tauto.
  - apply list_elem_of_singleton. reflexivity.
Defined.

(** When [GetAvailableResources] fails, the error is the one for an
    empty response, or it is the error of the first returned list whose
    group version has two slashes or more, and names that group
    version; the lists after that one are not looked at. *)
Theorem GetAvailableResources_reports_first_malformed_group_version
    (resourceMap : list APIResourceList) (err : option error) (e : error) :
  (GetAvailableResources (resourceMap, err)).1 = inr e ->
  (resourceMap = [] /\ e = ErrNoSupportedResources) \/
  (exists before apiResourceList rest,
     resourceMap = (before ++ apiResourceList :: rest)%list /\
     Forall (fun l => (count_slash (ListGroupVersion l) < 2)%nat) before /\
     (2 <= count_slash (ListGroupVersion apiResourceList))%nat /\
     e = ErrUnexpectedGroupVersion (ListGroupVersion apiResourceList) /\
     forall rest' err',
       (GetAvailableResources
          ((before ++ apiResourceList :: rest')%list, err')).1 = inr e).
Proof.
  unfold GetAvailableResources. destruct resourceMap as [|l rest].
  - intros [= <-]. by left.
  - change (length (l :: rest) =? 0)%nat with false. cbn [fst].
    intros (before & bad & rest' & Hsplit & Hbefore & Hbad)%collect_resources_first_error.
    right. exists before, bad, rest'.
    destruct (ParseGroupVersion_error _ _ Hbad) as [-> Hslashes].
    split_and!; try done.
    + eapply Forall_impl; [exact Hbefore |]. intros x [version Hx]. cbn.
      destruct (decide (count_slash (ListGroupVersion x) < 2)%nat) as [|Hmany];
        [done |]. exfalso. unfold ParseGroupVersion in Hx.
      destruct ((String.length _ =? 0)%nat || String.eqb _ "/") eqn:Hspecial.
      * apply orb_true_iff in Hspecial as [Hlen|Heq].
        -- destruct (ListGroupVersion x); [cbn in Hmany; lia | discriminate Hlen].
        -- apply String.eqb_eq in Heq. rewrite Heq in Hmany. cbn in Hmany. lia.
      * destruct (count_slash (ListGroupVersion x)) as [|[|n]]; [lia | lia | done].
    + intros rest'' err'.
      assert (Hlen : (length (before ++ bad :: rest'') =? 0)%nat = false).
      { rewrite length_app. cbn. apply Nat.eqb_neq. lia. }
      rewrite Hlen. cbn [fst].
      clear -Hbefore Hbad. generalize (∅ : gmap GroupVersionResource bool).
      induction Hbefore as [|x before [version Hx] _ IH]; intros acc; cbn.
      * by rewrite Hbad.
      * rewrite Hx. apply IH.
Qed.

(** The statement at a response whose second list is malformed. *)
Lemma GetAvailableResources_reports_witness :
  exists before apiResourceList rest,
    [core_v1; {| ListGroupVersion := "a/b/c"; APIResources := [] |}; apps_v1]
    = (before ++ apiResourceList :: rest)%list /\
    ErrUnexpectedGroupVersion "a/b/c"
    = ErrUnexpectedGroupVersion (ListGroupVersion apiResourceList).
Proof.
  destruct (GetAvailableResources_reports_first_malformed_group_version
              [core_v1; {| ListGroupVersion := "a/b/c"; APIResources := [] |}; apps_v1]
              None (ErrUnexpectedGroupVersion "a/b/c") eq_refl)
    as [[Hempty _]|(before & bad & rest & Hsplit & _ & _ & Herr & _)];
    [discriminate Hempty |].
  exists before, bad, rest. split; [exact Hsplit | exact Herr].
Defined.

(** ** Which controllers are enabled *)

Lemma IsControllerEnabled_range_spec name disabled controllers hasStar :
  IsControllerEnabled_range name disabled controllers hasStar = true <->
  (exists before rest,
     controllers = before ++ name :: rest /\
     (name ∉ before) /\ (("-" ++ name)%string ∉ before)) \/
  ((name ∉ controllers) /\ (("-" ++ name)%string ∉ controllers) /\
   (hasStar = true \/ "*" ∈ controllers) /\ (name ∉ disabled)).
Proof.
  revert hasStar.
  induction controllers as [|ctrl rest IH]; intros hasStar.
  - cbn [IsControllerEnabled_range]. split.
    + destruct hasStar; [| done]. cbn [negb]. intros Hon%negb_true_iff.
      apply bool_decide_eq_false in Hon. right.
      split_and!; try apply not_elem_of_nil; [by left | done].
    + intros [(before & rest & Hsplit & _)|(_ & _ & [->|Hstar] & Hon)].
      * by destruct before.
      * cbn [negb]. by apply negb_true_iff, bool_decide_eq_false.
      * by apply not_elem_of_nil in Hstar.
  - cbn [IsControllerEnabled_range].
    destruct (String.eqb ctrl name) eqn:Hname.
    { apply String.eqb_eq in Hname as ->. split; [intros _ | done].
      left. exists [], rest. split_and!; try done; apply not_elem_of_nil. }
    apply String.eqb_neq in Hname.
    destruct (String.eqb ctrl ("-" ++ name)) eqn:Hminus.
    { apply String.eqb_eq in Hminus as ->. split; [done |].
      intros [(before & rest' & Hsplit & Hfirst & Hnot)|(_ & Hnot & _)].
      - destruct before as [|x before]; injection Hsplit as Hhead _; [done |].
        exfalso. apply Hnot. rewrite Hhead. by left.
      - exfalso. apply Hnot. by left. }
    apply String.eqb_neq in Hminus.
    rewrite IH. split.
    + intros [(before & rest' & -> & Hfirst & Hnot)|(Hn & Hm & Hstar & Hon)].
      * left. exists (ctrl :: before), rest'. split; [done |].
        rewrite !not_elem_of_cons. auto.
      * right. rewrite !not_elem_of_cons. split_and!; try done; try by auto.
        rewrite elem_of_cons.
        destruct Hstar as [[Hstar|Hstar]%orb_true_iff|Hstar]; auto.
        apply String.eqb_eq in Hstar. auto.
    + intros [(before & rest' & Hsplit & Hfirst & Hnot)|(Hn & Hm & Hstar & Hon)].
      * left. destruct before as [|x before]; injection Hsplit as Hhead Htail;
          [done |].
        exists before, rest'. split; [done |].
        apply not_elem_of_cons in Hfirst as [_ Hfirst].
        apply not_elem_of_cons in Hnot as [_ Hnot]. done.
      * right. apply not_elem_of_cons in Hn as [_ Hn].
        apply not_elem_of_cons in Hm as [_ Hm]. split_and!; try done.
        rewrite orb_true_iff, String.eqb_eq.
        destruct Hstar as [Hstar|[Hstar|Hstar]%elem_of_cons]; auto.
Qed.

Section EnabledProperties.
Context {World : Type} `{!Platform World}.

(** [IsControllerEnabled] goes by the first entry of the configured
    controller list that names the controller: the controller is on
    when that entry is its name, and off when it is its name after a
    minus sign.  A controller that no entry names is on exactly when
    the list has the entry ["*"]: no controller is disabled by
    default.  With an empty list every controller is off. *)
Theorem IsControllerEnabled_first_mention_decides
    (c : ControllerContext World) (name : string) :
  let controllers := Controllers (Generic (ComponentConfig c)) in
  (IsControllerEnabled c name = true <->
   (exists before rest,
      controllers = before ++ name :: rest /\
      (name ∉ before) /\ (("-" ++ name)%string ∉ before)) \/
   ((name ∉ controllers) /\ (("-" ++ name)%string ∉ controllers) /\
    "*" ∈ controllers)) /\
  (controllers = [] -> IsControllerEnabled c name = false).
Proof.
  intros controllers. unfold IsControllerEnabled. fold controllers. split.
  - rewrite IsControllerEnabled_range_spec. unfold ControllersDisabledByDefault.
    split; (intros [Hfirst|(Hn & Hm & Hstar)]; [by left | right]).
    + destruct Hstar as [[Hstar|Hstar] _]; done.
    + split_and!; [done | done | by right | apply not_elem_of_empty].
  - by intros ->.
Qed.

End EnabledProperties.

(** ** Starting the controllers: mounts, sleeps and log lines *)

(** The projections of a list of events that was put together from
    pieces: each is the projection of the pieces. *)
Ltac fold_projection proj :=
  repeat match goal with
         | |- context [omap ?f ?l] => progress change (omap f l) with (proj l)
         end.

Ltac split_projections :=
  unfold launched_of, mounts_of, prefix_mounts_of, sleeps_of, log_of,
    verbose_log_of, calls_of, returns_of;
  rewrite !omap_app, ?filter_app, ?fmap_app, ?length_app;
  fold_projection mounts_of; fold_projection prefix_mounts_of;
  fold_projection sleeps_of; fold_projection log_of;
  fold_projection verbose_log_of;
  fold_projection calls_of; fold_projection returns_of.

Section StartControllersTrace.
Context {World : Type} `{!Platform World}.
Implicit Types (p : Proc World) (controllerCtx : ControllerContext World).

Lemma mounted_in_pairs_app evs1 evs2 :
  mounted_in_pairs evs1 -> mounted_in_pairs evs2 -> mounted_in_pairs (evs1 ++ evs2).
Proof.
  intros H1 H2 i path h [Hi|[Hlen Hi]]%lookup_app_Some.
  - apply lookup_app_l_Some. by apply H1.
  - apply H2 in Hi. rewrite lookup_app_r by lia.
    by replace (S i - length evs1)%nat with (S (i - length evs1)) by lia.
Qed.

Lemma mounted_in_pairs_quiet evs :
  mounts_of evs = [] -> mounted_in_pairs evs.
Proof.
  intros Hquiet i path h Hi. exfalso.
  assert (Hin : (path, h) ∈ mounts_of evs).
  { unfold mounts_of. apply list_elem_of_omap.
    exists (EvUnlistedHandle path h). split; [| done].
    by eapply list_elem_of_lookup_2. }
  rewrite Hquiet in Hin. by apply not_elem_of_nil in Hin.
Qed.

Lemma slept_and_announced_app evs1 evs2 :
  slept_and_announced evs1 -> slept_and_announced evs2 ->
  slept_and_announced (evs1 ++ evs2).
Proof.
  intros H1 H2 k name [Hk|[Hlen Hk]]%lookup_app_Some.
  - destruct (H1 _ _ Hk) as (j & d & -> & Hj & Hj'). exists j, d.
    split_and!; [done | by apply lookup_app_l_Some..].
  - destruct (H2 _ _ Hk) as (j & d & Heq & Hj & Hj').
    exists (length evs1 + j)%nat, d. split_and!; [lia | |].
    + by rewrite lookup_app_r, Nat.add_comm, Nat.add_sub by lia.
    + rewrite lookup_app_r by lia.
      by replace (S (length evs1 + j) - length evs1)%nat with (S j) by lia.
Qed.

Lemma slept_and_announced_quiet evs :
  calls_of evs = [] -> slept_and_announced evs.
Proof.
  intros Hquiet k name Hk. exfalso.
  apply list_elem_of_lookup_2, elem_of_calls_of in Hk.
  rewrite Hquiet in Hk. by apply not_elem_of_nil in Hk.
Qed.

(** Without a line logged at or below the verbosity in effect, the
    lines written are those logged without a level. *)
Lemma written_at_quiet verbosity evs :
  Forall (fun leveled => verbosity < leveled.1) (verbose_log_of evs) ->
  written_at verbosity evs = log_of evs.
Proof.
  unfold written_at, log_of, verbose_log_of.
  induction evs as [|e evs IH]; [done |].
  destruct e; cbn; try (intros H; by rewrite (IH H)).
  intros [Hlevel H]%Forall_cons. cbn in Hlevel.
  rewrite (proj2 (Z.leb_gt level verbosity)) by done. by apply IH.
Qed.

(** The path under which the debug handler of a controller goes. *)
Lemma debug_events_mounts controllerName ctrl unsecuredMux :
  mounts_of (debug_events controllerName ctrl unsecuredMux)
  = (if unsecuredMux
     then option_list (pair ("/debug/controllers/" ++ controllerName)%string
                         <$> debug_handler ctrl)
     else []) /\
  prefix_mounts_of (debug_events controllerName ctrl unsecuredMux)
  = (fun ph => ((ph.1 ++ "/")%string, ph.2))
      <$> mounts_of (debug_events controllerName ctrl unsecuredMux) /\
  mounted_in_pairs (debug_events controllerName ctrl unsecuredMux) /\
  sleeps_of (debug_events controllerName ctrl unsecuredMux) = [] /\
  log_of (debug_events controllerName ctrl unsecuredMux) = [].
Proof.
  unfold debug_events, debug_handler.
  destruct ctrl as [ctrl|]; [destruct (Debuggable ctrl) as [[h|]|] |];
    destruct unsecuredMux; split_and!; try done;
    try (by apply mounted_in_pairs_quiet).
  intros [|[|i]] path h'; [| done..]. by intros [= <- <-].
Qed.

(** What the events of [StartControllers_range] hold besides the
    initializer calls: the mounts, the sleeps and the log lines. *)
Lemma StartControllers_range_trace controllerCtx unsecuredMux controllers :
  forall controllerChecks p out p' evs,
    StartControllers_range controllerCtx unsecuredMux controllers controllerChecks p
    = (out, p', evs) ->
    mounts_of evs
    = (if unsecuredMux
       then omap (fun nr => pair ("/debug/controllers/" ++ nr.1)%string
                              <$> debug_handler (result_controller nr.2))
              (launched_of evs)
       else []) /\
    prefix_mounts_of evs
    = (fun ph => ((ph.1 ++ "/")%string, ph.2)) <$> mounts_of evs /\
    mounted_in_pairs evs /\
    length (sleeps_of evs) = length (calls_of evs) /\
    filter (fun line => is_disabled_line line = false) (log_of evs)
    = line_of_return <$> returns_of evs /\
    exists processed,
      processed `prefix_of` controllers.*1 /\
      filter (fun line => is_disabled_line line = true) (log_of evs)
      = LogDisabled
          <$> filter (fun name => IsControllerEnabled controllerCtx name = false)
                processed /\
      (forall checks, out = Returned (inl checks) -> processed = controllers.*1).
Proof.
  induction controllers as [|[controllerName initFn] rest IH];
    intros controllerChecks p out p' evs.
  - intros [= <- <- <-]. split_and!; try done; [by destruct unsecuredMux |].
    exists []. by split_and!.
  - rewrite StartControllers_range_cons.
    destruct (IsControllerEnabled controllerCtx controllerName) eqn:Hen.
    + destruct (rand_Float64 (world p)) as [r w1].
      destruct (initFn controllerCtx w1) as [result w2].
      destruct (debug_events_mounts controllerName (result_controller result)
                  unsecuredMux) as (Hdm & Hdp & Hdpairs & Hds & Hdl).
      destruct (debug_events_silent controllerName (result_controller result)
                  unsecuredMux) as (Hdc & Hdr & _).
      destruct (result_err result) as [err|] eqn:Herr.
      * intros [= <- <- <-].
        unfold launched_of, line_of_return. cbn. rewrite Herr.
        rewrite decide_False by (by intros [? _]). cbn.
        split_and!; try done; [by destruct unsecuredMux | by apply mounted_in_pairs_quiet |].
        exists []. split_and!; try done. apply prefix_nil.
      * destruct (result_started result) eqn:Hstarted;
          intros (evs' & Hrest & ->)%after_inv;
          apply IH in Hrest
            as (Hm & Hp & Hpairs & Hs & Hother & processed & Hprefix
                & Hdisabled & Hall).
        -- split_projections.
           rewrite Hdm, Hdp, Hds, Hdl, Hdc, Hdr, Hdm.
           cbn. rewrite !decide_True by done. cbn.
           unfold line_of_return at 1. cbn [fst snd]. rewrite Herr, Hstarted.
           rewrite Hp, Hother, Hdisabled, Hm.
           split_and!.
           ++ destruct unsecuredMux; [| done]. cbn.
              by destruct (debug_handler (result_controller result)).
           ++ done.
           ++ apply (mounted_in_pairs_app [_; _; _; _]);
                [by apply mounted_in_pairs_quiet |].
              apply mounted_in_pairs_app; [| done].
              apply mounted_in_pairs_app; [done | by apply mounted_in_pairs_quiet].
           ++ cbn. lia.
           ++ done.
           ++ exists (controllerName :: processed). split_and!.
              ** by apply prefix_cons.
              ** rewrite filter_cons_False by congruence. done.
              ** intros checks Hout. by rewrite (Hall checks Hout).
        -- split_projections. cbn.
           rewrite decide_False by (rewrite Hstarted; by intros [_ ?]). cbn.
           unfold line_of_return at 1. cbn [fst snd]. rewrite Herr, Hstarted.
           rewrite Hp, Hother, Hdisabled, Hm.
           split_and!; try done.
           ++ apply (mounted_in_pairs_app [_; _; _; _; _]);
                [by apply mounted_in_pairs_quiet | done].
           ++ cbn. lia.
           ++ exists (controllerName :: processed). split_and!.
              ** by apply prefix_cons.
              ** rewrite filter_cons_False by congruence. done.
              ** intros checks Hout. by rewrite (Hall checks Hout).
    + intros (evs' & Hrest & ->)%after_inv.
      apply IH in Hrest
        as (Hm & Hp & Hpairs & Hs & Hother & processed & Hprefix
            & Hdisabled & Hall).
      split_projections. cbn.
      rewrite Hp, Hother, Hdisabled, Hm.
      split_and!; try done.
      * apply (mounted_in_pairs_app [_]); [by apply mounted_in_pairs_quiet | done].
      * exists (controllerName :: processed). split_and!.
        -- by apply prefix_cons.
        -- rewrite filter_cons_True by done. done.
        -- intros checks Hout. by rewrite (Hall checks Hout).
Qed.

(** The loop invokes initializers of enabled controllers only, and
    every initializer it invokes returns. *)
Lemma StartControllers_range_called controllerCtx unsecuredMux controllers :
  forall controllerChecks p out p' evs,
    StartControllers_range controllerCtx unsecuredMux controllers controllerChecks p
    = (out, p', evs) ->
    Forall (fun name => IsControllerEnabled controllerCtx name = true) (calls_of evs) /\
    (returns_of evs).*1 = calls_of evs.
Proof.
  intros controllerChecks p out p' evs Hrange.
  apply StartControllers_range_spec in Hrange as (_ & _ & _ & _ & Hloop).
  assert (Henabled : forall l : list (string * InitFunc World),
            Forall (fun name => IsControllerEnabled controllerCtx name = true)
              (enabled_names controllerCtx l)).
  { intros l. apply Forall_forall. intros name Hin.
    unfold enabled_names in Hin. by apply list_elem_of_filter in Hin as [? _]. }
  destruct Hloop as [(new & _ & _ & Hcalls & Hreturns & _)
                    |(err & before & name & initFn & rest & evs0 & result
                      & _ & _ & -> & _ & Hen & _ & Hcalls & Hreturns)].
  - rewrite Hcalls, Hreturns. split; [apply Henabled | done].
  - rewrite calls_of_app, returns_of_app, fmap_app, Hcalls, Hreturns. cbn.
    split; [| done]. apply Forall_app. split; [apply Henabled |].
    by repeat constructor.
Qed.

(** The loop announces every initializer it invokes: the call comes
    right after the sleep and the "Starting" line, and the lines logged
    at a level are these "Starting" lines, at level 1. *)
Lemma StartControllers_range_announced controllerCtx unsecuredMux controllers :
  forall controllerChecks p out p' evs,
    StartControllers_range controllerCtx unsecuredMux controllers controllerChecks p
    = (out, p', evs) ->
    slept_and_announced evs /\
    verbose_log_of evs = (fun name => (1, LogStarting name)) <$> calls_of evs.
Proof.
  induction controllers as [|[controllerName initFn] rest IH];
    intros controllerChecks p out p' evs.
  - intros [= <- <- <-]. split; [by apply slept_and_announced_quiet | done].
  - rewrite StartControllers_range_cons.
    assert (Hcall : forall d result tail,
              slept_and_announced tail ->
              slept_and_announced
                (EvSleep d :: EvVerboseLog 1 (LogStarting controllerName)
                 :: EvInitCalled controllerName
                 :: EvInitReturned controllerName result :: tail)).
    { intros d result tail Htail.
      apply (slept_and_announced_app [_; _; _; _]); [| done].
      intros [|[|[|[|k]]]] name; try done.
      intros [= <-]. by exists 0%nat, d. }
    assert (Hdebug : forall ctrl,
              verbose_log_of (debug_events controllerName ctrl unsecuredMux) = []).
    { intros [ctrl|]; [| done]. unfold debug_events.
      destruct (Debuggable ctrl) as [[h|]|]; try done. by destruct unsecuredMux. }
    destruct (IsControllerEnabled controllerCtx controllerName).
    + destruct (rand_Float64 (world p)) as [r w1].
      destruct (initFn controllerCtx w1) as [result w2].
      destruct (debug_events_silent controllerName (result_controller result)
                  unsecuredMux) as (Hdc & _ & _).
      destruct (result_err result) as [err|].
      * intros [= <- <- <-]. split; [| done].
        by apply Hcall, slept_and_announced_quiet.
      * destruct (result_started result);
          intros (evs' & Hrest & ->)%after_inv;
          apply IH in Hrest as [Hpairs Hverbose]; split.
        -- apply Hcall. repeat apply slept_and_announced_app; try done;
             by apply slept_and_announced_quiet.
        -- split_projections. rewrite Hdebug, Hdc, Hverbose. done.
        -- apply Hcall. apply (slept_and_announced_app [_]); [| done].
           by apply slept_and_announced_quiet.
        -- split_projections. rewrite Hverbose. done.
    + intros (evs' & Hrest & ->)%after_inv.
      apply IH in Hrest as [Hpairs Hverbose]; split.
      * apply (slept_and_announced_app [_]); [| done].
        by apply slept_and_announced_quiet.
      * split_projections. rewrite Hverbose. done.
Qed.

End StartControllersTrace.

Section StartControllersAccounts.
Context {World : Type} `{!Platform World}.
Implicit Types (p : Proc World) (controllerCtx : ControllerContext World).

(** [StartControllers] mounts debug handlers only when there is an
    unsecured mux, and then one for each controller whose initializer
    returned without an error, reported it as started and handed back a
    handle that is debuggable with a handler that is not nil: the
    handler goes under ["/debug/controllers/"] followed by the name of
    the controller, and right after under that path followed by a
    slash.  Nothing else is mounted. *)
Theorem StartControllers_mounts_debug_handlers
    controllerCtx (controllers : gmap string (InitFunc World)) unsecuredMux
    p out p' evs :
  StartControllers controllerCtx controllers unsecuredMux p = (out, p', evs) ->
  mounts_of evs
  = (if unsecuredMux
     then omap (fun nr => pair ("/debug/controllers/" ++ nr.1)%string
                            <$> debug_handler (result_controller nr.2))
            (launched_of evs)
     else []) /\
  prefix_mounts_of evs
  = (fun ph => ((ph.1 ++ "/")%string, ph.2)) <$> mounts_of evs /\
  mounted_in_pairs evs.
Proof.
  rewrite StartControllers_unfold.
  destruct (StartControllers_range _ _ _ _ _) as [[out1 p1] evs1] eqn:Hrange.
  apply StartControllers_range_trace in Hrange as (Hm & Hp & Hpairs & _).
  assert (Hsame : forall tail,
            mounts_of tail = [] -> prefix_mounts_of tail = [] ->
            returns_of tail = [] ->
            mounts_of (evs1 ++ tail)
            = (if unsecuredMux
               then omap (fun nr => pair ("/debug/controllers/" ++ nr.1)%string
                                      <$> debug_handler (result_controller nr.2))
                      (launched_of (evs1 ++ tail))
               else []) /\
            prefix_mounts_of (evs1 ++ tail)
            = (fun ph => ((ph.1 ++ "/")%string, ph.2)) <$> mounts_of (evs1 ++ tail) /\
            mounted_in_pairs (evs1 ++ tail)).
  { intros tail Htm Htp Htr. split_projections.
    rewrite Htm, Htp, Htr, ?app_nil_r. cbn. rewrite ?app_nil_r.
    split_and!; [done | done |].
    apply mounted_in_pairs_app; [done | by apply mounted_in_pairs_quiet]. }
  destruct out1 as [[checks|err]|msg|msg]; intros [= <- <- <-];
    try done.
  by apply Hsame.
Qed.

(** [StartControllers] accounts for the controllers of the registry,
    in iteration order.  An initializer is invoked right after a sleep
    and the line that the controller is starting, so there are as many
    sleeps as invocations; the "Starting" lines are logged at level 1,
    and they are the only lines logged at a level: with a verbosity
    below 1, as by default, none of them is written.  Every return of
    an initializer gets one line that is always written, for the
    error, for the start or for the skip.  A controller that is not
    enabled gets the line that it is disabled, and nothing else happens
    for it; when [StartControllers] returns nil, every controller of
    the registry that is not enabled has its line. *)
Theorem StartControllers_accounts_for_every_controller
    controllerCtx (controllers : gmap string (InitFunc World)) unsecuredMux
    p out p' evs :
  StartControllers controllerCtx controllers unsecuredMux p = (out, p', evs) ->
  Forall (fun name => IsControllerEnabled controllerCtx name = true) (calls_of evs) /\
  (returns_of evs).*1 = calls_of evs /\
  length (sleeps_of evs) = length (calls_of evs) /\
  slept_and_announced evs /\
  verbose_log_of evs = (fun name => (1, LogStarting name)) <$> calls_of evs /\
  (forall verbosity, verbosity < 1 -> written_at verbosity evs = log_of evs) /\
  (forall name, LogStarting name ∉ log_of evs) /\
  filter (fun line => is_disabled_line line = false) (log_of evs)
  = line_of_return <$> returns_of evs /\
  exists processed,
    processed `prefix_of` (MapRange controllers).*1 /\
    filter (fun line => is_disabled_line line = true) (log_of evs)
    = LogDisabled
        <$> filter (fun name => IsControllerEnabled controllerCtx name = false)
              processed /\
    (out = Returned None -> processed = (MapRange controllers).*1).
Proof.
  rewrite StartControllers_unfold.
  destruct (StartControllers_range _ _ _ _ _) as [[out1 p1] evs1] eqn:Hrange.
  pose proof (StartControllers_range_announced _ _ _ _ _ _ _ _ Hrange)
    as [Hpairs Hverbose].
  pose proof (StartControllers_range_called _ _ _ _ _ _ _ _ Hrange)
    as [Hen Hnames].
  apply StartControllers_range_trace in Hrange
    as (_ & _ & _ & Hs & Hother & processed & Hprefix & Hdisabled & Hall).
  assert (Hstarting : forall name, LogStarting name ∉ log_of evs1).
  { intros name Hin.
    assert (Hin' : LogStarting name
                   ∈ filter (fun line => is_disabled_line line = false) (log_of evs1))
      by (by apply list_elem_of_filter).
    rewrite Hother in Hin'. apply list_elem_of_fmap in Hin' as (nr & Heq & _).
    unfold line_of_return in Heq.
    destruct (result_err nr.2); [done |]. by destruct (result_started nr.2). }
  assert (Hlow : forall verbosity, verbosity < 1 ->
            written_at verbosity evs1 = log_of evs1).
  { intros verbosity Hv. apply written_at_quiet. rewrite Hverbose.
    apply Forall_fmap, Forall_true. intros name. cbn. lia. }
  assert (Hmore : forall checks,
            calls_of (evs1 ++ [EvAddHealthChecker checks]) = calls_of evs1 /\
            returns_of (evs1 ++ [EvAddHealthChecker checks]) = returns_of evs1 /\
            sleeps_of (evs1 ++ [EvAddHealthChecker checks]) = sleeps_of evs1 /\
            verbose_log_of (evs1 ++ [EvAddHealthChecker checks]) = verbose_log_of evs1 /\
            log_of (evs1 ++ [EvAddHealthChecker checks]) = log_of evs1 /\
            (forall verbosity,
               written_at verbosity (evs1 ++ [EvAddHealthChecker checks])
               = written_at verbosity evs1)).
  { intros checks.
    unfold calls_of, returns_of, sleeps_of, verbose_log_of, log_of, written_at.
    rewrite !omap_app. cbn. rewrite !app_nil_r. split_and!; try done.
    intros verbosity. rewrite omap_app. cbn. by rewrite app_nil_r. }
  destruct out1 as [[checks|err]|msg|msg]; intros [= <- <- <-].
  - destruct (Hmore checks) as (-> & -> & -> & -> & -> & Hwritten).
    split_and!; try done.
    + apply slept_and_announced_app; [done | by apply slept_and_announced_quiet].
    + intros verbosity Hv. rewrite Hwritten. by apply Hlow.
    + exists processed. split_and!; try done. intros _. by apply (Hall checks).
  - split_and!; try done. exists processed. by split_and!.
  - split_and!; try done. exists processed. by split_and!.
  - split_and!; try done. exists processed. by split_and!.
Qed.

End StartControllersAccounts.

(** The statement at the registry of three, with a mux: ["a"] alone is
    started with a debug handler, which is mounted at its path and at
    the prefix. *)
Lemma StartControllers_mounts_witness :
  let r := StartControllers (test_context ["*"; "-d"]) three_controllers true
             (start_proc healthy_world) in
  mounts_of r.2 = [("/debug/controllers/a", 7%nat)] /\
  prefix_mounts_of r.2 = [("/debug/controllers/a/", 7%nat)].
Proof.
  intros r.
  destruct (StartControllers_mounts_debug_handlers
              (test_context ["*"; "-d"]) three_controllers true
              (start_proc healthy_world) r.1.1 r.1.2 r.2 (triple_eta r))
    as (Hmounts & Hprefix & _).
  split; [rewrite Hmounts | rewrite Hprefix, Hmounts]; by vm_compute.
Defined.

(** The statement at the registry of three: two initializers are
    invoked after two sleeps; the two "Starting" lines are logged at
    level 1 and are not written at verbosity 0, where the log holds the
    line for the start of ["a"], for the skip of ["b"] and for the
    disabled ["d"]. *)
Lemma StartControllers_accounts_witness :
  let r := StartControllers (test_context ["*"; "-d"]) three_controllers true
             (start_proc healthy_world) in
  length (sleeps_of r.2) = 2%nat /\
  verbose_log_of r.2 = [(1, LogStarting "a"); (1, LogStarting "b")] /\
  written_at 0 r.2 = [LogStarted "a"; LogSkipping "b"; LogDisabled "d"] /\
  filter (fun line => is_disabled_line line = false) (log_of r.2)
  = [LogStarted "a"; LogSkipping "b"].
Proof.
  intros r.
  destruct (StartControllers_accounts_for_every_controller
              (test_context ["*"; "-d"]) three_controllers true
              (start_proc healthy_world) r.1.1 r.1.2 r.2 (triple_eta r))
    as (_ & _ & Hsleeps & _ & Hverbose & Hwritten & _ & Hlines & _).
  split; [rewrite Hsleeps; vm_compute; reflexivity |].
  split; [rewrite Hverbose; vm_compute; reflexivity |].
  split; [rewrite (Hwritten 0 ltac:(lia)); vm_compute; reflexivity |].
  rewrite Hlines. vm_compute. reflexivity.
Defined.

(** ** Building the context: what it holds and how it fails *)

(** One step through a computation, keeping what the random source
    gave. *)
Ltac step_world :=
  match goal with
  | |- context [ConfigUsable ?c] => destruct (ConfigUsable c) eqn:?
  | |- context [rand_Float64 ?w] => destruct (rand_Float64 w) as [? ?] eqn:?
  | |- context [WaitForAPIServer ?c ?d ?w] =>
      destruct (WaitForAPIServer c d w) as [[?|] ?]
  | |- context [ServerGroupsAndResources ?c ?w] =>
      destruct (ServerGroupsAndResources c w) as [? ?]
  | |- context [GetAvailableResources ?r] =>
      destruct (GetAvailableResources r) as [[?|?] [?|]] eqn:?
  end; cbn [world nextChan closedChans healthzChecks fst snd app].

Ltac run_context :=
  unfold CreateControllerContext, GetKarmadaAvailableResources,
    GetHostClusterAvailableResources, GetClusterAvailableResources,
    ClientOrDie, ResyncPeriod;
  unfold bind, call, emit, ret, fatal, make_chan;
  repeat step_world.

Section ContextWiring.
Context {World : Type} `{!Platform World}.
Implicit Types (p : Proc World) (controllerCtx : ControllerContext World).

Lemma GetAvailableResources_logged response :
  (GetAvailableResources response).2 = response.2.
Proof. destruct response as [resourceMap err]. unfold GetAvailableResources. by destruct (_ =? _)%nat. Qed.

(** When [CreateControllerContext] returns without an error, the
    context holds the two builders and the configuration it was given;
    every client of an informer factory belongs to the cluster of the
    field the factory is in (the host cluster for the three firefly
    fields, the karmada cluster for the others); the factory for
    objects or metadata is made of the very factory in the karmada kube
    field and a metadata factory; the firefly factory is filtered to
    the estimator namespace; the reset loop of the REST mapper was
    started with a period of 30 seconds; then the karmada cluster was
    asked for its resources, then the host cluster, once each, and the
    context holds the two maps in that order. *)
Theorem CreateControllerContext_wires_the_context
    s karmadaClientBuilder fireflyKubeClientBuilder p out controllerCtx p' evs :
  CreateControllerContext s karmadaClientBuilder fireflyKubeClientBuilder p
  = (out, p', evs) ->
  out = Returned (controllerCtx, None) ->
  KarmadaClientBuilder controllerCtx = Some karmadaClientBuilder /\
  FireflyClientBuilder controllerCtx = Some fireflyKubeClientBuilder /\
  ComponentConfig controllerCtx = cfgComponentConfig s /\
  EstimatorNamespace controllerCtx = cfgEstimatorNamespace s /\
  KarmadaName controllerCtx = cfgKarmadaName s /\
  (forall field factory client,
     factory_of controllerCtx field = Some factory ->
     client ∈ factory_clients factory ->
     ClientCluster client
     = field_cluster karmadaClientBuilder fireflyKubeClientBuilder field) /\
  (exists kube metadata,
     KarmadaKubeInformerFactory controllerCtx = Some kube /\
     ObjectOrMetadataInformerFactory controllerCtx
     = Some (NewInformerFactory kube metadata)) /\
  (exists client resync,
     FireflyInformerFactory controllerCtx
     = Some (NewFilteredSharedInformerFactory client resync
               (cfgEstimatorNamespace s))) /\
  RESTMapper_ controllerCtx = Some (rest_mapper karmadaClientBuilder) /\
  exists karmadaResponse hostResponse availableResources hostClusterAvailableResources,
    evs = EvResetLoopStarted (rest_mapper karmadaClientBuilder) (30 * Second)
          :: discovery_events karmadaClientBuilder karmadaResponse
          ++ discovery_events fireflyKubeClientBuilder hostResponse /\
    (GetAvailableResources karmadaResponse).1 = inl availableResources /\
    (GetAvailableResources hostResponse).1 = inl hostClusterAvailableResources /\
    AvailableResources controllerCtx = Some availableResources /\
    HostClusterAvailableResources controllerCtx = Some hostClusterAvailableResources.
Proof.
  intros Hrun ->. revert Hrun. run_context.
  all: intros [= <- <- <-]; cbn.
  all: split_and!; try done; try (by eauto).
  all: try (intros [] factory client [= <-]; cbn;
            rewrite ?elem_of_cons; intros Hin;
            repeat (destruct Hin as [->|Hin]; [done |]);
            by apply not_elem_of_nil in Hin).
  all: match goal with
       | H1 : GetAvailableResources ?rk = _, H2 : GetAvailableResources ?rh = _ |- _ =>
           exists rk, rh; eexists _, _;
           pose proof (GetAvailableResources_logged rk) as Hk;
           pose proof (GetAvailableResources_logged rh) as Hh;
           rewrite H1 in Hk |- *; rewrite H2 in Hh |- *; cbn in Hk, Hh;
           unfold discovery_events, discovery_client, rest_mapper;
           rewrite <- Hk, <- Hh; cbn; done
       end.
Qed.

End ContextWiring.

Lemma returned_without_error_out {World : Type}
    (out : Outcome (ControllerContext World * option error)) :
  returned_without_error out = true ->
  out = Returned (returned_context out, None).
Proof. by destruct out as [[ctx [err|]]|msg|msg]. Qed.

(** The statement in the healthy world: the context comes back, and
    the factory for objects or metadata shares the karmada kube
    factory. *)
Lemma CreateControllerContext_wires_witness :
  let r := CreateControllerContext (test_config ["*"])
             (createClientBuilders (test_config ["*"])).1
             (createClientBuilders (test_config ["*"])).2
             (start_proc healthy_world) in
  r.1.1 = Returned (returned_context r.1.1, None) /\
  exists kube metadata,
    KarmadaKubeInformerFactory (returned_context r.1.1) = Some kube /\
    ObjectOrMetadataInformerFactory (returned_context r.1.1)
    = Some (NewInformerFactory kube metadata).
Proof.
  intros r.
  assert (Hout : r.1.1 = Returned (returned_context r.1.1, None)).
  { apply returned_without_error_out. vm_compute. reflexivity. }
  split; [exact Hout |].
  destruct (CreateControllerContext_wires_the_context
              (test_config ["*"])
              (createClientBuilders (test_config ["*"])).1
              (createClientBuilders (test_config ["*"])).2
              (start_proc healthy_world) r.1.1 (returned_context r.1.1) r.1.2 r.2
              (triple_eta r) Hout)
    as (_ & _ & _ & _ & _ & _ & Hshared & _).
  exact Hshared.
Defined.

Section ContextFailures.
Context {World : Type} `{!Platform World}.
Implicit Types (p : Proc World) (controllerCtx : ControllerContext World).

(** When [CreateControllerContext] returns an error, one of three
    things happened.  An API server did not get healthy: the error
    wraps the cause, and neither the reset loop of the REST mapper was
    started nor a cluster asked for its resources, nor was the gate
    made.  Or the resources of the karmada cluster could not be had:
    the reset loop was started all the same, and the host cluster was
    not asked.  Or the resources of the host cluster could not be had,
    after those of the karmada cluster were. *)
Theorem CreateControllerContext_fails_in_three_ways
    s karmadaClientBuilder fireflyKubeClientBuilder p out controllerCtx err p' evs :
  CreateControllerContext s karmadaClientBuilder fireflyKubeClientBuilder p
  = (out, p', evs) ->
  out = Returned (controllerCtx, Some err) ->
  nextChan p' = nextChan p /\
  ((exists cause, err = ErrWaitForAPIServer cause /\ evs = []) \/
   (exists karmadaResponse,
      (GetAvailableResources karmadaResponse).1 = inr err /\
      evs = EvResetLoopStarted (rest_mapper karmadaClientBuilder) (30 * Second)
            :: discovery_events karmadaClientBuilder karmadaResponse) \/
   (exists karmadaResponse hostResponse availableResources,
      (GetAvailableResources karmadaResponse).1 = inl availableResources /\
      (GetAvailableResources hostResponse).1 = inr err /\
      evs = EvResetLoopStarted (rest_mapper karmadaClientBuilder) (30 * Second)
            :: discovery_events karmadaClientBuilder karmadaResponse
            ++ discovery_events fireflyKubeClientBuilder hostResponse)).
Proof.
  intros Hrun ->. revert Hrun. run_context.
  all: intros [= <- <- <- <-]; cbn.
  all: split; [done |].
  all: try (left; by eauto).
  all: right.
  all: match goal with
       | H1 : GetAvailableResources ?rk = (inl _, _),
         H2 : GetAvailableResources ?rh = _ |- _ =>
           right; exists rk, rh; eexists;
           pose proof (GetAvailableResources_logged rk) as Hk;
           pose proof (GetAvailableResources_logged rh) as Hh;
           rewrite H1 in Hk |- *; rewrite H2 in Hh |- *; cbn in Hk, Hh;
           unfold discovery_events, discovery_client, rest_mapper;
           rewrite <- Hk, <- Hh; cbn; done
       | H1 : GetAvailableResources ?rk = (inr _, _) |- _ =>
           left; exists rk;
           pose proof (GetAvailableResources_logged rk) as Hk;
           rewrite H1 in Hk |- *; cbn in Hk;
           unfold discovery_events, discovery_client, rest_mapper;
           rewrite <- Hk; cbn; done
       end.
Qed.

End ContextFailures.

(** The statement in a world whose karmada API server does not get
    healthy: the error wraps the cause, and nothing was recorded. *)
Lemma CreateControllerContext_fails_witness :
  let r := CreateControllerContext (test_config ["*"])
             (createClientBuilders (test_config ["*"])).1
             (createClientBuilders (test_config ["*"])).2
             (start_proc unhealthy_karmada_world) in
  r.1.1 = Returned (zero_ControllerContext,
                    Some (ErrWaitForAPIServer (ErrExternal "timed out"))) /\
  r.2 = [] /\ nextChan r.1.2 = 0%nat.
Proof.
  intros r.
  assert (Hout : r.1.1 = Returned (zero_ControllerContext,
                                   Some (ErrWaitForAPIServer (ErrExternal "timed out"))))
    by (by vm_compute).
  split; [exact Hout |].
  destruct (CreateControllerContext_fails_in_three_ways
              (test_config ["*"])
              (createClientBuilders (test_config ["*"])).1
              (createClientBuilders (test_config ["*"])).2
              (start_proc unhealthy_karmada_world) r.1.1 _ _ r.1.2 r.2
              (triple_eta r) Hout)
    as (Hchan & [(cause & _ & Hevs)|[(rk & Hrk & _)|(rk & rh & mk & _ & Hrh & _)]]).
  - split; [exact Hevs | exact Hchan].
  - exfalso. by destruct (GetAvailableResources_error_kind _ _ Hrk) as [?|[? ?]].
  - exfalso. by destruct (GetAvailableResources_error_kind _ _ Hrh) as [?|[? ?]].
Defined.

Section ContextResync.
Context {World : Type} `{!Platform World}.
Implicit Types (p : Proc World) (controllerCtx : ControllerContext World).

(** With a random source that keeps to the interval from 0 up to, not
    including, 1, and a minimum resync period [d] that is positive and
    at most [2 ^ 53] nanoseconds, every informer factory of the context
    that [CreateControllerContext] returns was given a default resync
    period from [d] to [2 * d], and so were both parts of the factory
    for objects or metadata. *)
Theorem CreateControllerContext_resync_periods_in_range
    s karmadaClientBuilder fireflyKubeClientBuilder p out controllerCtx p' evs :
  let d := MinResyncPeriod (Generic (cfgComponentConfig s)) in
  (forall w, unit_interval (rand_Float64 w).1 = true) ->
  0 < d <= 2 ^ 53 ->
  CreateControllerContext s karmadaClientBuilder fireflyKubeClientBuilder p
  = (out, p', evs) ->
  out = Returned (controllerCtx, None) ->
  forall field factory resync,
    factory_of controllerCtx field = Some factory ->
    resync ∈ factory_resyncs factory ->
    d <= resync <= 2 * d.
Proof.
  intros d Hfair Hd Hrun ->. revert Hrun. subst d. run_context.
  all: intros [= <- <- <-].
  all: repeat match goal with
              | H : rand_Float64 ?w = (?r, _) |- _ =>
                  let Hr := fresh "Hr" in
                  pose proof (Hfair w) as Hr; rewrite H in Hr; cbn [fst] in Hr;
                  clear H
              end.
  all: intros [] factory resync [= <-]; cbn;
    rewrite ?elem_of_cons; intros Hin;
    repeat (destruct Hin as [->|Hin]; [by apply ResyncPeriod_at_range |]);
    by apply not_elem_of_nil in Hin.
Qed.

End ContextResync.

(** The statement in the world with a steady random source and twelve
    hours as the minimum. *)
Lemma CreateControllerContext_resync_witness :
  let d := MinResyncPeriod (Generic (cfgComponentConfig (test_config ["*"]))) in
  let r := CreateControllerContext (test_config ["*"])
             (createClientBuilders (test_config ["*"])).1
             (createClientBuilders (test_config ["*"])).2
             steady_proc in
  (forall w : SteadyWorld, unit_interval (rand_Float64 w).1 = true) /\
  0 < d <= 2 ^ 53 /\
  r.1.1 = Returned (returned_context r.1.1, None) /\
  forall field factory resync,
    factory_of (returned_context r.1.1) field = Some factory ->
    resync ∈ factory_resyncs factory ->
    d <= resync <= 2 * d.
Proof.
  intros d r.
  assert (Hout : r.1.1 = Returned (returned_context r.1.1, None)).
  { apply returned_without_error_out. vm_compute. reflexivity. }
  assert (Hfair : forall w : SteadyWorld, unit_interval (rand_Float64 w).1 = true).
  { intros [ticks]. change (rand_Float64 {| sw_ticks := ticks |}).1
      with (if Nat.even ticks then f64_zero else draw_half).
    destruct (Nat.even ticks); vm_compute; reflexivity. }
  assert (Hd : 0 < d <= 2 ^ 53)
    by (vm_compute; split; [reflexivity | discriminate]).
  split; [exact Hfair |]. split; [exact Hd |]. split; [exact Hout |].
  exact (CreateControllerContext_resync_periods_in_range
           (test_config ["*"])
           (createClientBuilders (test_config ["*"])).1
           (createClientBuilders (test_config ["*"])).2
           steady_proc r.1.1 (returned_context r.1.1) r.1.2 r.2
           Hfair Hd (triple_eta r) Hout).
Defined.

(** ** One leadership epoch: how it ends the process, and what it
    invokes *)

Section EpochFailures.
Context {World : Type} `{!Platform World}.
Implicit Types (p : Proc World) (controllerCtx : ControllerContext World).

(** What [StartControllers] leaves behind when an initializer returned
    an error. *)
Lemma StartControllers_failed controllerCtx (controllers : gmap string (InitFunc World))
    unsecuredMux p out p' evs name result err :
  StartControllers controllerCtx controllers unsecuredMux p = (out, p', evs) ->
  EvInitReturned name result ∈ evs ->
  result_err result = Some err ->
  out = Returned (Some err) /\
  healthzChecks p' = healthzChecks p /\
  exists evs0,
    evs = evs0 ++ [EvInitCalled name; EvInitReturned name result;
                   EvLog (LogErrorStarting name)] /\
    is_Some (controllers !! name).
Proof.
  rewrite StartControllers_unfold.
  destruct (StartControllers_range _ _ _ _ _) as [[out1 p1] evs1] eqn:Hrange.
  apply StartControllers_range_spec in Hrange as (_ & _ & Hh & Hg & Hloop).
  destruct Hloop as [(new & -> & Hok & _)
                    |(err' & before & name' & initFn & rest & evs0 & result'
                      & -> & Hsplit & -> & Herr' & _ & Hok & _)].
  - intros [= <- <- <-] Hin Herr. exfalso.
    apply elem_of_app in Hin as [Hin|Hin].
    + apply elem_of_returns_of in Hin.
      unfold no_error in Hok. rewrite Forall_forall in Hok.
      apply Hok in Hin. cbn in Hin. congruence.
    + apply list_elem_of_singleton in Hin. discriminate Hin.
  - intros [= <- <- <-] Hin Herr.
    assert (name' = name /\ result' = result) as [-> ->].
    { apply elem_of_app in Hin as [Hin|Hin].
      - apply elem_of_returns_of in Hin.
        unfold no_error in Hok. rewrite Forall_forall in Hok.
        apply Hok in Hin. cbn in Hin. congruence.
      - rewrite !elem_of_cons in Hin.
        destruct Hin as [Hin|[Hin|[Hin|Hin]]]; try discriminate Hin.
        + by injection Hin as <- <-.
        + by apply not_elem_of_nil in Hin. }
    assert (err' = err) as -> by congruence.
    split_and!; try done. exists evs0. split; [done |].
    apply elem_of_MapRange_names. rewrite Hsplit, fmap_app, fmap_cons.
    apply elem_of_app. right. by left.
Qed.

(** When an initializer returns an error, [run] ends the process with
    the message that carries that error; the return of the initializer
    and the log line for it are the last things that happened; the
    health handler received nothing; and no informer factory was
    started, the gate was not closed, and [run] did not get to wait:
    every event is one of building the context or of starting the
    controllers. *)
Theorem run_ends_the_process_when_an_initializer_fails
    c karmadaClientBuilder fireflyKubeClientBuilder unsecuredMux
    (initializersFunc : ControllerInitializersFunc World)
    p out p' evs name result err :
  run c karmadaClientBuilder fireflyKubeClientBuilder unsecuredMux initializersFunc p
  = (out, p', evs) ->
  EvInitReturned name result ∈ evs ->
  result_err result = Some err ->
  out = Fatal (FatalStartingControllers err) /\
  is_Some (initializersFunc () !! name) /\
  (exists evs0,
     evs = evs0 ++ [EvInitCalled name; EvInitReturned name result;
                    EvLog (LogErrorStarting name)]) /\
  Forall (fun e => setup_event e || startup_event e = true) evs /\
  registrations_of evs = [] /\
  healthzChecks p' = healthzChecks p /\
  closedChans p' = closedChans p.
Proof.
  unfold run, bind.
  destruct (CreateControllerContext _ _ _ _) as [[out1 p1] evs1] eqn:Hcc.
  apply CreateControllerContext_spec in Hcc as (Hsetup & Hc1 & Hh1 & _ & Hout1).
  destruct (setup_events_quiet _ Hsetup) as (_ & Hquiet & Hreg).
  assert (Hnot : EvInitReturned name result ∉ evs1).
  { intros Hin%elem_of_returns_of. rewrite Hquiet in Hin.
    by apply not_elem_of_nil in Hin. }
  assert (Hsetup' : Forall (fun e => setup_event e || startup_event e = true) evs1).
  { eapply Forall_impl; [exact Hsetup |]. by intros e ->. }
  destruct out1 as [[controllerCtx [err1|]]|msg|msg]; [| | | done].
  - intros [= <- <- <-] Hin. by rewrite app_nil_r in Hin.
  - destruct (StartControllers _ _ _ _) as [[out2 p2] evs2] eqn:Hsc.
    pose proof (StartControllers_spec _ _ _ _ _ _ _ Hsc)
      as (_ & Hc2 & Hstartup & _).
    assert (Hin2 : EvInitReturned name result ∈ evs1 ++ evs2 ->
                   EvInitReturned name result ∈ evs2).
    { by intros [?|?]%elem_of_app. }
    destruct out2 as [[err2|]|msg|msg].
    + intros [= <- <- <-] Hin Herr. rewrite app_nil_r in Hin. apply Hin2 in Hin.
      destruct (StartControllers_failed _ _ _ _ _ _ _ _ _ _ Hsc Hin Herr)
        as ([= ->] & Hh2 & evs0 & -> & Hname).
      rewrite app_nil_r. split_and!; try done.
      * exists (evs1 ++ evs0). by rewrite app_assoc.
      * apply Forall_app. split; [done |].
        eapply Forall_impl; [exact Hstartup |]. intros e ->. apply orb_true_r.
      * rewrite registrations_of_app, Hreg.
        pose proof (StartControllers_spec _ _ _ _ _ _ _ Hsc)
          as (_ & _ & _ & _ & [(Hnone & _)|(e & _ & ->)]); done.
      * congruence.
      * congruence.
    + intros Hrun Hin Herr. exfalso.
      assert (Hin' : EvInitReturned name result ∈ evs2).
      { destruct Hout1 as (_ & Hgate & _ & Hfactories).
        destruct (Hfactories KarmadaDynamic) as [f1 Hf1].
        destruct (Hfactories KarmadaKube) as [f2 Hf2].
        destruct (Hfactories Karmada) as [f3 Hf3].
        destruct (Hfactories KarmadaFirefly) as [f4 Hf4].
        destruct (Hfactories FireflyDynamic) as [f5 Hf5].
        destruct (Hfactories FireflyKube) as [f6 Hf6].
        destruct (Hfactories Firefly) as [f7 Hf7].
        destruct (Hfactories ObjectOrMetadata) as [f8 Hf8].
        cbn [factory_of] in Hf1, Hf2, Hf3, Hf4, Hf5, Hf6, Hf7, Hf8.
        rewrite Hf1, Hf2, Hf3, Hf4, Hf5, Hf6, Hf7, Hf8, Hgate in Hrun.
        cbn [FactoryStart emit close_chan] in Hrun.
        destruct (bool_decide _) in Hrun; cbn in Hrun;
          injection Hrun as <- <- <-;
          rewrite !elem_of_app, !elem_of_cons in Hin;
          destruct Hin as [Hin|[Hin|Hin]]; try done;
          repeat (destruct Hin as [Hin|Hin]; [discriminate Hin |]);
          by apply not_elem_of_nil in Hin. }
      destruct (StartControllers_failed _ _ _ _ _ _ _ _ _ _ Hsc Hin' Herr)
        as (Hout & _). discriminate Hout.
    + intros [= <- <- <-] Hin Herr. apply Hin2 in Hin.
      by destruct (StartControllers_failed _ _ _ _ _ _ _ _ _ _ Hsc Hin Herr).
    + intros [= <- <- <-] Hin Herr. apply Hin2 in Hin.
      by destruct (StartControllers_failed _ _ _ _ _ _ _ _ _ _ Hsc Hin Herr).
  - intros [= <- <- <-] Hin. done.
Qed.

End EpochFailures.

Section EpochInvocations.
Context {World : Type} `{!Platform World}.
Implicit Types (p : Proc World) (controllerCtx : ControllerContext World).

(** What [run] does after the context was built without an error. *)
Lemma run_after_context c karmadaClientBuilder fireflyKubeClientBuilder unsecuredMux
    (initializersFunc : ControllerInitializersFunc World) p controllerCtx p1 evs1 :
  CreateControllerContext c karmadaClientBuilder fireflyKubeClientBuilder p
  = (Returned (controllerCtx, None), p1, evs1) ->
  exists out2 p2 evs2 tail,
    StartControllers controllerCtx (initializersFunc ()) unsecuredMux p1
    = (out2, p2, evs2) /\
    (run c karmadaClientBuilder fireflyKubeClientBuilder unsecuredMux
       initializersFunc p).2 = evs1 ++ evs2 ++ tail /\
    calls_of tail = [] /\
    nextChan (run c karmadaClientBuilder fireflyKubeClientBuilder unsecuredMux
                initializersFunc p).1.2 = nextChan p2.
Proof.
  intros Hcc. unfold run, bind. rewrite Hcc.
  destruct (StartControllers _ _ _ _) as [[out2 p2] evs2] eqn:Hsc.
  exists out2, p2, evs2.
  destruct out2 as [[err2|]|msg|msg];
    try (exists []; cbn; by rewrite ?app_nil_r).
  repeat match goal with
         | |- context [FactoryStart ?field ?factory] =>
             destruct factory; cbn [FactoryStart emit panic]
         end;
    try (destruct (InformersStarted controllerCtx) as [ch|];
         cbn [close_chan panic]; [destruct (bool_decide _) |]);
    cbn; (eexists; split; [reflexivity |]);
    (split; [reflexivity | done]).
Qed.

(** In one run of [run] an initializer is invoked at most once, and
    only the initializer of a controller that is in the registry of the
    epoch and enabled by the configuration.  When [run] ends the
    process because the context could not be built, no initializer was
    invoked at all. *)
Theorem run_invokes_only_enabled_initializers_once
    c karmadaClientBuilder fireflyKubeClientBuilder unsecuredMux
    (initializersFunc : ControllerInitializersFunc World) p out p' evs :
  run c karmadaClientBuilder fireflyKubeClientBuilder unsecuredMux initializersFunc p
  = (out, p', evs) ->
  NoDup (calls_of evs) /\
  (forall name,
     EvInitCalled name ∈ evs ->
     is_Some (initializersFunc () !! name) /\
     IsControllerEnabled_range name ControllersDisabledByDefault
       (Controllers (Generic (cfgComponentConfig c))) false = true) /\
  (forall msg,
     out = Fatal msg ->
     (forall err, msg <> FatalStartingControllers err) ->
     calls_of evs = [] /\ Forall (fun e => setup_event e = true) evs /\
     nextChan p' = nextChan p).
Proof.
  intros Hrun.
  destruct (CreateControllerContext c karmadaClientBuilder fireflyKubeClientBuilder p)
    as [[out1 p1] evs1] eqn:Hcc.
  pose proof (CreateControllerContext_spec _ _ _ _ _ _ _ Hcc)
    as (Hsetup & _ & _ & _ & Hout1).
  destruct (setup_events_quiet _ Hsetup) as (Hquiet & _ & _).
  destruct out1 as [[controllerCtx [err1|]]|msg1|msg1]; [| | | done].
  - unfold run, bind in Hrun. rewrite Hcc in Hrun. injection Hrun as <- <- <-.
    rewrite app_nil_r, Hquiet. split_and!.
    + constructor.
    + intros name Hin%elem_of_calls_of. rewrite Hquiet in Hin.
      by apply not_elem_of_nil in Hin.
    + intros msg _ _. by destruct Hout1 as [_ ->].
  - destruct (run_after_context _ _ _ unsecuredMux initializersFunc _ _ _ _ Hcc)
      as (out2 & p2 & evs2 & tail & Hsc & Hevs & Htail & _).
    rewrite Hrun in Hevs. cbn in Hevs. subst evs.
    rewrite !calls_of_app, Hquiet, Htail, app_nil_r. cbn [app].
    destruct Hout1 as (Hconfig & Hgate & _ & Hfactories).
    assert (Hnodup : forall l : list (string * InitFunc World),
              NoDup l.*1 -> NoDup (enabled_names controllerCtx l)).
    { intros l Hl. unfold enabled_names. by apply NoDup_filter. }
    assert (Hall : NoDup (MapRange (initializersFunc ())).*1).
    { rewrite (MapRange_perm (initializersFunc ())). apply NoDup_fst_map_to_list. }
    assert (Hcalls :
              NoDup (calls_of evs2) /\
              forall name, name ∈ calls_of evs2 ->
                name ∈ (MapRange (initializersFunc ())).*1 /\
                IsControllerEnabled controllerCtx name = true).
    { rewrite StartControllers_unfold in Hsc.
      destruct (StartControllers_range _ _ _ _ _) as [[out3 p3] evs3] eqn:Hrange.
      apply StartControllers_range_spec in Hrange as (_ & _ & _ & _ & Hloop).
      destruct Hloop as [(new & -> & _ & Hcalls & _)
                        |(err' & before & name' & initFn & rest & evs0 & result'
                          & -> & Hsplit & -> & _ & Hen & _ & Hcalls & _)];
        injection Hsc as <- <- <-.
      - rewrite calls_of_app, Hcalls. cbn. rewrite app_nil_r. split; [by apply Hnodup |].
        intros name Hin. unfold enabled_names in Hin.
        by apply list_elem_of_filter in Hin as [? ?].
      - rewrite calls_of_app, Hcalls. cbn.
        rewrite Hsplit, fmap_app, fmap_cons in Hall. cbn [fst] in Hall.
        split.
        + apply NoDup_app in Hall as (Hbefore & Hdisjoint & _).
          apply NoDup_app. split_and!.
          * by apply Hnodup.
          * intros x Hx Hx'. apply list_elem_of_singleton in Hx' as ->.
            unfold enabled_names in Hx. apply list_elem_of_filter in Hx as [_ Hx].
            apply (Hdisjoint name' Hx). by left.
          * apply NoDup_singleton.
        + intros name [Hin|Hin]%elem_of_app.
          * unfold enabled_names in Hin. apply list_elem_of_filter in Hin as [? ?].
            split; [| done]. rewrite Hsplit, fmap_app. apply elem_of_app. by left.
          * apply list_elem_of_singleton in Hin as ->. split; [| done].
            rewrite Hsplit, fmap_app, fmap_cons. apply elem_of_app. right. by left. }
    destruct Hcalls as [Hunique Hamong]. split_and!.
    + done.
    + intros name Hin%elem_of_calls_of.
      rewrite !calls_of_app, Hquiet, Htail, app_nil_r in Hin. cbn [app] in Hin.
      destruct (Hamong name Hin) as [Hregistry Hen]. split.
      * by apply elem_of_MapRange_names.
      * unfold IsControllerEnabled in Hen. by rewrite Hconfig in Hen.
    + intros msg -> Hmsg. exfalso.
      unfold run, bind in Hrun. rewrite Hcc, Hsc in Hrun.
      pose proof (StartControllers_spec _ _ _ _ _ _ _ Hsc)
        as (_ & _ & _ & _ & [(-> & _)|(e & -> & _)]).
      * destruct (Hfactories KarmadaDynamic) as [f1 Hf1].
        destruct (Hfactories KarmadaKube) as [f2 Hf2].
        destruct (Hfactories Karmada) as [f3 Hf3].
        destruct (Hfactories KarmadaFirefly) as [f4 Hf4].
        destruct (Hfactories FireflyDynamic) as [f5 Hf5].
        destruct (Hfactories FireflyKube) as [f6 Hf6].
        destruct (Hfactories Firefly) as [f7 Hf7].
        destruct (Hfactories ObjectOrMetadata) as [f8 Hf8].
        cbn [factory_of] in Hf1, Hf2, Hf3, Hf4, Hf5, Hf6, Hf7, Hf8.
        rewrite Hf1, Hf2, Hf3, Hf4, Hf5, Hf6, Hf7, Hf8, Hgate in Hrun.
        cbn [FactoryStart emit close_chan] in Hrun.
        destruct (bool_decide _) in Hrun; cbn in Hrun; discriminate Hrun.
      * injection Hrun as Hrun _ _. by apply (Hmsg e).
  - unfold run, bind in Hrun. rewrite Hcc in Hrun. injection Hrun as <- <- <-.
    rewrite Hquiet. split_and!.
    + constructor.
    + intros name Hin%elem_of_calls_of. rewrite Hquiet in Hin.
      by apply not_elem_of_nil in Hin.
    + done.
Qed.

End EpochInvocations.

(** The statement at a registry whose second initializer fails: the
    process ends with the error of that initializer. *)
Lemma run_ends_the_process_witness :
  let r := run (test_config ["*"])
             (createClientBuilders (test_config ["*"])).1
             (createClientBuilders (test_config ["*"])).2
             false (fun _ => failing_controllers) (start_proc healthy_world) in
  EvInitReturned "b" (None, false, Some (ErrExternal "boom")) ∈ r.2 /\
  r.1.1 = Fatal (FatalStartingControllers (ErrExternal "boom")) /\
  closedChans r.1.2 = ∅.
Proof.
  intros r.
  assert (Hin : EvInitReturned "b" (None, false, Some (ErrExternal "boom")) ∈ r.2).
  { apply list_elem_of_In. vm_compute. tauto. }
  split; [exact Hin |].
  destruct (run_ends_the_process_when_an_initializer_fails
              (test_config ["*"])
              (createClientBuilders (test_config ["*"])).1
              (createClientBuilders (test_config ["*"])).2
              false (fun _ => failing_controllers) (start_proc healthy_world)
              r.1.1 r.1.2 r.2 "b" (None, false, Some (ErrExternal "boom"))
              (ErrExternal "boom") (triple_eta r) Hin eq_refl)
    as (Hout & _ & _ & _ & _ & _ & Hclosed).
  split; [exact Hout | exact Hclosed].
Defined.

(** The statement at an epoch in the healthy world, with ["foo"]
    disabled: no initializer is invoked twice, and each one invoked is
    in the registry. *)
Lemma run_invokes_witness :
  let r := run (test_config ["*"; "-foo"])
             (createClientBuilders (test_config ["*"; "-foo"])).1
             (createClientBuilders (test_config ["*"; "-foo"])).2
             false test_initializers (start_proc healthy_world) in
  NoDup (calls_of r.2) /\
  forall name, EvInitCalled name ∈ r.2 -> is_Some (test_initializers () !! name).
Proof.
  intros r.
  destruct (run_invokes_only_enabled_initializers_once
              (test_config ["*"; "-foo"])
              (createClientBuilders (test_config ["*"; "-foo"])).1
              (createClientBuilders (test_config ["*"; "-foo"])).2
              false test_initializers (start_proc healthy_world)
              r.1.1 r.1.2 r.2 (triple_eta r))
    as (Hunique & Hamong & _).
  split; [exact Hunique |]. intros name Hin. by destruct (Hamong name Hin).
Defined.

Section EpochsInSequence.
Context {World : Type} `{!Platform World}.
Implicit Types (p : Proc World) (controllerCtx : ControllerContext World).

(** [run] makes at most one channel, the gate, and keeps the channels
    in order. *)
Lemma run_channels c karmadaClientBuilder fireflyKubeClientBuilder unsecuredMux
    (initializersFunc : ControllerInitializersFunc World) p out p' evs :
  channels_ok p ->
  run c karmadaClientBuilder fireflyKubeClientBuilder unsecuredMux initializersFunc p
  = (out, p', evs) ->
  channels_ok p' /\
  (out = Returned tt -> nextChan p' = S (nextChan p)).
Proof.
  intros Hp Hrun.
  pose proof (run_spec _ _ _ _ _ _ _ _ _ Hp Hrun) as Hspec.
  destruct (CreateControllerContext c karmadaClientBuilder fireflyKubeClientBuilder p)
    as [[out1 p1] evs1] eqn:Hcc.
  pose proof (CreateControllerContext_spec _ _ _ _ _ _ _ Hcc)
    as (_ & Hc1 & _ & _ & Hout1).
  destruct out1 as [[controllerCtx [err1|]]|msg1|msg1]; [| | | done].
  - unfold run, bind in Hrun. rewrite Hcc in Hrun. injection Hrun as <- <- <-.
    destruct Hout1 as [_ Hn]. split; [| done].
    intros ch Hch. rewrite Hc1 in Hch. rewrite Hn. by apply Hp.
  - destruct (run_after_context _ _ _ unsecuredMux initializersFunc _ _ _ _ Hcc)
      as (out2 & p2 & evs2 & tail & Hsc & _ & _ & Hnext).
    rewrite Hrun in Hnext. cbn in Hnext.
    pose proof (StartControllers_spec _ _ _ _ _ _ _ Hsc) as (Hn2 & Hc2 & _).
    destruct Hout1 as (_ & _ & Hn1 & _).
    assert (Hnext' : nextChan p' = S (nextChan p)) by congruence.
    split; [| done].
    destruct Hspec as [[_ [msg Hmsg]]|(Hout & ctx' & cc & sc & _ & _ & _ & _ & _ & _ & _ & _ & _
                                   & Hclosed)].
    + subst out. unfold run, bind in Hrun. rewrite Hcc, Hsc in Hrun.
      assert (Hkeep : closedChans p' = closedChans p).
      { destruct out2 as [[err2|]|msg2|msg2];
          try (injection Hrun as _ <- _; congruence).
        repeat match type of Hrun with
               | context [FactoryStart ?field ?factory] =>
                   destruct factory; cbn [FactoryStart emit panic] in Hrun
               end;
          try (destruct (InformersStarted controllerCtx) as [ch|];
               cbn [close_chan panic] in Hrun; [destruct (bool_decide _) |]);
          cbn in Hrun; try discriminate Hrun;
          injection Hrun as _ <- _; cbn; congruence. }
      intros ch Hch. rewrite Hkeep in Hch. apply Hp in Hch. lia.
    + intros ch Hch. rewrite Hclosed in Hch.
      apply elem_of_union in Hch as [Hch%elem_of_singleton|Hch]; [lia |].
      apply Hp in Hch. lia.
  - unfold run, bind in Hrun. rewrite Hcc in Hrun. injection Hrun as <- <- <-.
    split; [| done]. intros ch Hch. rewrite Hc1 in Hch. rewrite Hout1. by apply Hp.
Qed.

(** Two runs of [run] in one process, one after the other, as for the
    main lock and for the migration lock: each run makes a gate of its
    own, so the second run closes another channel than the first, and
    it does not panic. *)
Theorem run_twice_closes_two_gates
    c karmadaClientBuilder fireflyKubeClientBuilder unsecuredMux
    (first second : ControllerInitializersFunc World)
    p p1 evs1 out2 p2 evs2 :
  channels_ok p ->
  run c karmadaClientBuilder fireflyKubeClientBuilder unsecuredMux first p
  = (Returned tt, p1, evs1) ->
  run c karmadaClientBuilder fireflyKubeClientBuilder unsecuredMux second p1
  = (out2, p2, evs2) ->
  (forall msg, out2 <> Panicked msg) /\
  EvClose (nextChan p) ∈ evs1 /\
  (forall ch, EvClose ch ∈ evs1 -> ch = nextChan p) /\
  (forall ch, EvClose ch ∈ evs2 -> ch = S (nextChan p)) /\
  (out2 = Returned tt -> closedChans p2 = {[S (nextChan p); nextChan p]} ∪ closedChans p).
Proof.
  intros Hp Hfirst Hsecond.
  destruct (run_channels _ _ _ _ _ _ _ _ _ Hp Hfirst) as [Hp1 Hn1].
  specialize (Hn1 eq_refl).
  pose proof (run_spec _ _ _ _ _ _ _ _ _ Hp Hfirst) as Hspec1.
  pose proof (run_spec _ _ _ _ _ _ _ _ _ Hp1 Hsecond) as Hspec2.
  assert (Hcloses : forall controllerCtx evs_cc evs_sc q ch,
            Forall (fun e => setup_event e = true) evs_cc ->
            Forall (fun e => startup_event e = true) evs_sc ->
            EvClose ch ∈ evs_cc ++ evs_sc ++ factory_starts controllerCtx
                         ++ [EvClose q; EvAwaitDone] ->
            ch = q).
  { intros controllerCtx evs_cc evs_sc q ch Hcc Hsc Hin.
    rewrite !elem_of_app in Hin. rewrite Forall_forall in Hcc, Hsc.
    destruct Hin as [Hin|[Hin|[Hin|Hin]]].
    - by apply Hcc in Hin.
    - by apply Hsc in Hin.
    - unfold factory_starts in Hin. apply list_elem_of_omap in Hin as (f & _ & Hf).
      by destruct (factory_of controllerCtx f).
    - rewrite !elem_of_cons in Hin. destruct Hin as [[= ->]|[Hin|Hin]]; [done..|].
      by apply not_elem_of_nil in Hin. }
  destruct Hspec1 as [[_ [msg Hmsg]]|(_ & ctx1 & cc1 & sc1 & -> & Hcc1 & Hsc1 & _ & _ & _
                                      & _ & _ & _ & Hclosed1)]; [done |].
  split_and!.
  - intros msg ->. by destruct Hspec2 as [[_ [? ?]]|[? _]].
  - rewrite !elem_of_app. do 3 right. by left.
  - intros ch. by apply Hcloses.
  - intros ch Hin. rewrite <- Hn1.
    destruct Hspec2 as [[Hall _]|(_ & ctx2 & cc2 & sc2 & -> & Hcc2 & Hsc2 & _)].
    + rewrite Forall_forall in Hall. by apply Hall in Hin.
    + by eapply Hcloses.
  - intros ->.
    destruct Hspec2 as [[_ [? ?]]|(_ & ctx2 & cc2 & sc2 & _ & _ & _ & _ & _ & _
                                   & _ & _ & _ & Hclosed2)]; [done |].
    rewrite Hclosed2, Hclosed1, Hn1. by rewrite (assoc_L (∪)).
Qed.

End EpochsInSequence.

(** The statement at two epochs in the healthy world: the first closes
    channel 0 and the second channel 1. *)
Lemma run_twice_witness :
  let r1 := run (test_config ["*"])
              (createClientBuilders (test_config ["*"])).1
              (createClientBuilders (test_config ["*"])).2
              false test_initializers (start_proc healthy_world) in
  let r2 := run (test_config ["*"])
              (createClientBuilders (test_config ["*"])).1
              (createClientBuilders (test_config ["*"])).2
              false test_initializers r1.1.2 in
  channels_ok (start_proc healthy_world) /\
  r1.1.1 = Returned tt /\
  EvClose 0 ∈ r1.2 /\
  (forall ch, EvClose ch ∈ r2.2 -> ch = 1%nat) /\
  (forall msg, r2.1.1 <> Panicked msg).
Proof.
  intros r1 r2.
  assert (Hout : r1.1.1 = Returned tt) by (vm_compute; reflexivity).
  assert (Hfirst : r1 = (Returned tt, r1.1.2, r1.2)).
  { rewrite <- Hout. apply triple_eta. }
  destruct (run_twice_closes_two_gates
              (test_config ["*"])
              (createClientBuilders (test_config ["*"])).1
              (createClientBuilders (test_config ["*"])).2
              false test_initializers test_initializers (start_proc healthy_world)
              r1.1.2 r1.2 r2.1.1 r2.1.2 r2.2
              (start_proc_channels_ok healthy_world) Hfirst (triple_eta r2))
    as (Hpanic & Hclose1 & _ & Hclose2 & _).
  split; [apply start_proc_channels_ok |]. split; [exact Hout |].
  split; [exact Hclose1 |]. split; [exact Hclose2 | exact Hpanic].
Defined.

(** ** The main goroutine of [Run]: what it starts, and when it returns *)

Section MainTrace.
Context {World : Type} `{!Platform World}.

Lemma executed_app history more :
  executed (history ++ more) = executed history ++ executed more.
Proof. apply filter_app. Qed.

Lemma elem_of_executed e history :
  e ∈ executed history <-> e ∈ history /\ is_fired e = false.
Proof. unfold executed. rewrite list_elem_of_filter. tauto. Qed.

Lemma on_track_start (steps : list (MainStep (World := World))) :
  on_track steps (main_start steps).
Proof.
  split_and!.
  - exists [], steps. split_and!; try done. by left.
  - intros s Hs. by apply not_elem_of_nil in Hs.
  - intros s Hs. by apply not_elem_of_nil in Hs.
Qed.

Lemma on_track_step (steps : list (MainStep (World := World))) st st' :
  main_step st st' -> on_track steps st -> on_track steps st'.
Proof.
  intros Hstep ((done & rest & Hsplit & Hexecuted & Hremaining) & Hreceived & Hfired).
  destruct Hstep as [s st|step rest' f h Henabled]; cbn [history remaining fired] in *;
    unfold on_track; cbn [history remaining fired].
  - split_and!.
    + exists done, rest. split_and!; try done.
      rewrite executed_app, Hexecuted. cbn. by rewrite app_nil_r.
    + intros s' [Hs'|Hs']%elem_of_app.
      * apply elem_of_app. left. by apply Hreceived.
      * apply list_elem_of_singleton in Hs'. discriminate Hs'.
    + intros s' [->|Hs']%elem_of_cons; apply elem_of_app.
      * right. by left.
      * left. by apply Hfired.
  - destruct Hremaining as [<-|[Hnone _]]; [| done].
    split_and!.
    + exists (done ++ [step]), rest'. split_and!.
      * by rewrite <- app_assoc.
      * rewrite executed_app, Hexecuted, fmap_app. cbn.
        by destruct step.
      * destruct step; cbn [continuation]; try (by left).
        right. split; [done |]. rewrite last_snoc. eauto.
    + intros s [Hs|Hs]%elem_of_app.
      * apply elem_of_app. left. by apply Hreceived.
      * apply list_elem_of_singleton in Hs. apply elem_of_app. left.
        destruct step; try discriminate Hs. injection Hs as <-.
        by apply Hfired.
    + intros s Hs. apply elem_of_app. left. by apply Hfired.
Qed.

Lemma on_track_reachable (steps : list (MainStep (World := World))) st :
  rtc main_step (main_start steps) st -> on_track steps st.
Proof.
  intros Hreach.
  eapply (rtc_ind_r (fun st => on_track steps st)); [| | exact Hreach].
  - apply on_track_start.
  - intros st1 st2 _ Hstep IH. by eapply on_track_step.
Qed.

(** An event of the main goroutine in the history is the event of a
    step the goroutine has executed; the executed steps are the front
    part of the program. *)
Lemma executed_step (steps : list (MainStep (World := World))) st e :
  rtc main_step (main_start steps) st ->
  e ∈ history st ->
  is_fired e = false ->
  exists done rest step,
    steps = done ++ rest /\ step ∈ done /\ event_of step = e /\
    executed (history st) = event_of <$> done.
Proof.
  intros ((done & rest & Hsplit & Hexecuted & _) & _)%on_track_reachable Hin He.
  assert (Hin' : e ∈ executed (history st)) by (by apply elem_of_executed).
  rewrite Hexecuted in Hin'. apply list_elem_of_fmap in Hin' as (step & -> & Hstep).
  by exists done, rest, step.
Qed.

End MainTrace.

(** The front parts of a program that is known step by step. *)
Ltac split_prefix H :=
  lazymatch type of H with
  | _ = ?done ++ _ =>
      destruct done as [|? done];
      [| cbn [app] in H;
         first [discriminate H | injection H as <- H; split_prefix H]]
  end.

Ltac decide_membership :=
  repeat match goal with
         | H : _ ∈ [] |- _ => by apply not_elem_of_nil in H
         | H : _ ∈ _ :: _ |- _ => apply elem_of_cons in H as [H|H]
         | H : _ ∈ _ ++ _ |- _ => apply elem_of_app in H as [H|H]
         end.

Section MainProperties.
Context {World : Type} `{!Platform World}.
Variables startEstimatorController startNodeController
  startFooController startKubeanController : InitFunc World.

Abbreviation Run_program :=
  (Run startEstimatorController startNodeController
     startFooController startKubeanController).

Lemma Run_error_steps c serveErr hostname err :
  Return (Some err) ∈ Run_program c serveErr hostname ->
  (forall step, step ∈ Run_program c serveErr hostname ->
                step = Serve \/ step = Return (Some err)) /\
  ((cfgSecureServing c = true /\ serveErr = Some err) \/
   (LeaderElect (LeaderElection (Generic (cfgComponentConfig c))) = true /\
    hostname = inr err)).
Proof.
  unfold Run, Run_elect.
  destruct (cfgSecureServing c), serveErr as [e|],
    (LeaderElect (LeaderElection (Generic (cfgComponentConfig c)))),
    hostname as [id|e'],
    (leadermigration_Enabled (Generic (cfgComponentConfig c)));
    cbn; intros Hin; decide_membership; try discriminate Hin;
    injection Hin as <-; (split; [| by eauto]);
    intros step Hstep; decide_membership; by eauto.
Qed.

Lemma Run_stop_before_return c serveErr hostname done rest :
  Run_program c serveErr hostname = done ++ rest ->
  Return None ∈ done ->
  Receive StopCh ∈ done.
Proof.
  unfold Run, Run_elect.
  destruct (cfgSecureServing c), serveErr as [e|],
    (LeaderElect (LeaderElection (Generic (cfgComponentConfig c)))),
    hostname as [id|e'],
    (leadermigration_Enabled (Generic (cfgComponentConfig c)));
    cbn; intros Hsplit Hin; split_prefix Hsplit; decide_membership;
    try discriminate Hin; rewrite !elem_of_cons; tauto.
Qed.

(** [Run] returns an error only when serving failed or the host name
    could not be had, and then it has neither run the controllers
    itself nor started an election.  It returns nil only after it has
    received from the stop channel, and so only after that channel has
    fired: with a stop channel that never fires, as the command passes
    one, [Run] does not return nil. *)
Theorem Run_returns_an_error_early_and_nil_after_stop c serveErr hostname st :
  rtc main_step (main_start (Run_program c serveErr hostname)) st ->
  (forall err,
     Returns (Some err) ∈ history st ->
     (forall lock, ElectionStarted lock ∉ history st) /\
     (RanDirectly ∉ history st) /\
     ((cfgSecureServing c = true /\ serveErr = Some err) \/
      (LeaderElect (LeaderElection (Generic (cfgComponentConfig c))) = true /\
       hostname = inr err))) /\
  (Returns None ∈ history st ->
   Received StopCh ∈ history st /\ Fired StopCh ∈ history st).
Proof.
  intros Hreach. split.
  - intros err Hin.
    destruct (executed_step _ _ _ Hreach Hin eq_refl)
      as (done & rest & step & Hsplit & Hstep & Hevent & _).
    assert (step = Return (Some err)) as -> by (by destruct step; simplify_eq/=).
    assert (Hprogram : Return (Some err) ∈ Run_program c serveErr hostname).
    { rewrite Hsplit. apply elem_of_app. by left. }
    destruct (Run_error_steps _ _ _ _ Hprogram) as [Honly Hcause].
    assert (Hnever : forall e,
              e ∈ history st -> is_fired e = false ->
              e = Served \/ e = Returns (Some err)).
    { intros e He Hfired.
      destruct (executed_step _ _ _ Hreach He Hfired)
        as (done' & rest' & step' & Hsplit' & Hstep' & <- & _).
      destruct (Honly step') as [->| ->]; [| by left | by right].
      rewrite Hsplit'. apply elem_of_app. by left. }
    split_and!; [| | done].
    + intros lock Hlock. by destruct (Hnever _ Hlock eq_refl).
    + intros Hdirect. by destruct (Hnever _ Hdirect eq_refl).
  - intros Hin.
    destruct (executed_step _ _ _ Hreach Hin eq_refl)
      as (done & rest & step & Hsplit & Hstep & Hevent & Hexecuted).
    assert (step = Return None) as -> by (by destruct step; simplify_eq/=).
    pose proof (Run_stop_before_return _ _ _ _ _ Hsplit Hstep) as Hstop.
    assert (Hreceived : Received StopCh ∈ history st).
    { apply (elem_of_executed (Received StopCh)). rewrite Hexecuted.
      apply list_elem_of_fmap. by exists (Receive StopCh). }
    split; [done |].
    apply on_track_reachable in Hreach as (_ & Hfired & _). by apply Hfired.
Qed.


Lemma Run_events_once c serveErr hostname :
  NoDup (event_of <$> Run_program c serveErr hostname).
Proof.
  unfold Run, Run_elect.
  destruct (cfgSecureServing c), serveErr as [e|],
    (LeaderElect (LeaderElection (Generic (cfgComponentConfig c)))),
    hostname as [id|e'],
    (leadermigration_Enabled (Generic (cfgComponentConfig c)));
    cbn; repeat (apply NoDup_cons; split; [rewrite ?elem_of_cons |]);
    try apply NoDup_nil_2;
    intros Hin; repeat (destruct Hin as [Hin|Hin]; [discriminate Hin |]);
    by apply not_elem_of_nil in Hin.
Qed.

Lemma Run_modes c serveErr hostname done rest :
  let g := Generic (cfgComponentConfig c) in
  Run_program c serveErr hostname = done ++ rest ->
  (forall step, step ∈ done ->
     match step with
     | Serve => cfgSecureServing c = true
     | RunDirectly _ => LeaderElect (LeaderElection g) = false
     | GoLeaderElectAndRun MainLock _ _ _ => LeaderElect (LeaderElection g) = true
     | GoLeaderElectAndRun MigrationLock _ _ _ =>
         leadermigration_Enabled g = true /\
         Receive MigrationReady ∈ done /\
         exists resourceLock leaseName initializersFunc,
           GoLeaderElectAndRun MainLock resourceLock leaseName initializersFunc ∈ done
     | Receive MigrationReady => leadermigration_Enabled g = true
     | _ => True
     end) /\
  (cfgSecureServing c = true -> done <> [] -> Serve ∈ done).
Proof.
  intros g. subst g. unfold Run, Run_elect.
  destruct (cfgSecureServing c), serveErr as [e|],
    (LeaderElect (LeaderElection (Generic (cfgComponentConfig c)))) eqn:Helect,
    hostname as [id|e'],
    (leadermigration_Enabled (Generic (cfgComponentConfig c))) eqn:Hmigration;
    cbn; intros Hsplit; split_prefix Hsplit;
    (split;
     [intros step Hstep; decide_membership; subst step;
      first [done
            |split_and!;
             [done
             |rewrite !elem_of_cons; tauto
             |eexists _, _, _; rewrite !elem_of_cons; by eauto]]
     |intros Hsecure Hdone; first [done | rewrite !elem_of_cons; tauto]]).
Qed.

(** The main goroutine of [Run] does each of its steps at most once,
    and does what the configuration asks for: it serves only with
    secure serving configured, and then before anything else; it runs
    the controllers itself only without leader election, and starts the
    election for the main lock only with it; and it starts the election
    for the migration lock only with leader migration enabled, after it
    has started the election for the main lock and received from
    [MigrationReady]. *)
Theorem Run_follows_the_configuration c serveErr hostname st :
  let g := Generic (cfgComponentConfig c) in
  rtc main_step (main_start (Run_program c serveErr hostname)) st ->
  NoDup (executed (history st)) /\
  (Served ∈ history st -> cfgSecureServing c = true) /\
  (cfgSecureServing c = true -> executed (history st) <> [] -> Served ∈ history st) /\
  (RanDirectly ∈ history st -> LeaderElect (LeaderElection g) = false) /\
  (ElectionStarted MainLock ∈ history st -> LeaderElect (LeaderElection g) = true) /\
  (ElectionStarted MigrationLock ∈ history st ->
   leadermigration_Enabled g = true /\
   ElectionStarted MainLock ∈ history st /\
   Received MigrationReady ∈ history st).
Proof.
  intros g Hreach.
  pose proof (on_track_reachable _ _ Hreach)
    as ((done & rest & Hsplit & Hexecuted & _) & _).
  destruct (Run_modes _ _ _ _ _ Hsplit) as [Hmodes Hserve].
  assert (Hstep : forall e,
            e ∈ history st -> is_fired e = false ->
            exists step, step ∈ done /\ event_of step = e).
  { intros e He Hfired.
    assert (Hin : e ∈ executed (history st)) by (by apply elem_of_executed).
    rewrite Hexecuted in Hin. apply list_elem_of_fmap in Hin as (step & -> & Hin).
    eauto. }
  assert (Hevent : forall step, step ∈ done -> event_of step ∈ history st).
  { intros step Hin. apply (elem_of_executed (event_of step)).
    rewrite Hexecuted. apply list_elem_of_fmap. eauto. }
  split_and!.
  - rewrite Hexecuted.
    pose proof (Run_events_once c serveErr hostname) as Honce.
    rewrite Hsplit, fmap_app in Honce. by apply NoDup_app in Honce as [? _].
  - intros (step & Hin & He)%Hstep; [| done].
    specialize (Hmodes step Hin). by destruct step.
  - intros Hsecure Hsome. apply (Hevent Serve), Hserve; [done |].
    intros ->. by rewrite Hexecuted in Hsome.
  - intros (step & Hin & He)%Hstep; [| done].
    specialize (Hmodes step Hin). by destruct step.
  - intros (step & Hin & He)%Hstep; [| done].
    specialize (Hmodes step Hin). by destruct step as [| |[] ? ? ?| |].
  - intros (step & Hin & He)%Hstep; [| done].
    specialize (Hmodes step Hin).
    destruct step as [| |[] ? ? ?| |]; try done.
    destruct Hmodes as (Hon & Hready & r & l & f & Hmain).
    split_and!; [done | |].
    + by apply (Hevent (GoLeaderElectAndRun MainLock r l f)).
    + by apply (Hevent (Receive MigrationReady)).
Qed.

End MainProperties.

Lemma stopped_state_reachable :
  rtc main_step (main_start test_steps) stopped_state.
Proof.
  eapply (transitivity (R := rtc main_step)); [exact migration_state_reachable |].
  eapply rtc_l; [apply (step_fire StopCh) |].
  eapply rtc_l; [apply step_exec; by left |].
  eapply rtc_l; [by apply step_exec |].
  apply rtc_refl.
Qed.

(** The statement at the execution of the example that has returned:
    it returned nil, after the stop channel fired. *)
Lemma Run_returns_witness :
  rtc main_step (main_start test_steps) stopped_state /\
  Returns None ∈ history stopped_state /\
  Received StopCh ∈ history stopped_state /\
  Fired StopCh ∈ history stopped_state.
Proof.
  split; [exact stopped_state_reachable |].
  assert (Hin : Returns None ∈ history stopped_state).
  { cbn. rewrite !elem_of_cons. tauto. }
  split; [exact Hin |].
  exact (proj2 (Run_returns_an_error_early_and_nil_after_stop _ _ _ _
                  (test_config ["*"]) None (inl "host-1") stopped_state
                  stopped_state_reachable) Hin).
Defined.

(** The statement at the same execution: with leader migration
    enabled, the election for the migration lock was started, after the
    one for the main lock. *)
Lemma Run_follows_witness :
  rtc main_step (main_start test_steps) stopped_state /\
  NoDup (executed (history stopped_state)) /\
  ElectionStarted MainLock ∈ history stopped_state.
Proof.
  split; [exact stopped_state_reachable |].
  destruct (Run_follows_the_configuration _ _ _ _
              (test_config ["*"]) None (inl "host-1") stopped_state
              stopped_state_reachable)
    as (Honce & _ & _ & _ & _ & Hmigration).
  split; [exact Honce |].
  apply Hmigration. cbn. rewrite !elem_of_cons. tauto.
Defined.

Section LockRegistries.
Context {World : Type} `{!Platform World}.
Variables startEstimatorController startNodeController
  startFooController startKubeanController : InitFunc World.

Abbreviation Run_locks :=
  (Run startEstimatorController startNodeController
     startFooController startKubeanController).

Abbreviation all_initializers :=
  (NewControllerInitializers startEstimatorController startNodeController
     startFooController startKubeanController ()).

Lemma createInitializersFunc_lookup filterFunc expected name initializer :
  createInitializersFunc startEstimatorController startNodeController
    startFooController startKubeanController filterFunc expected () !! name
  = Some initializer
  <-> all_initializers !! name = Some initializer /\ filterFunc name = expected.
Proof. unfold createInitializersFunc. apply map_lookup_filter_Some. Qed.

(** When [Run] starts the elections for both locks, the two registries
    it hands to them share no controller: the one for the main lock
    holds the initializers of the known controllers that the filter of
    the leader migrator reports as not migrated, the one for the
    migration lock those it reports as migrated, each under its name
    and unchanged; a known controller in neither registry is one the
    filter reports as not owned.  The main lock is the one of the
    leader election configuration, the migration lock the one of the
    leader migration configuration. *)
Theorem Run_divides_the_controllers_between_the_locks
    c serveErr hostname mainLock mainLease main migrationLock migrationLease migrated :
  let g := Generic (cfgComponentConfig c) in
  let filterFunc := FilterFunc (LeaderMigration g) "firefly-controller-manager" in
  GoLeaderElectAndRun MainLock mainLock mainLease main
    ∈ Run_locks c serveErr hostname ->
  GoLeaderElectAndRun MigrationLock migrationLock migrationLease migrated
    ∈ Run_locks c serveErr hostname ->
  (forall name initializer,
     main () !! name = Some initializer <->
     all_initializers !! name = Some initializer /\
     filterFunc name = ControllerNonMigrated) /\
  (forall name initializer,
     migrated () !! name = Some initializer <->
     all_initializers !! name = Some initializer /\
     filterFunc name = ControllerMigrated) /\
  main () ##ₘ migrated () /\
  (forall name,
     is_Some (all_initializers !! name) ->
     main () !! name = None -> migrated () !! name = None ->
     filterFunc name = ControllerUnowned) /\
  mainLock = ResourceLock (LeaderElection g) /\
  mainLease = ResourceName (LeaderElection g) /\
  migrationLock = MigrationResourceLock (LeaderMigration g) /\
  migrationLease = MigrationLeaderName (LeaderMigration g).
Proof.
  intros g filterFunc Hmain Hmigration.
  assert (Hboth : main = createInitializersFunc startEstimatorController
                           startNodeController startFooController
                           startKubeanController filterFunc ControllerNonMigrated /\
                  migrated = createInitializersFunc startEstimatorController
                               startNodeController startFooController
                               startKubeanController filterFunc ControllerMigrated /\
                  mainLock = ResourceLock (LeaderElection g) /\
                  mainLease = ResourceName (LeaderElection g) /\
                  migrationLock = MigrationResourceLock (LeaderMigration g) /\
                  migrationLease = MigrationLeaderName (LeaderMigration g)).
  { subst g filterFunc. revert Hmain Hmigration. unfold Run, Run_elect.
    destruct (cfgSecureServing c), serveErr as [e|],
      (LeaderElect (LeaderElection (Generic (cfgComponentConfig c)))),
      hostname as [id|e'],
      (leadermigration_Enabled (Generic (cfgComponentConfig c)));
      cbn; intros Hmain Hmigration; decide_membership;
      try discriminate Hmain; try discriminate Hmigration.
    all: by injection Hmain as -> -> ->; injection Hmigration as -> -> ->. }
  destruct Hboth as (-> & -> & -> & -> & -> & ->).
  split_and!; [| | | | reflexivity..].
  - intros name initializer. apply createInitializersFunc_lookup.
  - intros name initializer. apply createInitializersFunc_lookup.
  - apply map_disjoint_spec. intros name i1 i2 H1 H2.
    pose proof (proj1 (createInitializersFunc_lookup _ _ _ _) H1) as [_ F1].
    pose proof (proj1 (createInitializersFunc_lookup _ _ _ _) H2) as [_ F2].
    rewrite F1 in F2. discriminate F2.
  - intros name [initializer Hname] Hnot1 Hnot2.
    destruct (filterFunc name) eqn:Hfilter; [reflexivity | |]; exfalso.
    + pose proof (proj2 (createInitializersFunc_lookup
                           filterFunc ControllerMigrated name initializer)
                    (conj Hname Hfilter)) as Hin.
      rewrite Hnot2 in Hin. discriminate Hin.
    + pose proof (proj2 (createInitializersFunc_lookup
                           filterFunc ControllerNonMigrated name initializer)
                    (conj Hname Hfilter)) as Hin.
      rewrite Hnot1 in Hin. discriminate Hin.
Qed.

End LockRegistries.

(** The statement at the steps of the example, where the node
    controller is migrated: the registry for the main lock and the one
    for the migration lock share no controller. *)
Lemma Run_divides_witness :
  let filterFunc :=
    FilterFunc (LeaderMigration (Generic (cfgComponentConfig (test_config ["*"]))))
      "firefly-controller-manager" in
  let main :=
    createInitializersFunc (init_plain "estimator") (init_checked "node" 3%nat)
      (init_nil "foo") (init_declines "kubean") filterFunc ControllerNonMigrated in
  let migrated :=
    createInitializersFunc (init_plain "estimator") (init_checked "node" 3%nat)
      (init_nil "foo") (init_declines "kubean") filterFunc ControllerMigrated in
  GoLeaderElectAndRun MainLock "leases" "firefly-karmada-manager" main ∈ test_steps /\
  GoLeaderElectAndRun MigrationLock "leases" "firefly-migration" migrated
    ∈ test_steps /\
  main () ##ₘ migrated ().
Proof.
  intros filterFunc main migrated.
  assert (Hmain : GoLeaderElectAndRun MainLock "leases" "firefly-karmada-manager" main
                    ∈ test_steps) by (by left).
  assert (Hmigration : GoLeaderElectAndRun MigrationLock "leases" "firefly-migration"
                         migrated ∈ test_steps) by (right; right; by left).
  split; [exact Hmain |]. split; [exact Hmigration |].
  destruct (Run_divides_the_controllers_between_the_locks
              (init_plain "estimator") (init_checked "node" 3%nat)
              (init_nil "foo") (init_declines "kubean")
              (test_config ["*"]) None (inl "host-1")
              "leases" "firefly-karmada-manager" main
              "leases" "firefly-migration" migrated Hmain Hmigration)
    as (_ & _ & Hdisjoint & _).
  exact Hdisjoint.
Defined.

(** ** The known controllers *)

Lemma ascii_compare_refl (a : ascii) : (a ?= a)%char = Eq.
Proof. unfold Ascii.compare. apply N.compare_refl. Qed.

Lemma ascii_compare_lt_trans (a b c : ascii) :
  (a ?= b)%char = Lt -> (b ?= c)%char = Lt -> (a ?= c)%char = Lt.
Proof.
  unfold Ascii.compare. rewrite !N.compare_lt_iff. apply N.lt_trans.
Qed.

Lemma string_compare_not_gt_trans (s1 s2 s3 : string) :
  (s1 ?= s2)%string <> Gt -> (s2 ?= s3)%string <> Gt -> (s1 ?= s3)%string <> Gt.
Proof.
  revert s2 s3. induction s1 as [|c1 s1 IH]; intros [|c2 s2] [|c3 s3];
    cbn [String.compare]; try done.
  destruct (c1 ?= c2)%char eqn:H12; [| | done];
    destruct (c2 ?= c3)%char eqn:H23; try done.
  - apply Ascii.compare_eq_iff in H12 as ->. apply Ascii.compare_eq_iff in H23 as ->.
    rewrite ascii_compare_refl. apply IH.
  - apply Ascii.compare_eq_iff in H12 as ->. by rewrite H23.
  - apply Ascii.compare_eq_iff in H23 as <-. by rewrite H12.
  - by rewrite (ascii_compare_lt_trans _ _ _ H12 H23).
Qed.

Lemma string_le_compare a b : string_le a b <-> (a ?= b)%string <> Gt.
Proof. unfold string_le, String.leb. by destruct (a ?= b)%string. Qed.

Lemma string_le_trans : Transitive string_le.
Proof.
  intros a b c. rewrite !string_le_compare. apply string_compare_not_gt_trans.
Qed.

Lemma string_le_total : Total string_le.
Proof. intros a b. apply String.leb_total. Qed.

Lemma string_le_antisymm : AntiSymm eq string_le.
Proof. intros a b. apply String.leb_antisym. Qed.

Section KnownControllersProperties.
Context {World : Type} `{!Platform World}.
Variables startEstimatorController startNodeController
  startFooController startKubeanController : InitFunc World.

(** [KnownControllers] returns the names of the four controllers of
    [NewControllerInitializers], each once, in alphabetical order,
    in whatever order the run time hands out the entries of the map
    and whatever the start functions are; a name is among them exactly
    when the registry has an initializer under it. *)
Theorem KnownControllers_lists_the_registry_in_order :
  KnownControllers startEstimatorController startNodeController
    startFooController startKubeanController
  = ["estimator"; "foo"; "kubean"; "node"] /\
  forall name,
    name ∈ KnownControllers startEstimatorController startNodeController
             startFooController startKubeanController
    <-> is_Some (NewControllerInitializers startEstimatorController
                   startNodeController startFooController startKubeanController ()
                 !! name).
Proof.
  set (registry := NewControllerInitializers startEstimatorController
                     startNodeController startFooController startKubeanController ()).
  assert (Hkeys : (map_to_list registry).*1 = ["kubean"; "estimator"; "node"; "foo"])
    by (vm_compute; reflexivity).
  assert (Hsorted : KnownControllers startEstimatorController startNodeController
                      startFooController startKubeanController
                    = ["estimator"; "foo"; "kubean"; "node"]).
  { unfold KnownControllers, StringKeySet_List. fold registry.
    apply (@StronglySorted_unique _ string_le string_le_antisymm).
    - apply (@StronglySorted_merge_sort _ string_le _ string_le_trans string_le_total).
    - repeat (apply SSorted_cons; [| repeat constructor; by vm_compute]).
      apply SSorted_nil.
    - rewrite merge_sort_Permutation, (MapRange_perm registry), Hkeys.
      apply NoDup_Permutation.
      + repeat (apply NoDup_cons; split; [rewrite ?elem_of_cons; intros Hin;
                  repeat (destruct Hin as [Hin|Hin]; [discriminate Hin |]);
                  by apply not_elem_of_nil in Hin |]).
        apply NoDup_nil_2.
      + repeat (apply NoDup_cons; split; [rewrite ?elem_of_cons; intros Hin;
                  repeat (destruct Hin as [Hin|Hin]; [discriminate Hin |]);
                  by apply not_elem_of_nil in Hin |]).
        apply NoDup_nil_2.
      + intros name. rewrite !elem_of_cons. tauto. }
  split; [exact Hsorted |].
  intros name. unfold KnownControllers, StringKeySet_List. fold registry.
  rewrite merge_sort_Permutation. apply elem_of_MapRange_names.
Qed.

End KnownControllersProperties.

(** ** Resync periods: the ends of the range *)

Section Binary64Exact.

(** Multiplying a number that is an integer by 1 or by 2 is exact. *)
Lemma f64_mul_by_one_or_two x d k :
  0 < d ->
  represents x d ->
  k = 0 \/ k = 1 ->
  exists mz ez,
    f64_mul x (S754_finite false 4503599627370496 (k - 52)) = S754_finite false mz ez /\
    -52 <= ez <= 3 /\
    Z.pos mz * 2 ^ (ez + 52) = 2 ^ k * d * 2 ^ 52.
Proof.
  intros Hd (md & ed & -> & Hed & Hmd & Hvalue) Hk.
  unfold f64_mul, SFmul. cbn [xorb].
  set (product := (md * 4503599627370496)%positive).
  assert (Hexact : Z.pos product = Z.pos md * 2 ^ 52) by apply Pos2Z.inj_mul.
  assert (Hdigits : Z.pos (digits2_pos product) = 105).
  { apply digits2_pos_unique. rewrite Hexact.
    change (2 ^ (105 - 1)) with (4503599627370496 * 2 ^ 52).
    change (2 ^ 105) with (9007199254740992 * 2 ^ 52).
    change (2 ^ 53) with 9007199254740992 in Hmd.
    change (2 ^ 52) with 4503599627370496 in *. nia. }
  destruct (binary_round_aux_shift product (ed + (k - 52)))
    as (mz & ez & rounded & -> & _ & _ & Hzero & Hresult);
    [lia | lia | lia |].
  rewrite Hdigits in Hzero, Hresult.
  change (105 - 53) with 52 in Hzero.
  rewrite Hexact, Z.mod_mul, Z.div_mul in Hzero by done.
  specialize (Hzero eq_refl).
  exists mz, ez. split; [done |].
  assert (Hpow : 2 ^ (ed + k + 52) = 2 ^ k * 2 ^ (ed + 52)).
  { rewrite <- Z.pow_add_r by lia. f_equal. lia. }
  destruct Hresult as [(-> & -> & _)|(-> & _ & Hfull)].
  - replace (105 + (ed + (k - 52)) - 53 + 52) with (ed + k + 52) by lia.
    rewrite Hpow, Hzero. split; [lia |].
    replace (2 ^ k * d * 2 ^ 52) with (2 ^ k * (d * 2 ^ 52)) by ring.
    rewrite <- Hvalue. ring.
  - exfalso. change (2 ^ 53) with 9007199254740992 in *. lia.
Qed.

(** Cutting a binary64 number that is an integer to an [int64] gives
    that integer. *)
Lemma int64_of_float64_exact mz ez n :
  0 < n <= 2 ^ 54 ->
  -52 <= ez <= 3 ->
  Z.pos mz * 2 ^ (ez + 52) = n * 2 ^ 52 ->
  int64_of_float64 (S754_finite false mz ez) = n.
Proof.
  intros Hn Hez Hvalue.
  unfold int64_of_float64, truncate, cond_Zopp.
  set (cut := if 0 <=? ez then Z.pos mz * 2 ^ ez else Z.pos mz / 2 ^ (- ez)).
  assert (Hcut : cut = n).
  { unfold cut. destruct (Z.leb_spec 0 ez) as [Hnonneg|Hneg].
    - rewrite Z.pow_add_r, Z.mul_assoc in Hvalue by lia.
      apply Z.mul_cancel_r in Hvalue; [done | done].
    - assert (Hsplit : 2 ^ 52 = 2 ^ (- ez) * 2 ^ (ez + 52)).
      { rewrite <- Z.pow_add_r by lia. f_equal. lia. }
      assert (0 < 2 ^ (ez + 52)) by (apply Z.pow_pos_nonneg; lia).
      assert (0 < 2 ^ (- ez)) by (apply Z.pow_pos_nonneg; lia).
      rewrite Hsplit, Z.mul_assoc in Hvalue.
      apply Z.mul_cancel_r in Hvalue; [| lia].
      rewrite Hvalue. apply Z.div_mul. lia. }
  rewrite Hcut. unfold int64_min, int64_max.
  change (2 ^ 54) with 18014398509481984 in Hn.
  change (2 ^ 63) with 9223372036854775808.
  match goal with
  | |- context [if ?c then _ else _] => replace c with true; [done |]
  end.
  symmetry. apply andb_true_iff. split; apply Z.leb_le; lia.
Qed.

Lemma ResyncPeriod_at_ends d :
  0 < d <= 2 ^ 53 ->
  ResyncPeriod_at d f64_zero = d /\ ResyncPeriod_at d draw_last = 2 * d.
Proof.
  intros Hd. unfold ResyncPeriod_at.
  change (f64_add f64_zero f64_one) with (S754_finite false 4503599627370496 (0 - 52)).
  replace (f64_add draw_last f64_one)
    with (S754_finite false 4503599627370496 (1 - 52)) by (by vm_compute).
  pose proof (float64_of_int64_represents d Hd) as Hrepresents.
  change (2 ^ 53) with 9007199254740992 in Hd.
  split.
  - destruct (f64_mul_by_one_or_two _ d 0 ltac:(lia) Hrepresents ltac:(by left))
      as (mz & ez & -> & Hez & Hvalue).
    apply int64_of_float64_exact; [| done |].
    + change (2 ^ 54) with 18014398509481984. lia.
    + rewrite Hvalue. change (2 ^ 0) with 1. ring.
  - destruct (f64_mul_by_one_or_two _ d 1 ltac:(lia) Hrepresents ltac:(by right))
      as (mz & ez & -> & Hez & Hvalue).
    apply int64_of_float64_exact; [| done |].
    + change (2 ^ 54) with 18014398509481984. lia.
    + rewrite Hvalue. change (2 ^ 1) with 2. ring.
Qed.

Lemma ResyncPeriod_at_zero r :
  unit_interval r = true -> ResyncPeriod_at 0 r = 0.
Proof.
  intros (m & e & Hfactor & _)%f64_add_one.
  unfold ResyncPeriod_at. cbn zeta. rewrite Hfactor. reflexivity.
Qed.

End Binary64Exact.

Section ResyncEnds.
Context {World : Type} `{!Platform World}.

(** Both ends of the range of a resync period are reached: for a
    minimum [d] that is positive and at most [2 ^ 53] nanoseconds, the
    closure that [ResyncPeriod] returns gives [d] itself when the random
    source gives 0, and [2 * d] when it gives the largest number below
    1. *)
Theorem ResyncPeriod_reaches_both_ends (c : CompletedConfig) (p : Proc World) :
  let d := MinResyncPeriod (Generic (cfgComponentConfig c)) in
  0 < d <= 2 ^ 53 ->
  ((rand_Float64 (world p)).1 = f64_zero ->
   (ResyncPeriod c p).1.1 = Returned d) /\
  ((rand_Float64 (world p)).1 = draw_last ->
   (ResyncPeriod c p).1.1 = Returned (2 * d)).
Proof.
  intros d Hd. destruct (ResyncPeriod_at_ends d Hd) as [Hlow Hhigh].
  unfold ResyncPeriod, bind, call, ret. fold d.
  destruct (rand_Float64 (world p)) as [r w]. cbn [fst].
  split; intros ->; cbn [fst]; by f_equal.
Qed.

(** With a minimum resync period of 0 the closure that [ResyncPeriod]
    returns gives 0 on every invocation, whatever the random source
    gives in its range. *)
Theorem ResyncPeriod_zero_for_zero_minimum (c : CompletedConfig) (p : Proc World) :
  MinResyncPeriod (Generic (cfgComponentConfig c)) = 0 ->
  unit_interval (rand_Float64 (world p)).1 = true ->
  (ResyncPeriod c p).1.1 = Returned 0.
Proof.
  intros Hzero Hr. unfold ResyncPeriod, bind, call, ret. rewrite Hzero.
  destruct (rand_Float64 (world p)) as [r w]. cbn [fst] in *.
  by rewrite (ResyncPeriod_at_zero r Hr).
Qed.

End ResyncEnds.

(** The statement with a minimum of one second: the draw 0 gives one
    second, and the largest draw two. *)
Lemma ResyncPeriod_reaches_witness :
  (ResyncPeriod (resync_config Second) (start_proc (drawing_world [f64_zero]))).1.1
  = Returned Second /\
  (ResyncPeriod (resync_config Second) (start_proc (drawing_world [draw_last]))).1.1
  = Returned (2 * Second).
Proof.
  assert (Hd : 0 < Second <= 2 ^ 53)
    by (vm_compute; split; [reflexivity | discriminate]).
  split.
  - exact (proj1 (ResyncPeriod_reaches_both_ends (resync_config Second)
                    (start_proc (drawing_world [f64_zero])) Hd) eq_refl).
  - exact (proj2 (ResyncPeriod_reaches_both_ends (resync_config Second)
                    (start_proc (drawing_world [draw_last])) Hd) eq_refl).
Defined.

(** The statement with a minimum of 0 and the draw one half. *)
Lemma ResyncPeriod_zero_witness :
  (ResyncPeriod (resync_config 0) (start_proc (drawing_world [draw_half]))).1.1
  = Returned 0.
Proof.
  apply (ResyncPeriod_zero_for_zero_minimum (resync_config 0)
           (start_proc (drawing_world [draw_half]))).
  - reflexivity.
  - vm_compute. reflexivity.
Defined.
